(** * info-remover: the metadata-stripping pipeline

    A shallow embedding of the main-process code of info-remover: the output
    path resolver (outputStrategy.ts), the dispatcher (processorRouter.ts), the
    office and zip sanitizers (officeProcessor.ts, zipProcessor.ts) and the
    batch handler registered for "process-files" (main.ts).

    The code is asynchronous but strictly sequential (every call is awaited),
    so an async function is a computation in a state-and-exception monad.  The
    libraries the code calls (path, fs, file-type, sharp, pdf-lib, ffmpeg) are
    taken as a record of capabilities over an arbitrary state of the outside
    world; JSZip's in-memory archive object, which two sanitizers edit entry
    by entry, is modelled concretely. *)

From Stdlib Require Import String Ascii List Bool ZArith Arith Lia.
From Equations.Prop Require Import Equations Logic.
Import ListNotations.
Local Open Scope string_scope.
Local Open Scope list_scope.

(** ** JavaScript values the code observes *)

(** What a [throw] carries: an [Error] with its message, or any other value
    (the code tests [err instanceof Error]). *)
Inductive Thrown : Type :=
| JsError (message : string)
| NotAnError.

Inductive Outcome (A : Type) : Type :=
| Returned (a : A)
| Threw (e : Thrown).
Arguments Returned {A} a.
Arguments Threw {A} e.

(** A Node [Buffer]. *)
Definition Buffer : Type := list Byte.byte.

(** A [Date], as milliseconds since the epoch. *)
Definition Date : Type := Z.

(** Truthiness of the optional fields the code tests with [if (x)] or [!x]. *)
Definition truthy_string (v : option string) : option string :=
  match v with
  | Some s => if String.eqb s "" then None else Some s
  | None => None
  end.

Definition truthy_bool (v : option bool) : bool :=
  match v with
  | Some b => b
  | None => false
  end.

(** ** JSZip's archive object

    JSZip is a dependency of the repository.  The two sanitizers that use it
    work on its in-memory object: a table [files] from entry name to entry, and
    an archive comment.  The definitions follow the library's object API
    ([file], [folder], [remove], and the helpers [fileAdd], [folderAdd],
    [parentFolder], [forceTrailingSlash] behind them) and the choice of a
    compression method per entry made by [generateAsync]. *)

Module JSZip.

(** The two methods the library knows. *)
Inductive Compression : Type := STORE | DEFLATE.

(** What an entry holds: what the loader found in the archive (the method the
    entry was stored with, and what decompressing it yields), or data given to
    [file(name, data)]. *)
Inductive Data : Type :=
| Loaded (method : Compression) (content : Outcome Buffer)
| Given (content : Buffer).

Record ZipObject : Type := {
  name : string;
  dir : bool;
  date : Date;
  comment : option string;
  compression : option Compression;
  data : Data
}.

(** A JSZip instance whose root is the archive's.  [files] lists the entries in
    key order; every entry is kept under its own name. *)
Record t : Type := {
  files : list ZipObject;
  zip_comment : option string
}.

(** [new JSZip()]. *)
Definition empty : t := {| files := []; zip_comment := None |}.

Definition keys (z : t) : list string := map name (files z).

Definition lookup (n : string) (fs : list ZipObject) : option ZipObject :=
  find (fun o => String.eqb (name o) n) fs.

(** [zip.file(name)]: the entry, unless it is absent or a folder. *)
Definition file_get (n : string) (z : t) : option ZipObject :=
  match lookup n (files z) with
  | Some o => if dir o then None else Some o
  | None => None
  end.

(** [entry.async('nodebuffer')]. *)
Definition async (o : ZipObject) : Outcome Buffer :=
  match data o with
  | Loaded _ content => content
  | Given content => Returned content
  end.

Fixpoint ends_with_slash (s : string) : bool :=
  match s with
  | EmptyString => false
  | String c EmptyString => Ascii.eqb c "/"
  | String _ r => ends_with_slash r
  end.

Definition forceTrailingSlash (path : string) : string :=
  if ends_with_slash path then path else (path ++ "/")%string.

(** [s.lastIndexOf("/")]. *)
Fixpoint lastIndexOf_slash (s : string) : option nat :=
  match s with
  | EmptyString => None
  | String c r =>
      match lastIndexOf_slash r with
      | Some i => Some (S i)
      | None => if Ascii.eqb c "/" then Some 0 else None
      end
  end.

Definition parentFolder (path : string) : string :=
  let path :=
    if ends_with_slash path then substring 0 (String.length path - 1) path
    else path in
  match lastIndexOf_slash path with
  | Some (S i) => substring 0 (S i) path
  | _ => ""
  end.

(** [this.files[name] = object]: an existing key keeps its place, a new one
    goes last. *)
Definition set_file (o : ZipObject) (fs : list ZipObject) : list ZipObject :=
  if existsb (fun x => String.eqb (name x) (name o)) fs
  then map (fun x => if String.eqb (name x) (name o) then o else x) fs
  else fs ++ [o].

(** The entry [fileAdd] builds for a folder. *)
Definition folder_object (now : Date) (nm : string) : ZipObject :=
  {| name := nm;
     dir := true;
     date := now;
     comment := None;
     compression := Some STORE;
     data := Given [] |}.

Lemma length_substring_le (n : nat) (s : string) :
  String.length (substring 0 n s) <= n.
Proof.
  revert s; induction n as [|n IH]; intros [|c r]; simpl; try lia.
  specialize (IH r); lia.
Qed.

Lemma lastIndexOf_slash_lt (s : string) (i : nat) :
  lastIndexOf_slash s = Some i -> i < String.length s.
Proof.
  revert i; induction s as [|c r IH]; simpl; intros i H; [discriminate|].
  destruct (lastIndexOf_slash r) as [j|].
  - injection H as <-. specialize (IH j eq_refl). lia.
  - destruct (Ascii.eqb c "/"); [injection H as <-; lia | discriminate].
Qed.

Lemma length_forceTrailingSlash_strip (s : string) :
  let t := forceTrailingSlash s in
  String.length
    (if ends_with_slash t then substring 0 (String.length t - 1) t else t)
  <= String.length s.
Proof.
  unfold forceTrailingSlash.
  assert (E : forall u, ends_with_slash (u ++ "/") = true).
  { induction u as [|c r IH]; [reflexivity|].
    simpl. destruct (r ++ "/")%string eqn:Er; [destruct r; discriminate | exact IH]. }
  assert (L : forall u, String.length (u ++ "/") = S (String.length u)).
  { induction u as [|c r IH]; simpl; [reflexivity | now rewrite IH]. }
  destruct (ends_with_slash s) eqn:Es; cbn zeta.
  - rewrite Es. pose proof (length_substring_le (String.length s - 1) s). lia.
  - rewrite E, L. pose proof (length_substring_le (S (String.length s) - 1) (s ++ "/")).
    lia.
Qed.

Lemma parentFolder_shorter (s : string) :
  parentFolder (forceTrailingSlash s) <> "" ->
  String.length (parentFolder (forceTrailingSlash s)) < String.length s.
Proof.
  pose proof (length_forceTrailingSlash_strip s) as L. cbn zeta in L.
  unfold parentFolder. set (t := forceTrailingSlash s) in *.
  set (u := if ends_with_slash t then _ else t) in *.
  destruct (lastIndexOf_slash u) as [[|i]|] eqn:Ei; try congruence.
  intros _. apply lastIndexOf_slash_lt in Ei.
  pose proof (length_substring_le (S i) u). lia.
Qed.

(** [folderAdd(name, true)]: the folder is created unless an entry has its
    name, its own parent folders first. *)
Equations? folderAdd (now : Date) (nm : string) (fs : list ZipObject)
  : list ZipObject by wf (String.length nm) lt :=
folderAdd now nm fs with lookup (forceTrailingSlash nm) fs := {
  | Some _ => fs
  | None with inspect (parentFolder (forceTrailingSlash nm)) := {
    | exist _ EmptyString _ =>
        set_file (folder_object now (forceTrailingSlash nm)) fs
    | exist _ (String c r) e =>
        set_file (folder_object now (forceTrailingSlash nm))
          (folderAdd now (String c r) fs) } }.
Proof.
  change (String.length (String c r) < String.length nm).
  rewrite <- e. apply parentFolder_shorter. rewrite e. discriminate.
Qed.

(** The options of [file(name, data, options)], defaults filled in. *)
Record FileOptions : Type := {
  o_dir : bool;
  o_date : option Date;
  o_comment : option string;
  o_compression : option Compression;
  o_createFolders : bool
}.

Definition defaults : FileOptions :=
  {| o_dir := false;
     o_date := None;
     o_comment := None;
     o_compression := None;
     o_createFolders := true |}.

(** [fileAdd(name, data, options)]; [data] is [None] for [null]. *)
Definition fileAdd (now : Date) (nm : string) (content : option Buffer)
    (o : FileOptions) (fs : list ZipObject) : list ZipObject :=
  let nm := if o_dir o then forceTrailingSlash nm else nm in
  let fs :=
    if o_createFolders o then
      match parentFolder nm with
      | EmptyString => fs
      | parent => folderAdd now parent fs
      end
    else fs in
  let bytes := match content with Some b => b | None => [] end in
  let is_empty := o_dir o || match bytes with [] => true | _ => false end in
  set_file
    {| name := nm;
       dir := o_dir o;
       date := match o_date o with Some d => d | None => now end;
       comment := o_comment o;
       compression := if is_empty then Some STORE else o_compression o;
       data := Given (if is_empty then [] else bytes) |}
    fs.

(** [zip.file(name, data, options)]. *)
Definition file_set (now : Date) (nm : string) (content : Buffer)
    (o : FileOptions) (z : t) : t :=
  {| files := fileAdd now nm (Some content) o (files z);
     zip_comment := zip_comment z |}.

(** [zip.folder(name)], for the instance it changes (the handle it returns is
    not used by the code). *)
Definition folder (now : Date) (arg : string) (z : t) : t :=
  if String.eqb arg "" then z
  else {| files := folderAdd now arg (files z); zip_comment := zip_comment z |}.

(** [zip.remove(name)]. *)
Definition remove (nm : string) (z : t) : t :=
  let '(nm, file) :=
    match lookup nm (files z) with
    | Some f => (nm, Some f)
    | None =>
        let nm := if ends_with_slash nm then nm else (nm ++ "/")%string in
        (nm, lookup nm (files z))
    end in
  let delete_one := filter (fun o => negb (String.eqb (name o) nm)) (files z) in
  let delete_kids :=
    filter
      (fun o => negb (negb (String.eqb (name o) "") && String.prefix nm (name o)))
      (files z) in
  {| files :=
       match file with
       | Some f => if dir f then delete_kids else delete_one
       | None => delete_kids
       end;
     zip_comment := zip_comment z |}.

(** The method [generateAsync({ compression })] stores an entry with: the
    entry's own, when it has one, else the call's. *)
Definition method_used (call_compression : Compression) (o : ZipObject)
  : Compression :=
  match compression o with
  | Some c => c
  | None => call_compression
  end.

(** The comment [generateAsync] writes for the archive. *)
Definition archive_comment (z : t) : string :=
  match zip_comment z with
  | Some c => c
  | None => ""
  end.

End JSZip.

(** ** Sequential computations that may throw *)

Definition M (S A : Type) : Type := S -> Outcome A * S.

Definition ret {S A : Type} (a : A) : M S A := fun s => (Returned a, s).

Definition throw {S A : Type} (e : Thrown) : M S A := fun s => (Threw e, s).

Definition bind {S A B : Type} (m : M S A) (k : A -> M S B) : M S B :=
  fun s =>
    match m s with
    | (Returned a, s') => k a s'
    | (Threw e, s') => (Threw e, s')
    end.

(** [try { body } catch (err) { handler }]: effects made by the body before it
    threw stay in place. *)
Definition try_catch {S A : Type} (body : M S A) (handler : Thrown -> M S A) : M S A :=
  fun s =>
    match body s with
    | (Returned a, s') => (Returned a, s')
    | (Threw e, s') => handler e s'
    end.

Declare Scope js_scope.
Delimit Scope js_scope with js.
Notation "x <- c1 ;; c2" := (bind c1 (fun x => c2))
  (at level 61, c1 at next level, right associativity) : js_scope.
Notation "c1 ;; c2" := (bind c1 (fun _ => c2))
  (at level 61, right associativity) : js_scope.
Local Open Scope js_scope.

(** ** types.ts *)

Module Types.

Record ProcessOptions : Type := {
  outputDir : option string;
  copySuffix : option string;
  overwriteSource : option bool
}.

Record ProcessItem : Type := { path : string }.

Inductive Status : Type := success | skipped | error.

Record ProcessResult : Type := {
  inputPath : string;
  outputPath : option string;
  status : Status;
  removed : option (list string);
  type : option string;
  message : option string
}.

(** The [category] tags of [FileDetailedInfo]. *)
Module Category.
Inductive t : Type := image | office | pdf | zip | video | other.
End Category.
Definition FileCategory : Type := Category.t.

Definition Status_eqb (a b : Status) : bool :=
  match a, b with
  | success, success | skipped, skipped | error, error => true
  | _, _ => false
  end.

End Types.
Import Types.

(** What a sanitizer returns: [{ removed, type }]. *)
Record Report : Type := {
  report_removed : list string;
  report_type : string
}.

(** ** The outside world *)

Module Path.
(** The object [path.parse] returns. *)
Record Parsed : Type := {
  root : string;
  dir : string;
  base : string;
  ext : string;
  name : string
}.
End Path.

(** [fs.Stats], as far as the code reads it. *)
Record Stats : Type := { atime : Date; mtime : Date }.

(** One call the code makes to the outside world.  A run keeps the calls it
    made, in order: this is how "X is (never) invoked" is stated. *)
Inductive Event : Type :=
| EvMkdir (dir : string)
| EvStat (p : string)
| EvCopyFile (src dest : string)
| EvSniff (p : string)
| EvSanitize (c : FileCategory) (input output : string)
| EvUtimes (p : string) (a m : Date)
| EvRename (oldPath newPath : string)
| EvExists (p : string)
| EvUnlink (p : string)
| EvReadFile (p : string)
| EvLoadZip (data : Buffer)
| EvGenerateZip
| EvWriteFile (p : string) (data : Buffer).

Record World (St : Type) : Type := {
  ext_state : St;
  log : list Event
}.
Arguments ext_state {St} w.
Arguments log {St} w.

(** A call to the outside world: it acts on the outside state and is logged. *)
Definition perform {St A : Type} (ev : Event) (op : St -> Outcome A * St)
  : M (World St) A :=
  fun w =>
    let '(r, s) := op (ext_state w) in
    (r, {| ext_state := s; log := log w ++ [ev] |}).

(** The five sanitizers processorRouter.ts imports, as the dispatcher sees
    them: each takes the input and the destination path, acts on the outside
    world, and returns its report or throws.  The dispatcher and the handler
    are stated for any five; the image, PDF and video sanitizers, which drive
    sharp, pdf-lib and ffmpeg, are not opened. *)
Record Sanitizers (St : Type) : Type := {
  image_sanitizer : string -> string -> St -> Outcome Report * St;
  pdf_sanitizer : string -> string -> St -> Outcome Report * St;
  office_sanitizer : string -> string -> St -> Outcome Report * St;
  zip_sanitizer : string -> string -> St -> Outcome Report * St;
  video_sanitizer : string -> string -> St -> Outcome Report * St
}.
Arguments image_sanitizer {St} s.
Arguments pdf_sanitizer {St} s.
Arguments office_sanitizer {St} s.
Arguments zip_sanitizer {St} s.
Arguments video_sanitizer {St} s.

(** Node's [path] and [fs], [String.prototype.toLowerCase], the clock behind
    [new Date()], file-type's [fileTypeFromFile] (the sniffed MIME, [None] when
    nothing is detected), JSZip's parser and serialiser, and
    [String.prototype.replace] with a global regular expression and the empty
    replacement ([regex_replace_all pattern subject]). *)
Record Platform (St : Type) : Type := {
  path_parse : string -> Path.Parsed;
  path_join : string -> string -> string;
  toLowerCase : string -> string;
  fs_mkdir_recursive : string -> St -> Outcome unit * St;
  fs_stat : string -> St -> Outcome Stats * St;
  fs_copyFile : string -> string -> St -> Outcome unit * St;
  fs_utimes : string -> Date -> Date -> St -> Outcome unit * St;
  fs_rename : string -> string -> St -> Outcome unit * St;
  fs_existsSync : string -> St -> bool;
  fs_unlink : string -> St -> Outcome unit * St;
  fs_readFile : string -> St -> Outcome Buffer * St;
  fs_writeFile : string -> Buffer -> St -> Outcome unit * St;
  fileTypeFromFile : string -> St -> Outcome (option string) * St;
  date_now : St -> Date * St;
  JSZip_loadAsync : Buffer -> Outcome JSZip.t;
  JSZip_generateAsync : JSZip.t -> JSZip.Compression -> Outcome Buffer;
  regex_replace_all : string -> string -> string
}.
Arguments path_parse {St} p.
Arguments path_join {St} p.
Arguments toLowerCase {St} p.
Arguments fs_mkdir_recursive {St} p.
Arguments fs_stat {St} p.
Arguments fs_copyFile {St} p.
Arguments fs_utimes {St} p.
Arguments fs_rename {St} p.
Arguments fs_existsSync {St} p.
Arguments fs_unlink {St} p.
Arguments fs_readFile {St} p.
Arguments fs_writeFile {St} p.
Arguments fileTypeFromFile {St} p.
Arguments date_now {St} p.
Arguments JSZip_loadAsync {St} p.
Arguments JSZip_generateAsync {St} p.
Arguments regex_replace_all {St} p.

(** [new Date()]. *)
Definition new_Date {St : Type} (P : Platform St) : M (World St) Date :=
  fun w =>
    let '(d, s) := date_now P (ext_state w) in
    (Returned d, {| ext_state := s; log := log w |}).

(** Awaiting something computed in memory: its value, or what it throws. *)
Definition settle {S A : Type} (r : Outcome A) : M S A := fun s => (r, s).

(** [Array.prototype.includes] and [Set.prototype.has] on strings. *)
Definition includes (l : list string) (x : string) : bool :=
  existsb (String.eqb x) l.

(** The double quote, for the XML constants. *)
Definition dq : string := String (Ascii.ascii_of_nat 34) EmptyString.

(** ** officeProcessor.ts

    The repository holds this file twice.  The two texts agree on everything
    but [processOffice]: the helpers below are those of both. *)

Module OfficeProcessor.

Definition EMPTY_WORD_COMMENTS : string :=
  "<w:comments xmlns:w=" ++ dq
  ++ "http://schemas.openxmlformats.org/wordprocessingml/2006/main" ++ dq
  ++ "></w:comments>".
Definition EMPTY_XLSX_COMMENTS : string :=
  "<comments xmlns=" ++ dq
  ++ "http://schemas.openxmlformats.org/spreadsheetml/2006/main" ++ dq
  ++ "></comments>".
Definition EMPTY_PPT_COMMENTS : string :=
  "<p:cmLst xmlns:a=" ++ dq
  ++ "http://schemas.openxmlformats.org/drawingml/2006/main" ++ dq
  ++ " xmlns:p=" ++ dq
  ++ "http://schemas.openxmlformats.org/presentationml/2006/main" ++ dq
  ++ "></p:cmLst>".

Definition COMMON_REMOVALS : list string :=
  ["docProps/core.xml";
   "docProps/app.xml";
   "docProps/custom.xml";
   "docProps/thumbnail.emf";
   "docProps/thumbnail.jpeg"].

Definition CUSTOM_XML_PREFIX : string := "customXml/".

(** The archive being edited and the [removed] array, both changed in place by
    the helpers. *)
Definition Edit : Type := (JSZip.t * list string)%type.

(** The body of the loop over [COMMON_REMOVALS]. *)
Definition remove_if_file (zr : Edit) (entry : string) : Edit :=
  let '(zip, removed) := zr in
  match JSZip.file_get entry zip with
  | Some _ => (JSZip.remove entry zip, removed ++ [entry])
  | None => zr
  end.

(** The callback of the [forEach] over the names that start with the prefix. *)
Definition remove_custom (zr : Edit) (f : string) : Edit :=
  let '(zip, removed) := zr in
  (JSZip.remove f zip, removed ++ [CUSTOM_XML_PREFIX]).

Definition removeCommon (zr : Edit) : Edit :=
  let zr := fold_left remove_if_file COMMON_REMOVALS zr in
  fold_left remove_custom
    (filter (String.prefix CUSTOM_XML_PREFIX) (JSZip.keys (fst zr))) zr.

Section WithPlatform.
Context {St : Type} (P : Platform St).

(** [zip.file(name, text)]: the entry is added with the default options. *)
Definition write_text (fileName content : string) (zip : JSZip.t)
  : M (World St) JSZip.t :=
  now <- new_Date P ;;
  ret (JSZip.file_set now fileName (list_byte_of_string content) JSZip.defaults zip).

Definition stripTrackRevisions (zr : Edit) : M (World St) Edit :=
  let '(zip, removed) := zr in
  match JSZip.file_get "word/settings.xml" zip with
  | None => ret zr
  | Some settings =>
      bytes <- settle (JSZip.async settings) ;;
      let xml := string_of_list_byte bytes in
      let cleaned :=
        regex_replace_all P "<w:trackRevisions[^>]*>[\s\S]*?<\/w:trackRevisions>"
          (regex_replace_all P "<w:trackRevisions[^>]*\/>" xml) in
      if negb (String.eqb cleaned xml) then
        zip <- write_text "word/settings.xml" cleaned zip ;;
        ret (zip, removed ++ ["word/settings.xml trackRevisions"])
      else ret zr
  end.

Definition clearIfExists (fileName content : string) (zr : Edit)
  : M (World St) Edit :=
  let '(zip, removed) := zr in
  match JSZip.file_get fileName zip with
  | Some _ =>
      zip <- write_text fileName content zip ;;
      ret (zip, removed ++ [(fileName ++ " cleared")%string])
  | None => ret zr
  end.

Definition processDocx (zr : Edit) : M (World St) Edit :=
  zr <- clearIfExists "word/comments.xml" EMPTY_WORD_COMMENTS zr ;;
  zr <- clearIfExists "word/commentsExtended.xml" EMPTY_WORD_COMMENTS zr ;;
  stripTrackRevisions zr.

(** [names.forEach(f => { removed.push(`${f} cleared`); zip.file(f, content) })]. *)
Fixpoint clear_each (content : string) (names : list string) (zr : Edit)
  : M (World St) Edit :=
  match names with
  | [] => ret zr
  | f :: rest =>
      zip <- write_text f content (fst zr) ;;
      clear_each content rest (zip, snd zr ++ [(f ++ " cleared")%string])
  end.

Definition processXlsx (zr : Edit) : M (World St) Edit :=
  clear_each EMPTY_XLSX_COMMENTS
    (filter (String.prefix "xl/comments") (JSZip.keys (fst zr))) zr.

Definition processPptx (zr : Edit) : M (World St) Edit :=
  clear_each EMPTY_PPT_COMMENTS
    (filter (String.prefix "ppt/comments") (JSZip.keys (fst zr))) zr.

(** What both texts of [processOffice] do once the archive is parsed. *)
Definition sanitize_and_write (ext outputPath : string) (zip : JSZip.t)
  : M (World St) Report :=
  let zr := removeCommon (zip, []) in
  zr <- (if String.eqb ext ".docx" then processDocx zr
         else if String.eqb ext ".xlsx" then processXlsx zr
         else if String.eqb ext ".pptx" then processPptx zr
         else ret zr) ;;
  resultBuffer <- perform EvGenerateZip
                    (fun s => (JSZip_generateAsync P (fst zr) JSZip.DEFLATE, s)) ;;
  perform (EvWriteFile outputPath resultBuffer)
    (fs_writeFile P outputPath resultBuffer) ;;
  ret {| report_removed := snd zr; report_type := "office" |}.

Definition legacy_message (ext : string) : string :=
  "暂不支持旧版 Office 格式 (" ++ ext
  ++ ")。请先使用 Office 或在线转换工具将其转换为新版格式 (.docx, .xlsx, .pptx) 后再处理。".

(** [processOffice] of the text that checks for the legacy formats. *)
Definition processOffice (inputPath outputPath : string) : M (World St) Report :=
  let ext := toLowerCase P (Path.ext (path_parse P inputPath)) in
  if includes [".doc"; ".xls"; ".ppt"] ext then
    throw (JsError (legacy_message ext))
  else
    buffer <- perform (EvReadFile inputPath) (fs_readFile P inputPath) ;;
    zip <- try_catch
             (perform (EvLoadZip buffer) (fun s => (JSZip_loadAsync P buffer, s)))
             (fun _ =>
                throw (JsError
                  "无法解析该 Office 文件，可能文件已损坏或为不支持的旧版二进制格式。")) ;;
    sanitize_and_write ext outputPath zip.

End WithPlatform.

End OfficeProcessor.

(** [processOffice] of the repository's other text of officeProcessor.ts. *)

Module OfficeProcessorOther.

Import OfficeProcessor.

Section WithPlatform.
Context {St : Type} (P : Platform St).

Definition processOffice (inputPath outputPath : string) : M (World St) Report :=
  buffer <- perform (EvReadFile inputPath) (fs_readFile P inputPath) ;;
  zip <- perform (EvLoadZip buffer) (fun s => (JSZip_loadAsync P buffer, s)) ;;
  let ext := toLowerCase P (Path.ext (path_parse P inputPath)) in
  sanitize_and_write P ext outputPath zip.

End WithPlatform.

End OfficeProcessorOther.

(** ** zipProcessor.ts *)

Module ZipProcessor.

Section WithPlatform.
Context {St : Type} (P : Platform St).

(** The options [{ date: entry.date, binary: true }]. *)
Definition copy_options (entry : JSZip.ZipObject) : JSZip.FileOptions :=
  {| JSZip.o_dir := false;
     JSZip.o_date := Some (JSZip.date entry);
     JSZip.o_comment := None;
     JSZip.o_compression := None;
     JSZip.o_createFolders := true |}.

(** [for (const entry of entries)], on the archive being rebuilt. *)
Fixpoint rebuild (entries : list JSZip.ZipObject) (rebuilt : JSZip.t)
  : M (World St) JSZip.t :=
  match entries with
  | [] => ret rebuilt
  | entry :: rest =>
      if JSZip.dir entry then
        now <- new_Date P ;;
        rebuild rest (JSZip.folder now (JSZip.name entry) rebuilt)
      else
        content <- settle (JSZip.async entry) ;;
        now <- new_Date P ;;
        rebuild rest
          (JSZip.file_set now (JSZip.name entry) content (copy_options entry) rebuilt)
  end.

Definition processZip (inputPath outputPath : string) : M (World St) Report :=
  data <- perform (EvReadFile inputPath) (fs_readFile P inputPath) ;;
  zip <- perform (EvLoadZip data) (fun s => (JSZip_loadAsync P data, s)) ;;
  rebuilt <- rebuild (JSZip.files zip) JSZip.empty ;;
  buffer <- perform EvGenerateZip
              (fun s => (JSZip_generateAsync P rebuilt JSZip.DEFLATE, s)) ;;
  perform (EvWriteFile outputPath buffer) (fs_writeFile P outputPath buffer) ;;
  ret {| report_removed := ["ZIP 注释/附加头"]; report_type := "zip" |}.

End WithPlatform.

End ZipProcessor.

(** ** outputStrategy.ts *)

Module OutputStrategy.

Record ResolvedPath : Type := {
  outputPath : string;
  backupPath : option string
}.

Section WithPlatform.
Context {St : Type} (P : Platform St).

Definition ensureDir (dir : string) : M (World St) unit :=
  perform (EvMkdir dir) (fs_mkdir_recursive P dir).

Definition resolvePaths (inputPath : string) (options : ProcessOptions)
  : M (World St) ResolvedPath :=
  let parsed := path_parse P inputPath in
  let suffix :=
    match copySuffix options with
    | Some s => s
    | None => "-clean"
    end in
  if truthy_bool (overwriteSource options) then
    let outputPath :=
      path_join P (Path.dir parsed)
        ("." ++ Path.name parsed ++ suffix ++ "_tmp" ++ Path.ext parsed) in
    ret {| outputPath := outputPath; backupPath := None |}
  else
    match truthy_string (outputDir options) with
    | None => throw (JsError "未提供输出目录")
    | Some dir =>
        ensureDir dir ;;
        let outputPath :=
          path_join P dir (Path.name parsed ++ suffix ++ Path.ext parsed) in
        ret {| outputPath := outputPath; backupPath := None |}
    end.

End WithPlatform.

End OutputStrategy.

(** ** processorRouter.ts *)

Module ProcessorRouter.

Definition imageExts : list string :=
  [".jpg"; ".jpeg"; ".png"; ".webp"; ".tiff"; ".gif"; ".avif"; ".heic"].
Definition officeExts : list string :=
  [".docx"; ".xlsx"; ".pptx"; ".doc"; ".xls"; ".ppt"].
Definition pdfExts : list string := [".pdf"].
Definition zipExts : list string := [".zip"].
Definition videoExts : list string :=
  [".mp4"; ".mkv"; ".mov"; ".avi"; ".wmv"; ".flv"; ".webm"].

(** [Set.prototype.has]. *)
Definition has (s : list string) (x : string) : bool := includes s x.

(** [{ inputPath, outputPath, status: 'success', ...res }]. *)
Definition success_result (inputPath outputPath : string) (res : Report)
  : ProcessResult :=
  {| inputPath := inputPath;
     outputPath := Some outputPath;
     status := success;
     removed := Some (report_removed res);
     type := Some (report_type res);
     message := None |}.

Definition error_message (err : Thrown) : string :=
  match err with
  | JsError m => m
  | NotAnError => "处理失败"
  end.

Section WithPlatform.
Context {St : Type} (P : Platform St) (S : Sanitizers St).

(** A call of one imported sanitizer. *)
Definition call (c : FileCategory)
    (f : string -> string -> St -> Outcome Report * St)
    (inputPath outputPath : string) : M (World St) Report :=
  perform (EvSanitize c inputPath outputPath) (f inputPath outputPath).

Definition processByType (inputPath outputPath : string)
  : M (World St) ProcessResult :=
  let ext := toLowerCase P (Path.ext (path_parse P inputPath)) in
  detected <- perform (EvSniff inputPath) (fileTypeFromFile P inputPath) ;;
  let mime := match detected with Some m => m | None => "" end in
  try_catch
    (if has imageExts ext || String.prefix "image/" mime then
       res <- call Category.image (image_sanitizer S) inputPath outputPath ;;
       ret (success_result inputPath outputPath res)
     else if has pdfExts ext || String.eqb mime "application/pdf" then
       res <- call Category.pdf (pdf_sanitizer S) inputPath outputPath ;;
       ret (success_result inputPath outputPath res)
     else if has officeExts ext then
       res <- call Category.office (office_sanitizer S) inputPath outputPath ;;
       ret (success_result inputPath outputPath res)
     else if has zipExts ext || String.eqb mime "application/zip" then
       res <- call Category.zip (zip_sanitizer S) inputPath outputPath ;;
       ret (success_result inputPath outputPath res)
     else if has videoExts ext || String.prefix "video/" mime then
       res <- call Category.video (video_sanitizer S) inputPath outputPath ;;
       ret (success_result inputPath outputPath res)
     else
       ret {| inputPath := inputPath;
              outputPath := None;
              status := error;
              removed := None;
              type := None;
              message := Some "不支持的文件类型" |})
    (fun err =>
       ret {| inputPath := inputPath;
              outputPath := Some outputPath;
              status := error;
              removed := None;
              type := None;
              message := Some (error_message err) |}).

End WithPlatform.

End ProcessorRouter.

(** ** main.ts: the "process-files" handler *)

Module Main.

Import ProcessorRouter.

Record Payload : Type := {
  items : list (option ProcessItem);
  options : ProcessOptions
}.

(** [item?.path]: a missing item has no path. *)
Definition item_path (item : option ProcessItem) : option string :=
  match item with
  | Some it => Some (path it)
  | None => None
  end.

Section WithPlatform.
Context {St : Type} (P : Platform St) (S : Sanitizers St).

(** The handler's state: the outside world and its local [results] array. *)
Definition HState : Type := World St * list ProcessResult.

Definition lift {A : Type} (m : M (World St) A) : M HState A :=
  fun '(w, rs) => let '(r, w') := m w in (r, (w', rs)).

(** [results.push(r)]. *)
Definition push (r : ProcessResult) : M HState unit :=
  fun '(w, rs) => (Returned tt, (w, rs ++ [r])).

(** The statements of the [try] block. *)
Definition try_block (options : ProcessOptions) (p : string) : M HState unit :=
  rp <- lift (OutputStrategy.resolvePaths P p options) ;;
  let outputPath := OutputStrategy.outputPath rp in
  stat <- lift (perform (EvStat p) (fs_stat P p)) ;;
  match truthy_string (OutputStrategy.backupPath rp) with
  | Some b => lift (perform (EvCopyFile p b) (fs_copyFile P p b))
  | None => ret tt
  end ;;
  result <- lift (processByType P S p outputPath) ;;
  result' <-
    (if Status_eqb (status result) success then
       lift (perform (EvUtimes outputPath (atime stat) (mtime stat))
               (fs_utimes P outputPath (atime stat) (mtime stat))) ;;
       if truthy_bool (overwriteSource options) then
         lift (perform (EvRename outputPath p) (fs_rename P outputPath p)) ;;
         ret {| inputPath := inputPath result;
                outputPath := Some p;
                status := status result;
                removed := removed result;
                type := type result;
                message := message result |}
       else ret result
     else ret result) ;;
  push result'.

(** The statements of the [catch] block. *)
Definition catch_block (options : ProcessOptions) (p : string) (err : Thrown)
  : M HState unit :=
  try_catch
    (rp <- lift (OutputStrategy.resolvePaths P p options) ;;
     let outputPath := OutputStrategy.outputPath rp in
     if truthy_bool (overwriteSource options) then
       e <- lift (perform (EvExists outputPath)
                    (fun s => (Returned (fs_existsSync P outputPath s), s))) ;;
       if e then lift (perform (EvUnlink outputPath) (fs_unlink P outputPath))
       else ret tt
     else ret tt)
    (fun _ => ret tt) ;;
  push {| inputPath := p;
          outputPath := None;
          status := error;
          removed := None;
          type := None;
          message := Some (error_message err) |}.

(** The body of [for (const item of items)]. *)
Definition loop_body (options : ProcessOptions) (item : option ProcessItem)
  : M HState unit :=
  match truthy_string (item_path item) with
  | None =>
      push {| inputPath := "";
              outputPath := None;
              status := error;
              removed := None;
              type := None;
              message := Some "无效的文件路径" |}
  | Some p => try_catch (try_block options p) (catch_block options p)
  end.

Fixpoint for_of (options : ProcessOptions) (its : list (option ProcessItem))
  : M HState unit :=
  match its with
  | [] => ret tt
  | item :: rest => loop_body options item ;; for_of options rest
  end.

(** The handler: [results] starts empty and is what is returned. *)
Definition process_files (payload : Payload) : M (World St) (list ProcessResult) :=
  fun w =>
    match for_of (options payload) (items payload) (w, []) with
    | (Returned _, (w', rs)) => (Returned rs, w')
    | (Threw e, (w', _)) => (Threw e, w')
    end.

End WithPlatform.

End Main.

(** The sanitizers as the repository binds them: [processOffice] and
    [processZip] are the functions above, run on the outside world; the image,
    PDF and video sanitizers drive sharp, pdf-lib and ffmpeg and are given. *)
Definition run_on {St A : Type} (m : M (World St) A) : St -> Outcome A * St :=
  fun s =>
    let '(r, w) := m {| ext_state := s; log := [] |} in
    (r, ext_state w).

Definition bound_sanitizers {St : Type} (P : Platform St)
    (processImage processPdf processVideo
       : string -> string -> St -> Outcome Report * St)
  : Sanitizers St :=
  {| image_sanitizer := processImage;
     pdf_sanitizer := processPdf;
     office_sanitizer := fun i o => run_on (OfficeProcessor.processOffice P i o);
     zip_sanitizer := fun i o => run_on (ZipProcessor.processZip P i o);
     video_sanitizer := processVideo |}.

(** ** Reading the dispatcher's cascade

    The tests of [processByType], one per category, in the order the code
    evaluates them. *)

Module Routing.

Import ProcessorRouter.

Definition ext_set (c : FileCategory) : list string :=
  match c with
  | Category.image => imageExts
  | Category.pdf => pdfExts
  | Category.office => officeExts
  | Category.zip => zipExts
  | Category.video => videoExts
  | Category.other => []
  end.

Definition mime_test (c : FileCategory) (mime : string) : bool :=
  match c with
  | Category.image => String.prefix "image/" mime
  | Category.pdf => String.eqb mime "application/pdf"
  | Category.zip => String.eqb mime "application/zip"
  | Category.video => String.prefix "video/" mime
  | Category.office | Category.other => false
  end.

Definition matches (ext mime : string) (c : FileCategory) : bool :=
  has (ext_set c) ext || mime_test c mime.

Definition evaluation_order : list FileCategory :=
  [Category.image; Category.pdf; Category.office; Category.zip; Category.video].

(** The first category whose test passes, [other] when none does. *)
Definition route (ext mime : string) : FileCategory :=
  match find (matches ext mime) evaluation_order with
  | Some c => c
  | None => Category.other
  end.

Definition sanitizer_of {St : Type} (S : Sanitizers St) (c : FileCategory)
  : string -> string -> St -> Outcome Report * St :=
  match c with
  | Category.image => image_sanitizer S
  | Category.pdf => pdf_sanitizer S
  | Category.office => office_sanitizer S
  | Category.zip => zip_sanitizer S
  | Category.video => video_sanitizer S
  | Category.other => fun _ _ s => (Threw NotAnError, s)
  end.

Definition is_copy (e : Event) : bool :=
  match e with
  | EvCopyFile _ _ => true
  | _ => false
  end.

(** [{ inputPath, outputPath, status: 'error', message }], what the [catch] of
    [processByType] returns. *)
Definition caught_result (inputPath outputPath : string) (err : Thrown)
  : ProcessResult :=
  {| inputPath := inputPath;
     outputPath := Some outputPath;
     status := error;
     removed := None;
     type := None;
     message := Some (error_message err) |}.

Definition unsupported_result (inputPath : string) : ProcessResult :=
  {| inputPath := inputPath;
     outputPath := None;
     status := error;
     removed := None;
     type := None;
     message := Some "不支持的文件类型" |}.

End Routing.

(** ** A [Set] of strings

    Its elements are kept in insertion order, each once. *)

Module StringSet.

Definition t : Type := list string.

(** [Set.prototype.add]. *)
Definition add (x : string) (s : t) : t :=
  if includes s x then s else s ++ [x].

(** [new Set(array)]. *)
Definition of_array (l : list string) : t :=
  fold_left (fun s x => add x s) l [].

End StringSet.

(** ** fileScanner.ts *)

Module FileScanner.

Import StringSet.

(** [fs.Stats], as far as the scanner reads it. *)
Record EntryStats : Type := {
  is_directory : bool;
  is_file : bool
}.

(** The file system as the scan finds it.  The scan only reads:
    [fs.promises.stat] and [fs.promises.readdir] answer or throw, path by
    path, and the answers are taken not to change while it runs. *)
Record Tree : Type := {
  stat : string -> Outcome EntryStats;
  readdir : string -> Outcome (list string);
  join : string -> string -> string
}.

Section WithTree.
Context (T : Tree).

Definition isDirectory (p : string) : bool :=
  match stat T p with
  | Returned st => is_directory st
  | Threw _ => false
  end.

(** The loop of [walk] over the entries of [dir]; [descend] is the recursive
    call.  The result is [None] when the recursion did not end. *)
Fixpoint walk_entries (descend : string -> list string -> option (Outcome (list string)))
    (dir : string) (entries : list string) (acc : list string)
  : option (Outcome (list string)) :=
  match entries with
  | [] => Some (Returned acc)
  | entry :: rest =>
      let full := join T dir entry in
      match stat T full with
      | Threw e => Some (Threw e)
      | Returned st =>
          if is_directory st then
            match descend full acc with
            | Some (Returned acc) => walk_entries descend dir rest acc
            | stop => stop
            end
          else if is_file st then walk_entries descend dir rest (add full acc)
          else walk_entries descend dir rest acc
      end
  end.

(** [walk(dir, acc)], to a recursion depth of [fuel]. *)
Fixpoint walk (fuel : nat) (dir : string) (acc : list string)
  : option (Outcome (list string)) :=
  match fuel with
  | 0 => None
  | S fuel =>
      match readdir T dir with
      | Threw e => Some (Threw e)
      | Returned entries => walk_entries (walk fuel) dir entries acc
      end
  end.

(** [for (const p of paths)], on the set [files]. *)
Fixpoint scan_each (fuel : nat) (paths : list string) (files : list string)
  : option (Outcome (list string)) :=
  match paths with
  | [] => Some (Returned files)
  | p :: rest =>
      if isDirectory p then
        match walk fuel p files with
        | Some (Returned files) => scan_each fuel rest files
        | stop => stop
        end
      else scan_each fuel rest (add p files)
  end.

Definition scanPaths (fuel : nat) (paths : list string)
  : option (Outcome (list string)) :=
  scan_each fuel paths [].

End WithTree.

End FileScanner.

(** ** Calls of the other modules

    The image sanitizer and the other handlers of main.ts call libraries the
    log of [World] has no name for.  They are run on the outside state and a
    log of calls of their own. *)

Definition invoke {St C A : Type} (c : C) (op : St -> Outcome A * St)
  : M (St * list C) A :=
  fun sl =>
    let '(r, s) := op (fst sl) in
    (r, (s, snd sl ++ [c])).

(** ** imageProcessor.ts *)

Module ImageProcessor.

(** [meta.icc], as [typeof] may find it. *)
Inductive Icc : Type :=
| icc_undefined
| icc_buffer (profile : Buffer)
| icc_string (profile : string).

(** The object [metadata()] resolves with, as far as the code reads it. *)
Record Metadata : Type := {
  format : option string;
  icc : Icc
}.

Inductive Call : Type :=
| CallMetadata (input : string)
| CallToBuffer (input : string) (icc : option string) (format : string)
| CallWriteFile (p : string) (data : Buffer).

(** sharp: [sharp(input).metadata()], and the pipeline
    [sharp(input)], [withMetadata({ icc })] when a profile is given,
    [toFormat(format)], [toBuffer()]. *)
Record Sharp (St : Type) : Type := {
  sharp_metadata : string -> St -> Outcome Metadata * St;
  sharp_toBuffer : string -> option string -> string -> St -> Outcome Buffer * St
}.
Arguments sharp_metadata {St} s.
Arguments sharp_toBuffer {St} s.

Definition supportedFormats : list string :=
  ["jpeg"; "jpg"; "png"; "webp"; "tiff"; "gif"; "avif"; "heif"].

(** [s.replace('.', '')]: the first dot goes. *)
Fixpoint replace_first_dot (s : string) : string :=
  match s with
  | EmptyString => EmptyString
  | String c r => if Ascii.eqb c "." then r else String c (replace_first_dot r)
  end.

(** [formatFromMeta || formatFromExt || 'png']. *)
Definition targetFormat (meta : Metadata) (ext : string) : string :=
  let formatFromMeta :=
    match truthy_string (format meta) with
    | Some f => if includes supportedFormats f then Some f else None
    | None => None
    end in
  let formatFromExt := if includes supportedFormats ext then Some ext else None in
  match truthy_string formatFromMeta with
  | Some f => f
  | None =>
      match truthy_string formatFromExt with
      | Some f => f
      | None => "png"
      end
  end.

Definition iccProfile (meta : Metadata) : option string :=
  match icc meta with
  | icc_string profile => Some profile
  | _ => None
  end.

Section WithPlatform.
Context {St : Type} (P : Platform St) (Sh : Sharp St).

Definition processImage (inputPath outputPath : string)
  : M (St * list Call) Report :=
  meta <- invoke (CallMetadata inputPath) (sharp_metadata Sh inputPath) ;;
  let ext :=
    toLowerCase P (replace_first_dot (Path.ext (path_parse P inputPath))) in
  let target := targetFormat meta ext in
  let profile := truthy_string (iccProfile meta) in
  buffer <- invoke (CallToBuffer inputPath profile target)
              (sharp_toBuffer Sh inputPath profile target) ;;
  invoke (CallWriteFile outputPath buffer) (fs_writeFile P outputPath buffer) ;;
  ret {| report_removed := ["EXIF/IPTC/XMP/MakerNotes"; "缩略图/自定义块"];
         report_type := "image" |}.

End WithPlatform.

End ImageProcessor.

(** ** main.ts: [getCategory] and the handler "clear-directory" *)

Module MainInfo.

(** The letters a regular expression with the flag [i] takes for the same:
    here, the ASCII letters in both cases. *)
Definition fold_ascii (c : ascii) : ascii :=
  let n := nat_of_ascii c in
  if ((65 <=? n) && (n <=? 90))%nat then ascii_of_nat (n + 32) else c.

Fixpoint fold_case (s : string) : string :=
  match s with
  | EmptyString => EmptyString
  | String c r => String (fold_ascii c) (fold_case r)
  end.

Fixpoint ends_with (suffix s : string) : bool :=
  String.eqb suffix s
  || match s with
     | EmptyString => false
     | String _ r => ends_with suffix r
     end.

(** [ext.match(/\.(a|b|...)$/i)]: [ext] ends with a dot and one of the
    alternatives, whatever the case of its letters. *)
Definition matches_extension (alternatives : list string) (ext : string) : bool :=
  existsb (fun a => ends_with ("." ++ a) (fold_case ext)) alternatives.

Definition getCategory {St : Type} (P : Platform St) (ext : string)
  : FileCategory :=
  if matches_extension
       ["jpg"; "jpeg"; "png"; "webp"; "tiff"; "gif"; "avif"; "heif"] ext
  then Category.image
  else if matches_extension ["docx"; "xlsx"; "pptx"; "doc"; "xls"; "ppt"] ext
  then Category.office
  else if String.eqb (toLowerCase P ext) ".pdf" then Category.pdf
  else if String.eqb (toLowerCase P ext) ".zip" then Category.zip
  else if matches_extension
            ["mp4"; "mkv"; "mov"; "avi"; "wmv"; "flv"; "webm"] ext
  then Category.video
  else Category.other.

Inductive Call : Type :=
| CallExistsSync (p : string)
| CallReaddir (p : string)
| CallRm (p : string)
| CallConsoleError.

(** [fs.promises.readdir] and [fs.promises.rm] with
    [{ recursive: true, force: true }]. *)
Record Removal (St : Type) : Type := {
  fs_readdir : string -> St -> Outcome (list string) * St;
  fs_rm : string -> St -> Outcome unit * St
}.
Arguments fs_readdir {St} r.
Arguments fs_rm {St} r.

Section WithPlatform.
Context {St : Type} (P : Platform St) (R : Removal St).

(** [for (const file of files)]. *)
Fixpoint rm_each (dirPath : string) (files : list string)
  : M (St * list Call) unit :=
  match files with
  | [] => ret tt
  | file :: rest =>
      let fullPath := path_join P dirPath file in
      invoke (CallRm fullPath) (fs_rm R fullPath) ;;
      rm_each dirPath rest
  end.

(** The handler of "clear-directory". *)
Definition clear_directory (dirPath : option string) : M (St * list Call) bool :=
  try_catch
    (match truthy_string dirPath with
     | None => ret false
     | Some d =>
         there <- invoke (CallExistsSync d)
                    (fun s => (Returned (fs_existsSync P d s), s)) ;;
         if negb there then ret false
         else
           files <- invoke (CallReaddir d) (fs_readdir R d) ;;
           rm_each d files ;;
           ret true
     end)
    (fun _ =>
       invoke CallConsoleError (fun s => (Returned tt, s)) ;;
       ret false).

End WithPlatform.

End MainInfo.

(** ** App.tsx *)

Module App.

Definition uniqueMerge (current incoming : list string) : list string :=
  fold_left (fun set f => StringSet.add f set) incoming
    (StringSet.of_array current).

(** [list.filter(Boolean)] on strings: the empty ones go. *)
Definition filter_Boolean (l : list string) : list string :=
  filter (fun s => negb (String.eqb s "")) l.

(** [addPaths], for the [files] it leaves: the scan is the one the handler
    of "scan-paths" runs, [prev] the state the update is applied to.  When
    the scan fails so does [addPaths], and [files] stays as it is. *)
Definition addPaths (T : FileScanner.Tree) (fuel : nat)
    (paths prev : list string) : option (Outcome (list string)) :=
  let filtered := filter_Boolean paths in
  match FileScanner.scanPaths T fuel filtered with
  | Some (Returned files) =>
      let validFiles := filter_Boolean files in
      Some (Returned (if (0 <? length validFiles)%nat
                      then uniqueMerge prev validFiles
                      else prev))
  | stop => stop
  end.

Record AppConfig : Type := {
  outputDir : string;
  copySuffix : string;
  overwriteSource : bool
}.

(** A [Record<string, ProcessResult>]: the own properties of the object. *)
Definition Results : Type := list (string * ProcessResult).

Definition get (key : string) (m : Results) : option ProcessResult :=
  match find (fun kv => String.eqb (fst kv) key) m with
  | Some kv => Some (snd kv)
  | None => None
  end.

Definition put (key : string) (r : ProcessResult) (m : Results) : Results :=
  if existsb (fun kv => String.eqb (fst kv) key) m
  then map (fun kv => if String.eqb (fst kv) key then (key, r) else kv) m
  else m ++ [(key, r)].

(** [map[r.inputPath] = r] on an object literal: the key [__proto__] sets the
    prototype and makes no property. *)
Definition assign (m : Results) (r : ProcessResult) : Results :=
  if String.eqb (Types.inputPath r) "__proto__" then m
  else put (Types.inputPath r) r m.

(** [{ ...prev, ...map }]. *)
Definition spread (prev update : Results) : Results :=
  fold_left (fun m kv => put (fst kv) (snd kv) m) update prev.

(** The mark a row of the list shows. *)
Inductive Mark : Type := shows_success | shows_error | shows_waiting.

Definition mark (results : Results) (f : string) : Mark :=
  match get f results with
  | Some r =>
      match Types.status r with
      | success => shows_success
      | error => shows_error
      | skipped => shows_waiting
      end
  | None => shows_waiting
  end.

Section WithPlatform.
Context {St : Type} (P : Platform St) (S : Sanitizers St).

(** [handleProcess], for the [results] it leaves; [prev] is the state the
    update is applied to. *)
Definition handleProcess (files : list string) (config : AppConfig)
    (prev : Results) : M (World St) Results :=
  if (length files =? 0)%nat
     || (negb (overwriteSource config) && String.eqb (outputDir config) "")
  then ret prev
  else
    try_catch
      (processResults <-
         Main.process_files P S
           {| Main.items := map (fun path => Some {| Types.path := path |}) files;
              Main.options :=
                {| Types.outputDir := Some (outputDir config);
                   Types.copySuffix := Some (copySuffix config);
                   Types.overwriteSource := Some (overwriteSource config) |} |} ;;
       ret (spread prev (fold_left assign processResults [])))
      (fun _ => ret prev).

End WithPlatform.

End App.

(** ** A small platform to run the code on

    Files are a table from path to content; paths are POSIX paths; the sniffer
    looks at the first byte; the codecs copy their input, and the video codec
    fails on a stream it cannot copy after it has created its output.  The
    parser knows one archive. *)

Module Mock.

Definition FS : Type := list (string * Buffer).

Definition read (p : string) (fs : FS) : option Buffer :=
  match find (fun e => String.eqb (fst e) p) fs with
  | Some e => Some (snd e)
  | None => None
  end.

Definition delete (p : string) (fs : FS) : FS :=
  filter (fun e => negb (String.eqb (fst e) p)) fs.

Definition write (p : string) (b : Buffer) (fs : FS) : FS :=
  (p, b) :: delete p fs.

Definition enoent {A : Type} : Outcome A :=
  Threw (JsError "ENOENT: no such file or directory").

Fixpoint last_index (c : ascii) (s : string) : option nat :=
  match s with
  | EmptyString => None
  | String a r =>
      match last_index c r with
      | Some i => Some (S i)
      | None => if Ascii.eqb a c then Some 0 else None
      end
  end.

Definition parse (p : string) : Path.Parsed :=
  let '(d, b) :=
    match last_index "/" p with
    | Some i => (substring 0 i p, substring (S i) (String.length p - S i) p)
    | None => ("", p)
    end in
  let '(n, e) :=
    match last_index "." b with
    | Some (S j) => (substring 0 (S j) b, substring (S j) (String.length b - S j) b)
    | _ => (b, "")
    end in
  {| Path.root := ""; Path.dir := d; Path.base := b; Path.ext := e; Path.name := n |}.

Definition join (d f : string) : string :=
  if String.eqb d "" then f else (d ++ "/" ++ f)%string.

Definition lower_ascii (c : ascii) : ascii :=
  let n := nat_of_ascii c in
  if ((65 <=? n) && (n <=? 90))%nat then ascii_of_nat (n + 32) else c.

Fixpoint lower (s : string) : string :=
  match s with
  | EmptyString => EmptyString
  | String c r => String (lower_ascii c) (lower r)
  end.

Definition sniff (p : string) (fs : FS) : Outcome (option string) * FS :=
  match read p fs with
  | None => (enoent, fs)
  | Some (Byte.x89 :: _) => (Returned (Some "image/png"), fs)
  | Some (Byte.x25 :: _) => (Returned (Some "application/pdf"), fs)
  | Some (Byte.x50 :: _) => (Returned (Some "application/zip"), fs)
  | Some (Byte.x00 :: _) => (Returned (Some "video/mp4"), fs)
  | Some _ => (Returned None, fs)
  end.

Definition stat (p : string) (fs : FS) : Outcome Stats * FS :=
  match read p fs with
  | Some _ => (Returned {| atime := 1000%Z; mtime := 1000%Z |}, fs)
  | None => (enoent, fs)
  end.

Definition copy (src dest : string) (fs : FS) : Outcome unit * FS :=
  match read src fs with
  | Some b => (Returned tt, write dest b fs)
  | None => (enoent, fs)
  end.

Definition rename (oldPath newPath : string) (fs : FS) : Outcome unit * FS :=
  match read oldPath fs with
  | Some b => (Returned tt, write newPath b (delete oldPath fs))
  | None => (enoent, fs)
  end.

Definition unlink (p : string) (fs : FS) : Outcome unit * FS :=
  match read p fs with
  | Some _ => (Returned tt, delete p fs)
  | None => (enoent, fs)
  end.

Definition exists_ (p : string) (fs : FS) : bool :=
  match read p fs with
  | Some _ => true
  | None => false
  end.

Definition read_file (p : string) (fs : FS) : Outcome Buffer * FS :=
  match read p fs with
  | Some b => (Returned b, fs)
  | None => (enoent, fs)
  end.

(** The one archive the parser knows: a folder, a stored file in it, a
    deflated file, and the custom XML parts of an office document. *)
Definition stored_entry (n : string) (m : JSZip.Compression) (b : Buffer)
  : JSZip.ZipObject :=
  {| JSZip.name := n;
     JSZip.dir := false;
     JSZip.date := 42%Z;
     JSZip.comment := Some "note";
     JSZip.compression := None;
     JSZip.data := JSZip.Loaded m (Returned b) |}.

Definition folder_entry (n : string) : JSZip.ZipObject :=
  {| JSZip.name := n;
     JSZip.dir := true;
     JSZip.date := 41%Z;
     JSZip.comment := None;
     JSZip.compression := Some JSZip.STORE;
     JSZip.data := JSZip.Given [] |}.

Definition archive : JSZip.t :=
  {| JSZip.files :=
       [folder_entry "docs/";
        stored_entry "docs/readme.txt" JSZip.STORE [Byte.x68; Byte.x69];
        stored_entry "docProps/core.xml" JSZip.DEFLATE [Byte.x3c];
        stored_entry "customXml/item1.xml" JSZip.DEFLATE [Byte.x3c];
        stored_entry "customXml/itemProps1.xml" JSZip.DEFLATE [Byte.x3c]];
     JSZip.zip_comment := Some "made by me" |}.

Definition load (data : Buffer) : Outcome JSZip.t :=
  match data with
  | Byte.x50 :: Byte.x4b :: _ => Returned archive
  | _ => Threw (JsError "Can't find end of central directory : is this a zip file ?")
  end.

Definition generate (z : JSZip.t) (c : JSZip.Compression) : Outcome Buffer :=
  Returned (Byte.x50 :: Byte.x4b :: map (fun _ => Byte.x2e) (JSZip.files z)).

Definition platform : Platform FS :=
  {| path_parse := parse;
     path_join := join;
     toLowerCase := lower;
     fs_mkdir_recursive := fun _ fs => (Returned tt, fs);
     fs_stat := stat;
     fs_copyFile := copy;
     fs_utimes := fun p _ _ fs =>
       match read p fs with Some _ => (Returned tt, fs) | None => (enoent, fs) end;
     fs_rename := rename;
     fs_existsSync := exists_;
     fs_unlink := unlink;
     fs_readFile := read_file;
     fs_writeFile := fun p b fs => (Returned tt, write p b fs);
     fileTypeFromFile := sniff;
     date_now := fun fs => (2000%Z, fs);
     JSZip_loadAsync := load;
     JSZip_generateAsync := generate;
     regex_replace_all := fun _ s => s |}.

Definition codec (type : string) (inputPath outputPath : string) (fs : FS)
  : Outcome Report * FS :=
  match read inputPath fs with
  | Some b =>
      (Returned {| report_removed := ["metadata"]; report_type := type |},
       write outputPath b fs)
  | None => (enoent, fs)
  end.

(** ffmpeg: the output file is created first; a stream that cannot be copied
    ends the run with an error and leaves what was written. *)
Definition remux (inputPath outputPath : string) (fs : FS)
  : Outcome Report * FS :=
  match read inputPath fs with
  | Some (Byte.x00 :: Byte.x00 :: b) =>
      (Returned {| report_removed := ["metadata"]; report_type := "video" |},
       write outputPath (Byte.x00 :: Byte.x00 :: b) fs)
  | Some _ => (Threw (JsError "ffmpeg exited with code 1"), write outputPath [] fs)
  | None => (enoent, fs)
  end.

Definition sanitizers : Sanitizers FS :=
  bound_sanitizers platform (codec "image") (codec "pdf") remux.

Definition start (fs : FS) : World FS := {| ext_state := fs; log := [] |}.

End Mock.

(** * The vocabulary of the properties *)

Import ProcessorRouter Routing.

Section Reading.
Context {St : Type} (P : Platform St) (S : Sanitizers St).

(** [yields Q R m]: whatever the world [m] starts in, the calls it adds to the
    log all satisfy [Q], and the value it returns, when it returns, satisfies
    [R]. *)
Definition yields {A : Type} (Q : Event -> Prop) (R : A -> Prop)
    (m : M (World St) A) : Prop :=
  forall w : World St,
    exists evs : list Event,
      log (snd (m w)) = log w ++ evs
      /\ Forall Q evs
      /\ match fst (m w) with
         | Returned a => R a
         | Threw _ => True
         end.

(** [log_blind m]: what [m] returns and what it leaves of the outside world
    depend on the outside world it starts in, not on the log. *)
Definition log_blind {A : Type} (m : M (World St) A) : Prop :=
  forall w1 w2 : World St,
    ext_state w1 = ext_state w2 ->
    fst (m w1) = fst (m w2) /\ ext_state (snd (m w1)) = ext_state (snd (m w2)).

(** The extension and the MIME type the cascade tests. *)
Definition tested_ext (inputPath : string) : string :=
  toLowerCase P (Path.ext (path_parse P inputPath)).

Definition tested_mime (detected : option string) : string :=
  match detected with
  | Some m => m
  | None => ""
  end.

(** The calls a dispatch to category [c] adds to the log. *)
Definition dispatch_events (c : FileCategory) (inputPath outputPath : string)
  : list Event :=
  match c with
  | Category.other => []
  | _ => [EvSanitize c inputPath outputPath]
  end.

(** What the [try] block does to the outside world, and the result it is
    about to push. *)
Definition attempt (options : ProcessOptions) (p : string)
  : M (World St) ProcessResult :=
  rp <- OutputStrategy.resolvePaths P p options ;;
  let outputPath := OutputStrategy.outputPath rp in
  stat <- perform (EvStat p) (fs_stat P p) ;;
  match truthy_string (OutputStrategy.backupPath rp) with
  | Some b => perform (EvCopyFile p b) (fs_copyFile P p b)
  | None => ret tt
  end ;;
  result <- processByType P S p outputPath ;;
  if Status_eqb (status result) success then
    perform (EvUtimes outputPath (atime stat) (mtime stat))
      (fs_utimes P outputPath (atime stat) (mtime stat)) ;;
    if truthy_bool (overwriteSource options) then
      perform (EvRename outputPath p) (fs_rename P outputPath p) ;;
      ret {| inputPath := inputPath result;
             outputPath := Some p;
             status := status result;
             removed := removed result;
             type := type result;
             message := message result |}
    else ret result
  else ret result.

(** What the [catch] block does to the outside world. *)
Definition cleanup (options : ProcessOptions) (p : string) : M (World St) unit :=
  try_catch
    (rp <- OutputStrategy.resolvePaths P p options ;;
     let outputPath := OutputStrategy.outputPath rp in
     if truthy_bool (overwriteSource options) then
       e <- perform (EvExists outputPath)
              (fun s => (Returned (fs_existsSync P outputPath s), s)) ;;
       if e then perform (EvUnlink outputPath) (fs_unlink P outputPath)
       else ret tt
     else ret tt)
    (fun _ => ret tt).

Definition invalid_result : ProcessResult :=
  {| inputPath := "";
     outputPath := None;
     status := error;
     removed := None;
     type := None;
     message := Some "无效的文件路径" |}.

Definition failed_result (p : string) (err : Thrown) : ProcessResult :=
  {| inputPath := p;
     outputPath := None;
     status := error;
     removed := None;
     type := None;
     message := Some (error_message err) |}.

(** One iteration: the result pushed and the world left. *)
Definition item_outcome (options : ProcessOptions) (item : option ProcessItem)
    (w : World St) : ProcessResult * World St :=
  match truthy_string (Main.item_path item) with
  | None => (invalid_result, w)
  | Some p =>
      match attempt options p w with
      | (Returned r, w') => (r, w')
      | (Threw err, w') => (failed_result p err, snd (cleanup options p w'))
      end
  end.

Fixpoint batch_outcome (options : ProcessOptions)
    (its : list (option ProcessItem)) (w : World St)
  : list ProcessResult * World St :=
  match its with
  | [] => ([], w)
  | item :: rest =>
      let '(r, w1) := item_outcome options item w in
      let '(rs, w2) := batch_outcome options rest w1 in
      (r :: rs, w2)
  end.

(** The key the results are matched to their items by. *)
Definition item_key (item : option ProcessItem) : string :=
  match truthy_string (Main.item_path item) with
  | Some p => p
  | None => ""
  end.

(** The suffix in effect, and the two destinations [resolvePaths] computes. *)
Definition suffix_of (options : ProcessOptions) : string :=
  match copySuffix options with
  | Some s => s
  | None => "-clean"
  end.

Definition temporary_sibling (inputPath : string) (options : ProcessOptions)
  : string :=
  let parsed := path_parse P inputPath in
  path_join P (Path.dir parsed)
    ("." ++ Path.name parsed ++ suffix_of options ++ "_tmp" ++ Path.ext parsed).

End Reading.

(** [remove] of a name that [file(name)] finds deletes that entry alone. *)
Definition delete_name (n : string) (z : JSZip.t) : JSZip.t :=
  {| JSZip.files :=
       filter (fun o => negb (String.eqb (JSZip.name o) n)) (JSZip.files z);
     JSZip.zip_comment := JSZip.zip_comment z |}.

Definition is_file (z : JSZip.t) (n : string) : bool :=
  match JSZip.file_get n z with
  | Some _ => true
  | None => false
  end.

(** The entry [file(entry.name, content, { date: entry.date, binary: true })]
    stores: a file of that name, date and content, with no comment; it has no
    compression method of its own unless it is empty. *)
Definition copy_of (e : JSZip.ZipObject) (content : Buffer) : JSZip.ZipObject :=
  {| JSZip.name := JSZip.name e;
     JSZip.dir := false;
     JSZip.date := JSZip.date e;
     JSZip.comment := None;
     JSZip.compression :=
       match content with
       | [] => Some JSZip.STORE
       | _ => None
       end;
     JSZip.data := JSZip.Given content |}.

(** The method an entry came with. *)
Definition original_method (o : JSZip.ZipObject) : option JSZip.Compression :=
  match JSZip.data o with
  | JSZip.Loaded m _ => Some m
  | JSZip.Given _ => None
  end.

Definition folders_end_with_slash (fs : list JSZip.ZipObject) : Prop :=
  Forall (fun o => JSZip.dir o = true ->
                   JSZip.ends_with_slash (JSZip.name o) = true) fs.

(** What every JSZip instance satisfies: one entry per name, and a folder's
    name ends with a slash. *)
Definition well_formed (z : JSZip.t) : Prop :=
  NoDup (JSZip.keys z) /\ folders_end_with_slash (JSZip.files z).

Definition sample_files : Mock.FS :=
  [("/in/a.zip", [Byte.x50; Byte.x4b]);
   ("/in/clip.mp4", [Byte.x00; Byte.x01])].

Definition to_directory : ProcessOptions :=
  {| outputDir := Some "/out"; copySuffix := None; overwriteSource := Some false |}.

Definition in_place : ProcessOptions :=
  {| outputDir := None; copySuffix := None; overwriteSource := Some true |}.


Definition item (p : string) : option ProcessItem := Some {| path := p |}.

(** The shape of a result the handler pushes: a success names its output and
    what was removed, and has no message; an error has a message. *)
Definition well_shaped (r : ProcessResult) : Prop :=
  match status r with
  | success =>
      outputPath r <> None /\ removed r <> None /\ type r <> None
      /\ message r = None
  | error => message r <> None /\ removed r = None /\ type r = None
  | skipped => False
  end.

(** The calls the handler makes in each mode. *)
Definition mode_call (options : ProcessOptions) (e : Event) : bool :=
  match e with
  | EvStat _ | EvSniff _ | EvSanitize _ _ _ | EvUtimes _ _ _ => true
  | EvMkdir _ => negb (truthy_bool (overwriteSource options))
  | EvRename _ _ | EvExists _ | EvUnlink _ =>
      truthy_bool (overwriteSource options)
  | _ => false
  end.

(** The two replacements [stripTrackRevisions] makes in the settings. *)
Definition cleaned_settings {St : Type} (P : Platform St) (xml : string)
  : string :=
  regex_replace_all P "<w:trackRevisions[^>]*>[\s\S]*?<\/w:trackRevisions>"
    (regex_replace_all P "<w:trackRevisions[^>]*\/>" xml).

(** An entry that is a file with the given text as content. *)
Definition holds_text (z : JSZip.t) (n content : string) : Prop :=
  exists o,
    JSZip.lookup n (JSZip.files z) = Some o
    /\ JSZip.dir o = false
    /\ JSZip.async o = Returned (list_byte_of_string content).

(** What clearing the comment parts under a prefix comes to: the report gains
    "name cleared" for each entry name under the prefix, in key order; each of
    those names is a file with the empty document as content; the entries
    under other names are as they were, and no name is lost. *)
Definition comments_cleared (pre content : string)
    (before after : OfficeProcessor.Edit) : Prop :=
  let names := filter (String.prefix pre) (JSZip.keys (fst before)) in
  snd after = snd before ++ map (fun f => (f ++ " cleared")%string) names
  /\ (forall f, In f names -> holds_text (fst after) f content)
  /\ (forall n o, ~ In n names ->
        JSZip.lookup n (JSZip.files (fst before)) = Some o ->
        JSZip.lookup n (JSZip.files (fst after)) = Some o)
  /\ (forall n, In n (JSZip.keys (fst before)) -> In n (JSZip.keys (fst after)))
  /\ JSZip.zip_comment (fst after) = JSZip.zip_comment (fst before).

(** The entries [removeCommon] takes away: those of a fixed name that
    [file(name)] finds, and those under the custom XML prefix. *)
Definition removed_by_removeCommon (zip : JSZip.t) (o : JSZip.ZipObject) : bool :=
  includes (filter (is_file zip) OfficeProcessor.COMMON_REMOVALS) (JSZip.name o)
  || String.prefix OfficeProcessor.CUSTOM_XML_PREFIX (JSZip.name o).

(** What [processDocx] leaves of the archive, the settings apart: a comment
    part that was a file holds the empty comment list; the entries under
    other names are as they were; no name is lost and the archive comment is
    not touched. *)
Definition docx_cleared (before after : JSZip.t) : Prop :=
  (forall f, In f ["word/comments.xml"; "word/commentsExtended.xml"] ->
     is_file before f = true ->
     holds_text after f OfficeProcessor.EMPTY_WORD_COMMENTS)
  /\ (forall n o,
        ~ In n ["word/comments.xml"; "word/commentsExtended.xml";
                "word/settings.xml"] ->
        JSZip.lookup n (JSZip.files before) = Some o ->
        JSZip.lookup n (JSZip.files after) = Some o)
  /\ (forall n, In n (JSZip.keys before) -> In n (JSZip.keys after))
  /\ JSZip.zip_comment after = JSZip.zip_comment before.

(** The calls of a sanitizer that reads an archive, parses it, serialises
    what it made of it and writes the result. *)
Definition archive_calls (inputPath outputPath : string)
    (buffer result : Buffer) : list Event :=
  [EvReadFile inputPath; EvLoadZip buffer; EvGenerateZip;
   EvWriteFile outputPath result].

(** An entry whose content cannot be inflated, and the small platform with a
    parser that finds it in every archive. *)
Definition damaged_entry : JSZip.ZipObject :=
  {| JSZip.name := "a.txt";
     JSZip.dir := false;
     JSZip.date := 42%Z;
     JSZip.comment := None;
     JSZip.compression := None;
     JSZip.data :=
       JSZip.Loaded JSZip.DEFLATE (Threw (JsError "invalid stored block lengths")) |}.

Definition damaged_platform : Platform Mock.FS :=
  {| path_parse := path_parse Mock.platform;
     path_join := path_join Mock.platform;
     toLowerCase := toLowerCase Mock.platform;
     fs_mkdir_recursive := fs_mkdir_recursive Mock.platform;
     fs_stat := fs_stat Mock.platform;
     fs_copyFile := fs_copyFile Mock.platform;
     fs_utimes := fs_utimes Mock.platform;
     fs_rename := fs_rename Mock.platform;
     fs_existsSync := fs_existsSync Mock.platform;
     fs_unlink := fs_unlink Mock.platform;
     fs_readFile := fs_readFile Mock.platform;
     fs_writeFile := fs_writeFile Mock.platform;
     fileTypeFromFile := fileTypeFromFile Mock.platform;
     date_now := date_now Mock.platform;
     JSZip_loadAsync := fun _ =>
       Returned {| JSZip.files := [Mock.folder_entry "docs/"; damaged_entry];
                   JSZip.zip_comment := None |};
     JSZip_generateAsync := JSZip_generateAsync Mock.platform;
     regex_replace_all := regex_replace_all Mock.platform |}.

(** [found_under T dir f]: [f] is a regular file in the directory [dir] of
    [T] or in a directory below it. *)
Inductive found_under (T : FileScanner.Tree) : string -> string -> Prop :=
| found_here (dir : string) (entries : list string) (entry : string)
    (st : FileScanner.EntryStats) :
    FileScanner.readdir T dir = Returned entries ->
    In entry entries ->
    FileScanner.stat T (FileScanner.join T dir entry) = Returned st ->
    FileScanner.is_directory st = false ->
    FileScanner.is_file st = true ->
    found_under T dir (FileScanner.join T dir entry)
| found_below (dir : string) (entries : list string) (entry : string)
    (st : FileScanner.EntryStats) (f : string) :
    FileScanner.readdir T dir = Returned entries ->
    In entry entries ->
    FileScanner.stat T (FileScanner.join T dir entry) = Returned st ->
    FileScanner.is_directory st = true ->
    found_under T (FileScanner.join T dir entry) f ->
    found_under T dir f.

(** [visited T top dir]: [dir] is [top] or a directory reached from it. *)
Inductive visited (T : FileScanner.Tree) (top : string) : string -> Prop :=
| visited_top : visited T top top
| visited_entry (dir : string) (entries : list string) (entry : string)
    (st : FileScanner.EntryStats) :
    visited T top dir ->
    FileScanner.readdir T dir = Returned entries ->
    In entry entries ->
    FileScanner.stat T (FileScanner.join T dir entry) = Returned st ->
    FileScanner.is_directory st = true ->
    visited T top (FileScanner.join T dir entry).

(** [rank] bounds the depth of the directories of [T]: a directory that is an
    entry of another has a smaller rank. *)
Definition bounds_depth (T : FileScanner.Tree) (rank : string -> nat) : Prop :=
  forall (dir : string) (entries : list string) (entry : string)
         (st : FileScanner.EntryStats),
    FileScanner.readdir T dir = Returned entries ->
    In entry entries ->
    FileScanner.stat T (FileScanner.join T dir entry) = Returned st ->
    FileScanner.is_directory st = true ->
    rank (FileScanner.join T dir entry) < rank dir.

Section ScannerReading.
Import FileScanner.
Context (T : Tree).

(** What the loop over the entries of a directory finds. *)
Definition found_in (dir : string) (entries : list string) (f : string) : Prop :=
  exists entry st,
    In entry entries
    /\ stat T (join T dir entry) = Returned st
    /\ (is_directory st = false /\ is_file st = true /\ f = join T dir entry
        \/ is_directory st = true /\ found_under T (join T dir entry) f).

(** The properties of the accumulated set that [walk] is shown to keep. *)
Definition collects (found : string -> Prop) (acc acc' : list string) : Prop :=
  (NoDup acc -> NoDup acc')
  /\ (forall f, In f acc' <-> In f acc \/ found f)
  /\ (exists more, acc' = acc ++ more).

(** What [scanPaths] is to find for the arguments [paths]. *)
Definition wanted (paths : list string) (f : string) : Prop :=
  exists p, In p paths
            /\ (isDirectory T p = false /\ f = p
                \/ isDirectory T p = true /\ found_under T p f).

(** Every directory reached from [top] can be listed, and every entry of it
    examined. *)
Definition readable_below (top : string) : Prop :=
  forall dir, visited T top dir ->
    exists entries,
      readdir T dir = Returned entries
      /\ forall entry, In entry entries ->
           exists st, stat T (join T dir entry) = Returned st.

End ScannerReading.

(** A small tree: [/in] holds a picture, a socket and the folder [/in/sub],
    which holds a document; [/locked] is a folder that cannot be listed;
    nothing else exists. *)
Definition sample_tree : FileScanner.Tree :=
  let directory := {| FileScanner.is_directory := true;
                      FileScanner.is_file := false |} in
  let regular := {| FileScanner.is_directory := false;
                    FileScanner.is_file := true |} in
  let special := {| FileScanner.is_directory := false;
                    FileScanner.is_file := false |} in
  {| FileScanner.stat := fun p =>
       if includes ["/in"; "/in/sub"; "/locked"] p then Returned directory
       else if includes ["/in/a.png"; "/in/sub/b.pdf"] p then Returned regular
       else if String.eqb p "/in/sock" then Returned special
       else Threw (JsError "ENOENT: no such file or directory");
     FileScanner.readdir := fun p =>
       if String.eqb p "/in" then Returned ["a.png"; "sub"; "sock"]
       else if String.eqb p "/in/sub" then Returned ["b.pdf"]
       else if String.eqb p "/locked"
       then Threw (JsError "EACCES: permission denied")
       else Threw (JsError "ENOENT: no such file or directory");
     FileScanner.join := fun d f => (d ++ "/" ++ f)%string |}.

Definition sample_rank (p : string) : nat :=
  if String.eqb p "/in" then 2
  else if String.eqb p "/in/sub" then 1
  else 0.

(** The three calls of the image sanitizer. *)
Definition image_calls (inputPath outputPath : string)
    (profile : option string) (target : string) (buffer : Buffer)
  : list ImageProcessor.Call :=
  [ImageProcessor.CallMetadata inputPath;
   ImageProcessor.CallToBuffer inputPath profile target;
   ImageProcessor.CallWriteFile outputPath buffer].

(** What [path.extname] gives: nothing, or a dot and then no other dot. *)
Fixpoint has_dot (s : string) : bool :=
  match s with
  | EmptyString => false
  | String c r => Ascii.eqb c "." || has_dot r
  end.

Definition plain_extension (ext : string) : bool :=
  match ext with
  | EmptyString => true
  | String c r => Ascii.eqb c "." && negb (has_dot r)
  end.








(** The removals "clear-directory" asks for when it gets as far as the
    [k]-th entry of the directory. *)
Definition removals {St : Type} (P : Platform St) (d : string)
    (files : list string) (k : nat) : list MainInfo.Call :=
  map (fun file => MainInfo.CallRm (path_join P d file)) (firstn k files).

(** [removes P R d files s s']: removing the entries [files] of [d] one after
    the other, from the state [s], succeeds for each and leaves [s']. *)
Inductive removes {St : Type} (P : Platform St) (R : MainInfo.Removal St)
    (d : string) : list string -> St -> St -> Prop :=
| removes_none (s : St) : removes P R d [] s s
| removes_next (file : string) (rest : list string) (s s1 s2 : St) :
    MainInfo.fs_rm R (path_join P d file) s = (Returned tt, s1) ->
    removes P R d rest s1 s2 ->
    removes P R d (file :: rest) s s2.

Definition sample_config : App.AppConfig :=
  {| App.outputDir := "/out"; App.copySuffix := ""; App.overwriteSource := false |}.

(** * Properties *)

(** ** The dispatcher *)

Section Dispatcher.
Context {St : Type} (P : Platform St) (S : Sanitizers St).

(** What [processByType] does, read off its text: the sniff runs outside the
    [try]; inside, the first category whose test passes gets the file, and what
    its sanitizer throws becomes a result. *)
Lemma processByType_run (inputPath outputPath : string) (w : World St) :
  processByType P S inputPath outputPath w =
  match fileTypeFromFile P inputPath (ext_state w) with
  | (Threw e, s) =>
      (Threw e, {| ext_state := s; log := log w ++ [EvSniff inputPath] |})
  | (Returned detected, s) =>
      let c := route (tested_ext P inputPath) (tested_mime detected) in
      match c with
      | Category.other =>
          (Returned (unsupported_result inputPath),
           {| ext_state := s; log := log w ++ [EvSniff inputPath] |})
      | _ =>
          match sanitizer_of S c inputPath outputPath s with
          | (Returned res, s') =>
              (Returned (success_result inputPath outputPath res),
               {| ext_state := s';
                  log := (log w ++ [EvSniff inputPath])
                         ++ [EvSanitize c inputPath outputPath] |})
          | (Threw err, s') =>
              (Returned (caught_result inputPath outputPath err),
               {| ext_state := s';
                  log := (log w ++ [EvSniff inputPath])
                         ++ [EvSanitize c inputPath outputPath] |})
          end
      end
  end.
Proof.
  unfold processByType, bind, try_catch, perform at 1.
  destruct (fileTypeFromFile P inputPath (ext_state w)) as [[detected|e] s];
    [|reflexivity].
  unfold route, evaluation_order, matches, tested_ext, tested_mime, find, call.
  cbn [ext_set mime_test].
  set (ext := toLowerCase P (Path.ext (path_parse P inputPath))).
  set (mime := match detected with Some m => m | None => "" end).
  rewrite (orb_false_r (has officeExts ext)).
  destruct (has imageExts ext || String.prefix "image/" mime);
    [|destruct (has pdfExts ext || String.eqb mime "application/pdf");
      [|destruct (has officeExts ext);
        [|destruct (has zipExts ext || String.eqb mime "application/zip");
          [|destruct (has videoExts ext || String.prefix "video/" mime);
            [|reflexivity]]]]];
    cbn [sanitizer_of]; unfold perform, ret; cbn [ext_state log];
    match goal with
    | |- context [?f inputPath outputPath s] =>
        destruct (f inputPath outputPath s) as [[res|err] s']; reflexivity
    end.
Qed.

(** The log of a dispatch whose sniff returned. *)
Lemma processByType_log (inputPath outputPath : string) (w : World St)
    (detected : option string) (s : St) :
  fileTypeFromFile P inputPath (ext_state w) = (Returned detected, s) ->
  log (snd (processByType P S inputPath outputPath w)) =
  log w ++ EvSniff inputPath
        :: dispatch_events (route (tested_ext P inputPath) (tested_mime detected))
             inputPath outputPath.
Proof.
  intros H. rewrite processByType_run, H. cbn zeta.
  destruct (route _ _) eqn:R; cbn [dispatch_events];
    try (destruct (sanitizer_of S _ inputPath outputPath s) as [[res|err] s'];
         cbn [snd log]; rewrite <- app_assoc; reflexivity);
    reflexivity.
Qed.

(** [find] returns the first element that passes. *)
Lemma find_first {A : Type} (f : A -> bool) (before after : list A) (x : A) :
  forallb (fun y => negb (f y)) before = true ->
  f x = true ->
  find f (before ++ x :: after) = Some x.
Proof.
  induction before as [|y before IH]; simpl; intros Hb Hx.
  - now rewrite Hx.
  - apply andb_true_iff in Hb as [Hy Hb].
    apply negb_true_iff in Hy. rewrite Hy. now apply IH.
Qed.

End Dispatcher.

Section DispatcherClaims.
Context {St : Type} (P : Platform St) (S : Sanitizers St).

(** C2, as amended.  A file whose extension is in a category's set, or whose
    sniffed MIME type passes the category's MIME test, is handed to that
    category's sanitizer provided that no category earlier in the order image,
    pdf, office, zip, video passes its own test (and the sniff returned): that
    sanitizer is run on the file and the destination, in the state the sniff
    left, and what [processByType] returns is made of its report, or of the
    error it throws.  The office category has no MIME test, so only its
    extension set counts. *)
Theorem signal_routes_unless_earlier_match
    (inputPath outputPath : string) (w : World St)
    (detected : option string) (s : St)
    (before after : list FileCategory) (c : FileCategory) :
  fileTypeFromFile P inputPath (ext_state w) = (Returned detected, s) ->
  evaluation_order = before ++ c :: after ->
  forallb
    (fun c' => negb (matches (tested_ext P inputPath) (tested_mime detected) c'))
    before = true ->
  has (ext_set c) (tested_ext P inputPath) = true
  \/ mime_test c (tested_mime detected) = true ->
  processByType P S inputPath outputPath w =
  match sanitizer_of S c inputPath outputPath s with
  | (Returned res, s') =>
      (Returned (success_result inputPath outputPath res),
       {| ext_state := s';
          log := log w ++ [EvSniff inputPath;
                           EvSanitize c inputPath outputPath] |})
  | (Threw err, s') =>
      (Returned (caught_result inputPath outputPath err),
       {| ext_state := s';
          log := log w ++ [EvSniff inputPath;
                           EvSanitize c inputPath outputPath] |})
  end.
Proof.
  intros Hsniff Horder Hbefore Hsignal.
  rewrite processByType_run, Hsniff. cbn zeta.
  assert (Hc : matches (tested_ext P inputPath) (tested_mime detected) c = true).
  { unfold matches. apply orb_true_iff. exact Hsignal. }
  unfold route. rewrite Horder, (find_first _ before after c Hbefore Hc).
  assert (Hin : In c evaluation_order) by (rewrite Horder; apply in_elt).
  destruct c;
    try (destruct (sanitizer_of S _ inputPath outputPath s) as [[res|err] s'];
         rewrite <- app_assoc; reflexivity).
  exfalso. simpl in Hin. intuition discriminate.
Qed.

(** C3, as amended.  Once the sniff has returned, [processByType] returns a
    result and never throws: what the chosen sanitizer throws is turned into
    [{ inputPath, outputPath, status: 'error', message }], with the error's
    message or the fallback text. *)
Theorem processByType_catches_sanitizer_errors
    (inputPath outputPath : string) (w : World St)
    (detected : option string) (s : St) :
  fileTypeFromFile P inputPath (ext_state w) = (Returned detected, s) ->
  exists (r : ProcessResult) (w' : World St),
    processByType P S inputPath outputPath w = (Returned r, w') /\
    Types.inputPath r = inputPath /\
    match route (tested_ext P inputPath) (tested_mime detected) with
    | Category.other => r = unsupported_result inputPath
    | c =>
        match sanitizer_of S c inputPath outputPath s with
        | (Returned res, _) => r = success_result inputPath outputPath res
        | (Threw err, _) => r = caught_result inputPath outputPath err
        end
    end.
Proof.
  intros Hsniff. rewrite processByType_run, Hsniff. cbn zeta.
  destruct (route _ _);
    try (destruct (sanitizer_of S _ inputPath outputPath s) as [[res|err] s']);
    eexists; eexists; repeat split; reflexivity.
Qed.

(** C10.  When the sniff has returned, [processByType] runs the sanitizer of
    the first category, in the order image, pdf, office, zip, video, whose
    test passes, whatever later categories would also pass: that sanitizer is
    run on the file and the destination in the state the sniff left, and the
    result is made of its report or of its error; when no test passes no
    sanitizer is run.  The sanitizer of no other category is called, and the
    outcome does not depend on any other sanitizer.  The office sanitizer is
    called only for an extension of the office set, whatever the sniffed MIME
    type, and for such an extension it is called unless the image or PDF test
    passes, by the extension or by the sniffed MIME type. *)
Theorem first_matching_category_is_dispatched
    (inputPath outputPath : string) (w : World St)
    (detected : option string) (s : St) :
  fileTypeFromFile P inputPath (ext_state w) = (Returned detected, s) ->
  let ext := tested_ext P inputPath in
  let mime := tested_mime detected in
  let first :=
    match find (matches ext mime) evaluation_order with
    | Some c => c
    | None => Category.other
    end in
  processByType P S inputPath outputPath w
  = match first with
    | Category.other =>
        (Returned (unsupported_result inputPath),
         {| ext_state := s; log := log w ++ [EvSniff inputPath] |})
    | _ =>
        match sanitizer_of S first inputPath outputPath s with
        | (Returned res, s') =>
            (Returned (success_result inputPath outputPath res),
             {| ext_state := s';
                log := log w ++ [EvSniff inputPath;
                                 EvSanitize first inputPath outputPath] |})
        | (Threw err, s') =>
            (Returned (caught_result inputPath outputPath err),
             {| ext_state := s';
                log := log w ++ [EvSniff inputPath;
                                 EvSanitize first inputPath outputPath] |})
        end
    end
  /\ (forall c : FileCategory,
        c <> first ->
        ~ In (EvSanitize c inputPath outputPath)
            (skipn (length (log w))
               (log (snd (processByType P S inputPath outputPath w)))))
  /\ (forall S' : Sanitizers St,
        sanitizer_of S' first = sanitizer_of S first ->
        processByType P S' inputPath outputPath w =
        processByType P S inputPath outputPath w)
  /\ (In (EvSanitize Category.office inputPath outputPath)
         (skipn (length (log w))
            (log (snd (processByType P S inputPath outputPath w))))
      <-> has officeExts ext = true
          /\ has imageExts ext || String.prefix "image/" mime = false
          /\ has pdfExts ext || String.eqb mime "application/pdf" = false).
Proof.
  intros Hsniff ext mime first.
  assert (Hrun : processByType P S inputPath outputPath w
    = match first with
      | Category.other =>
          (Returned (unsupported_result inputPath),
           {| ext_state := s; log := log w ++ [EvSniff inputPath] |})
      | _ =>
          match sanitizer_of S first inputPath outputPath s with
          | (Returned res, s') =>
              (Returned (success_result inputPath outputPath res),
               {| ext_state := s';
                  log := log w ++ [EvSniff inputPath;
                                   EvSanitize first inputPath outputPath] |})
          | (Threw err, s') =>
              (Returned (caught_result inputPath outputPath err),
               {| ext_state := s';
                  log := log w ++ [EvSniff inputPath;
                                   EvSanitize first inputPath outputPath] |})
          end
      end).
  { rewrite processByType_run, Hsniff. cbn zeta.
    fold ext mime. change (route ext mime) with first.
    destruct first; try reflexivity;
      destruct (sanitizer_of S _ inputPath outputPath s) as [[res|err] s'];
      rewrite <- app_assoc; reflexivity. }
  split; [exact Hrun|]. split; [|split].
  - intros c Hc.
    rewrite (processByType_log P S inputPath outputPath w detected s Hsniff).
    fold ext mime. change (route ext mime) with first.
    rewrite skipn_app, skipn_all, Nat.sub_diag. cbn [skipn app].
    intros [H|H]; [discriminate|].
    destruct first; cbn in H; try contradiction;
      destruct H as [H|[]]; congruence.
  - intros S' HS'. rewrite !processByType_run, Hsniff. cbn zeta.
    fold ext mime. change (route ext mime) with first. now rewrite HS'.
  - rewrite (processByType_log P S inputPath outputPath w detected s Hsniff).
    fold ext mime. change (route ext mime) with first.
    rewrite skipn_app, skipn_all, Nat.sub_diag. cbn [skipn app].
    change (has imageExts ext || String.prefix "image/" mime)
      with (matches ext mime Category.image).
    change (has pdfExts ext || String.eqb mime "application/pdf")
      with (matches ext mime Category.pdf).
    assert (Hin : In (EvSanitize Category.office inputPath outputPath)
                    (EvSniff inputPath
                     :: dispatch_events first inputPath outputPath)
                  <-> first = Category.office).
    { split.
      - intros [H|H]; [discriminate|].
        destruct first; cbn in H; try contradiction;
          destruct H as [H|[]]; congruence.
      - intros ->. right. left. reflexivity. }
    rewrite Hin. clear Hin.
    unfold first, evaluation_order, find.
    assert (Ho : matches ext mime Category.office = has officeExts ext)
      by apply orb_false_r.
    rewrite Ho.
    destruct (matches ext mime Category.image);
      [split; [discriminate | intros (_ & H & _); discriminate]|].
    destruct (matches ext mime Category.pdf);
      [split; [discriminate | intros (_ & _ & H); discriminate]|].
    destruct (has officeExts ext); [tauto|].
    destruct (matches ext mime Category.zip);
      [split; [discriminate | intros (H & _); discriminate]|].
    destruct (matches ext mime Category.video);
      split; try discriminate; intros (H & _); discriminate.
Qed.

End DispatcherClaims.

(** C2, as stated, fails: a file named [photo.zip] whose content is sniffed as
    [image/png] has an extension of the zip set, yet it is the image sanitizer
    that is called. *)
Lemma zip_extension_with_image_content_goes_to_image :
  has zipExts (tested_ext Mock.platform "/in/photo.zip") = true
  /\ log (snd (processByType Mock.platform Mock.sanitizers
                 "/in/photo.zip" "/out/photo-clean.zip"
                 (Mock.start [("/in/photo.zip", [Byte.x89; Byte.x50])])))
     = [EvSniff "/in/photo.zip";
        EvSanitize Category.image "/in/photo.zip" "/out/photo-clean.zip"].
Proof. split; reflexivity. Qed.

Lemma signal_routes_unless_earlier_match_witness :
  let fs := [("/in/a.zip", [Byte.x50; Byte.x4b])] in
  fileTypeFromFile Mock.platform "/in/a.zip" fs
    = (Returned (Some "application/zip"), fs)
  /\ processByType Mock.platform Mock.sanitizers
       "/in/a.zip" "/out/a-clean.zip" (Mock.start fs)
     = (Returned
          (success_result "/in/a.zip" "/out/a-clean.zip"
             {| report_removed := ["ZIP 注释/附加头"]; report_type := "zip" |}),
        {| ext_state :=
             snd (zip_sanitizer Mock.sanitizers "/in/a.zip" "/out/a-clean.zip"
                    fs);
           log := [EvSniff "/in/a.zip";
                   EvSanitize Category.zip "/in/a.zip" "/out/a-clean.zip"] |}).
Proof.
  split; [reflexivity|].
  exact (signal_routes_unless_earlier_match Mock.platform Mock.sanitizers
           "/in/a.zip" "/out/a-clean.zip"
           (Mock.start [("/in/a.zip", [Byte.x50; Byte.x4b])])
           (Some "application/zip") [("/in/a.zip", [Byte.x50; Byte.x4b])]
           [Category.image; Category.pdf; Category.office] [Category.video]
           Category.zip eq_refl eq_refl eq_refl (or_introl eq_refl)).
Defined.

(** C3, as stated, fails: the sniff runs before the [try], so when it throws
    (here the file does not exist) [processByType] throws as well. *)
Lemma processByType_throws_when_sniff_throws :
  processByType Mock.platform Mock.sanitizers
    "/in/missing.jpg" "/out/missing-clean.jpg" (Mock.start [])
  = (Threw (JsError "ENOENT: no such file or directory"),
     {| ext_state := []; log := [EvSniff "/in/missing.jpg"] |}).
Proof. reflexivity. Qed.

Lemma processByType_catches_sanitizer_errors_witness :
  let fs := [("/in/clip.mp4", [Byte.x00; Byte.x01])] in
  fileTypeFromFile Mock.platform "/in/clip.mp4" fs
    = (Returned (Some "video/mp4"), fs)
  /\ exists (r : ProcessResult) (w' : World Mock.FS),
       processByType Mock.platform Mock.sanitizers
         "/in/clip.mp4" "/out/clip-clean.mp4" (Mock.start fs) = (Returned r, w')
       /\ Types.inputPath r = "/in/clip.mp4"
       /\ r = caught_result "/in/clip.mp4" "/out/clip-clean.mp4"
                (JsError "ffmpeg exited with code 1").
Proof.
  split; [reflexivity|].
  exact (processByType_catches_sanitizer_errors Mock.platform Mock.sanitizers
           "/in/clip.mp4" "/out/clip-clean.mp4"
           (Mock.start [("/in/clip.mp4", [Byte.x00; Byte.x01])])
           (Some "video/mp4") [("/in/clip.mp4", [Byte.x00; Byte.x01])] eq_refl).
Defined.

Lemma first_matching_category_is_dispatched_witness :
  let fs := [("/in/photo.zip", [Byte.x89; Byte.x50])] in
  fileTypeFromFile Mock.platform "/in/photo.zip" fs
    = (Returned (Some "image/png"), fs)
  /\ matches ".zip" "image/png" Category.zip = true
  /\ processByType Mock.platform Mock.sanitizers
       "/in/photo.zip" "/out/photo-clean.zip" (Mock.start fs)
     = (Returned
          (success_result "/in/photo.zip" "/out/photo-clean.zip"
             {| report_removed := ["metadata"]; report_type := "image" |}),
        {| ext_state :=
             snd (image_sanitizer Mock.sanitizers "/in/photo.zip"
                    "/out/photo-clean.zip" fs);
           log := [EvSniff "/in/photo.zip";
                   EvSanitize Category.image "/in/photo.zip"
                     "/out/photo-clean.zip"] |}).
Proof.
  split; [reflexivity|]. split; [reflexivity|].
  exact (proj1 (first_matching_category_is_dispatched
                  Mock.platform Mock.sanitizers
                  "/in/photo.zip" "/out/photo-clean.zip"
                  (Mock.start [("/in/photo.zip", [Byte.x89; Byte.x50])])
                  (Some "image/png") [("/in/photo.zip", [Byte.x89; Byte.x50])]
                  eq_refl)).
Defined.

(** ** Calls made and values returned *)

Section Triples.
Context {St : Type}.

Lemma yields_ret {A : Type} (Q : Event -> Prop) (R : A -> Prop) (a : A) :
  R a -> yields Q R (ret a : M (World St) A).
Proof.
  intros H w. exists []. cbn. rewrite app_nil_r. auto.
Qed.

Lemma yields_throw {A : Type} (Q : Event -> Prop) (R : A -> Prop) (e : Thrown) :
  yields Q R (throw e : M (World St) A).
Proof.
  intros w. exists []. cbn. rewrite app_nil_r. auto.
Qed.

Lemma yields_bind {A B : Type} (Q : Event -> Prop) (R : A -> Prop)
    (R' : B -> Prop) (m : M (World St) A) (k : A -> M (World St) B) :
  yields Q R m -> (forall a, R a -> yields Q R' (k a)) -> yields Q R' (bind m k).
Proof.
  intros Hm Hk w. unfold bind.
  destruct (Hm w) as (evs & Hlog & HQ & HR).
  destruct (m w) as [[a|e] w1]; cbn [fst snd] in *.
  - destruct (Hk a HR w1) as (evs' & Hlog' & HQ' & HR').
    exists (evs ++ evs'). rewrite Hlog', Hlog, app_assoc.
    repeat split; [apply Forall_app; auto | exact HR'].
  - exists evs. auto.
Qed.

Lemma yields_try_catch {A : Type} (Q : Event -> Prop) (R : A -> Prop)
    (body : M (World St) A) (handler : Thrown -> M (World St) A) :
  yields Q R body -> (forall e, yields Q R (handler e)) ->
  yields Q R (try_catch body handler).
Proof.
  intros Hb Hh w. unfold try_catch.
  destruct (Hb w) as (evs & Hlog & HQ & HR).
  destruct (body w) as [[a|e] w1]; cbn [fst snd] in *.
  - exists evs. auto.
  - destruct (Hh e w1) as (evs' & Hlog' & HQ' & HR').
    exists (evs ++ evs'). rewrite Hlog', Hlog, app_assoc.
    repeat split; [apply Forall_app; auto | exact HR'].
Qed.

Lemma yields_perform {A : Type} (Q : Event -> Prop) (R : A -> Prop)
    (ev : Event) (op : St -> Outcome A * St) :
  Q ev ->
  (forall s, match fst (op s) with Returned a => R a | Threw _ => True end) ->
  yields Q R (perform ev op).
Proof.
  intros HQ HR w. exists [ev]. unfold perform.
  specialize (HR (ext_state w)).
  destruct (op (ext_state w)) as [r s]. cbn in *. auto.
Qed.

Lemma yields_weaken {A : Type} (Q : Event -> Prop) (R R' : A -> Prop)
    (m : M (World St) A) :
  yields Q R m -> (forall a, R a -> R' a) -> yields Q R' m.
Proof.
  intros Hm HR w. destruct (Hm w) as (evs & Hlog & HQ & Ha).
  exists evs. repeat split; auto.
  destruct (fst (m w)); auto.
Qed.

End Triples.

(** ** The log is only written *)

Section LogBlind.
Context {St : Type}.

Lemma blind_ret {A : Type} (a : A) : log_blind (ret a : M (World St) A).
Proof. intros w1 w2 H. cbn. auto. Qed.

Lemma blind_throw {A : Type} (e : Thrown) :
  log_blind (throw e : M (World St) A).
Proof. intros w1 w2 H. cbn. auto. Qed.

Lemma blind_bind {A B : Type} (m : M (World St) A) (k : A -> M (World St) B) :
  log_blind m -> (forall a, log_blind (k a)) -> log_blind (bind m k).
Proof.
  intros Hm Hk w1 w2 H. unfold bind.
  destruct (Hm w1 w2 H) as [Hr Hs].
  destruct (m w1) as [[a|e] w1'], (m w2) as [[a'|e'] w2'];
    cbn [fst snd] in *; try discriminate.
  - injection Hr as <-. now apply Hk.
  - injection Hr as <-. now split.
Qed.

Lemma blind_try_catch {A : Type} (body : M (World St) A)
    (handler : Thrown -> M (World St) A) :
  log_blind body -> (forall e, log_blind (handler e)) ->
  log_blind (try_catch body handler).
Proof.
  intros Hb Hh w1 w2 H. unfold try_catch.
  destruct (Hb w1 w2 H) as [Hr Hs].
  destruct (body w1) as [[a|e] w1'], (body w2) as [[a'|e'] w2'];
    cbn [fst snd] in *; try discriminate.
  - now split.
  - injection Hr as <-. now apply Hh.
Qed.

Lemma blind_perform {A : Type} (ev : Event) (op : St -> Outcome A * St) :
  log_blind (perform ev op).
Proof.
  intros w1 w2 H. unfold perform. rewrite H.
  destruct (op (ext_state w2)) as [r s]. cbn. auto.
Qed.

End LogBlind.

Create HintDb blind.
#[local] Hint Resolve blind_ret blind_throw blind_perform : blind.

(** ** File names and their extensions *)

Lemma string_append_assoc (a b c : string) :
  ((a ++ b) ++ c = a ++ b ++ c)%string.
Proof.
  induction a as [|x a IH]; simpl; [reflexivity | now rewrite IH].
Qed.







(** ** The batch handler *)

Section Handler.
Context {St : Type} (P : Platform St) (S : Sanitizers St).

Import Main.

Lemma try_block_attempt (options : ProcessOptions) (p : string)
    (w : World St) (rs : list ProcessResult) :
  try_block P S options p (w, rs) =
  match attempt P S options p w with
  | (Returned r, w') => (Returned tt, (w', rs ++ [r]))
  | (Threw err, w') => (Threw err, (w', rs))
  end.
Proof.
  unfold try_block, attempt, bind, lift, push, ret.
  destruct (OutputStrategy.resolvePaths P p options w) as [[rp|err] w1];
    [|reflexivity].
  destruct (perform (EvStat p) (fs_stat P p) w1) as [[stat|err] w2];
    [|reflexivity].
  destruct (truthy_string (OutputStrategy.backupPath rp)) as [b|].
  - destruct (perform (EvCopyFile p b) (fs_copyFile P p b) w2) as [[[]|err] w3];
      [|reflexivity].
    destruct (processByType P S p (OutputStrategy.outputPath rp) w3)
      as [[result|err] w4]; [|reflexivity].
    destruct (Status_eqb (status result) success); [|reflexivity].
    destruct (perform _ _ w4) as [[[]|err] w5]; [|reflexivity].
    destruct (truthy_bool (overwriteSource options)); [|reflexivity].
    destruct (perform _ _ w5) as [[[]|err] w6]; reflexivity.
  - destruct (processByType P S p (OutputStrategy.outputPath rp) w2)
      as [[result|err] w4]; [|reflexivity].
    destruct (Status_eqb (status result) success); [|reflexivity].
    destruct (perform _ _ w4) as [[[]|err] w5]; [|reflexivity].
    destruct (truthy_bool (overwriteSource options)); [|reflexivity].
    destruct (perform _ _ w5) as [[[]|err] w6]; reflexivity.
Qed.

Lemma catch_block_cleanup (options : ProcessOptions) (p : string)
    (err : Thrown) (w : World St) (rs : list ProcessResult) :
  catch_block P options p err (w, rs) =
  (Returned tt, (snd (cleanup P options p w), rs ++ [failed_result p err])).
Proof.
  unfold catch_block, cleanup, bind, try_catch, lift, push, ret.
  destruct (OutputStrategy.resolvePaths P p options w) as [[rp|e] w1];
    [|reflexivity].
  destruct (truthy_bool (overwriteSource options)); [|reflexivity].
  destruct (perform _ _ w1) as [[[|]|e] w2]; try reflexivity.
  destruct (perform _ _ w2) as [[[]|e] w3]; reflexivity.
Qed.

(** An iteration never throws and pushes exactly one result; what it pushes and
    what it leaves of the world do not depend on the results pushed so far. *)
Lemma loop_body_outcome (options : ProcessOptions) (item : option ProcessItem)
    (w : World St) (rs : list ProcessResult) :
  loop_body P S options item (w, rs) =
  (Returned tt,
   (snd (item_outcome P S options item w),
    rs ++ [fst (item_outcome P S options item w)])).
Proof.
  unfold loop_body, item_outcome.
  destruct (truthy_string (item_path item)) as [p|]; [|reflexivity].
  unfold try_catch. rewrite try_block_attempt.
  destruct (attempt P S options p w) as [[r|err] w']; [reflexivity|].
  apply catch_block_cleanup.
Qed.

Lemma for_of_outcome (options : ProcessOptions) (its : list (option ProcessItem))
    (w : World St) (rs : list ProcessResult) :
  for_of P S options its (w, rs) =
  (Returned tt,
   (snd (batch_outcome P S options its w),
    rs ++ fst (batch_outcome P S options its w))).
Proof.
  revert w rs; induction its as [|item rest IH]; intros w rs; simpl.
  - now rewrite app_nil_r.
  - unfold bind. rewrite loop_body_outcome, IH.
    destruct (item_outcome P S options item w) as [r w1]. cbn [fst snd].
    destruct (batch_outcome P S options rest w1) as [rs' w2]. cbn [fst snd].
    now rewrite <- app_assoc.
Qed.

Lemma process_files_outcome (payload : Payload) (w : World St) :
  process_files P S payload w =
  (Returned (fst (batch_outcome P S (options payload) (items payload) w)),
   snd (batch_outcome P S (options payload) (items payload) w)).
Proof.
  unfold process_files. now rewrite for_of_outcome.
Qed.

Lemma batch_outcome_app (options : ProcessOptions)
    (xs ys : list (option ProcessItem)) (w : World St) :
  batch_outcome P S options (xs ++ ys) w =
  (fst (batch_outcome P S options xs w)
     ++ fst (batch_outcome P S options ys (snd (batch_outcome P S options xs w))),
   snd (batch_outcome P S options ys (snd (batch_outcome P S options xs w)))).
Proof.
  revert w; induction xs as [|x xs IH]; intros w; simpl.
  - now destruct (batch_outcome P S options ys w).
  - destruct (item_outcome P S options x w) as [r w1]. rewrite IH.
    destruct (batch_outcome P S options xs w1) as [rs1 w2]. reflexivity.
Qed.

Lemma resolvePaths_yields (Q : Event -> Prop) (p : string)
    (options : ProcessOptions) :
  (forall d, Q (EvMkdir d)) ->
  yields Q (fun rp => OutputStrategy.backupPath rp = None)
    (OutputStrategy.resolvePaths P p options).
Proof.
  intros HQ. unfold OutputStrategy.resolvePaths, OutputStrategy.ensureDir.
  destruct (truthy_bool (overwriteSource options)).
  - now apply yields_ret.
  - destruct (truthy_string (outputDir options)) as [d|].
    + apply yields_bind with (R := fun _ => True).
      * apply yields_perform; [apply HQ | intros s; now destruct (fst _)].
      * intros _ _. now apply yields_ret.
    + apply yields_throw.
Qed.

Lemma processByType_yields (Q : Event -> Prop) (p outputPath : string) :
  Q (EvSniff p) ->
  (forall c, Q (EvSanitize c p outputPath)) ->
  yields Q (fun r => inputPath r = p) (processByType P S p outputPath).
Proof.
  intros Hsniff Hsan w. rewrite processByType_run.
  destruct (fileTypeFromFile P p (ext_state w)) as [[detected|e] s].
  - cbn zeta. destruct (route _ _) eqn:R;
      try (destruct (sanitizer_of S _ p outputPath s) as [[res|err] s'];
           exists [EvSniff p; EvSanitize (route (tested_ext P p) (tested_mime detected))
                                 p outputPath];
           rewrite R; cbn [fst snd log]; rewrite <- app_assoc;
           repeat split; auto).
    exists [EvSniff p]. cbn. auto.
  - exists [EvSniff p]. cbn. auto.
Qed.

(** The [try] block makes no call but those listed, and the result it is about
    to push carries the item's path. *)
Lemma attempt_yields (Q : Event -> Prop) (options : ProcessOptions) (p : string) :
  (forall e, is_copy e = false -> Q e) ->
  yields Q (fun r => inputPath r = p) (attempt P S options p).
Proof.
  intros HQ. unfold attempt.
  eapply yields_bind; [apply resolvePaths_yields; intros; now apply HQ|].
  intros rp Hrp. rewrite Hrp. cbn [truthy_string].
  apply yields_bind with (R := fun _ => True).
  { apply yields_perform; [now apply HQ | intros s; now destruct (fst _)]. }
  intros stat _.
  apply yields_bind with (R := fun _ => True); [now apply yields_ret|].
  intros _ _.
  eapply yields_bind;
    [apply processByType_yields; intros; now apply HQ|].
  intros result Hresult.
  destruct (Status_eqb (status result) success); [|now apply yields_ret].
  apply yields_bind with (R := fun _ => True).
  { apply yields_perform; [now apply HQ | intros s; now destruct (fst _)]. }
  intros _ _.
  destruct (truthy_bool (overwriteSource options)); [|now apply yields_ret].
  apply yields_bind with (R := fun _ => True).
  { apply yields_perform; [now apply HQ | intros s; now destruct (fst _)]. }
  intros _ _. now apply yields_ret.
Qed.

Lemma cleanup_yields (Q : Event -> Prop) (options : ProcessOptions) (p : string) :
  (forall e, is_copy e = false -> Q e) ->
  yields Q (fun _ => True) (cleanup P options p).
Proof.
  intros HQ. unfold cleanup.
  apply yields_try_catch; [|intros; now apply yields_ret].
  eapply yields_bind; [apply resolvePaths_yields; intros; now apply HQ|].
  intros rp _.
  destruct (truthy_bool (overwriteSource options)); [|now apply yields_ret].
  apply yields_bind with (R := fun _ => True).
  { apply yields_perform; [now apply HQ | intros s; exact I]. }
  intros [|] _; [|now apply yields_ret].
  apply yields_perform; [now apply HQ | intros s; now destruct (fst _)].
Qed.

Lemma item_outcome_log (Q : Event -> Prop) (options : ProcessOptions)
    (item : option ProcessItem) (w : World St) :
  (forall e, is_copy e = false -> Q e) ->
  exists evs,
    log (snd (item_outcome P S options item w)) = log w ++ evs /\ Forall Q evs.
Proof.
  intros HQ. unfold item_outcome.
  destruct (truthy_string (item_path item)) as [p|].
  - destruct (attempt_yields Q options p HQ w) as (evs & Hlog & Hevs & _).
    destruct (attempt P S options p w) as [[r|err] w']; cbn [fst snd] in *.
    + exists evs. auto.
    + destruct (cleanup_yields Q options p HQ w') as (evs' & Hlog' & Hevs' & _).
      exists (evs ++ evs'). rewrite Hlog', Hlog, app_assoc.
      split; [reflexivity | apply Forall_app; auto].
  - exists []. cbn. rewrite app_nil_r. auto.
Qed.

Lemma batch_outcome_log (Q : Event -> Prop) (options : ProcessOptions)
    (its : list (option ProcessItem)) (w : World St) :
  (forall e, is_copy e = false -> Q e) ->
  exists evs,
    log (snd (batch_outcome P S options its w)) = log w ++ evs /\ Forall Q evs.
Proof.
  intros HQ. revert w; induction its as [|item rest IH]; intros w; simpl.
  - exists []. rewrite app_nil_r. auto.
  - destruct (item_outcome_log Q options item w HQ) as (evs & Hlog & Hevs).
    destruct (item_outcome P S options item w) as [r w1]. cbn [snd] in *.
    destruct (IH w1) as (evs' & Hlog' & Hevs').
    destruct (batch_outcome P S options rest w1) as [rs w2]. cbn [snd] in *.
    exists (evs ++ evs'). rewrite Hlog', Hlog, app_assoc.
    split; [reflexivity | apply Forall_app; auto].
Qed.

Lemma attempt_inputPath (options : ProcessOptions) (p : string) (w : World St) :
  match fst (attempt P S options p w) with
  | Returned r => inputPath r = p
  | Threw _ => True
  end.
Proof.
  destruct (attempt_yields (fun _ => True) options p (fun _ _ => I) w)
    as (_ & _ & _ & H).
  exact H.
Qed.

Lemma item_outcome_key (options : ProcessOptions) (item : option ProcessItem)
    (w : World St) :
  inputPath (fst (item_outcome P S options item w)) = item_key item.
Proof.
  unfold item_outcome, item_key.
  destruct (truthy_string (item_path item)) as [p|]; [|reflexivity].
  pose proof (attempt_inputPath options p w) as H.
  destruct (attempt P S options p w) as [[r|err] w']; [exact H | reflexivity].
Qed.

Lemma batch_outcome_keys (options : ProcessOptions)
    (its : list (option ProcessItem)) (w : World St) :
  map inputPath (fst (batch_outcome P S options its w)) = map item_key its.
Proof.
  revert w; induction its as [|item rest IH]; intros w; simpl; [reflexivity|].
  pose proof (item_outcome_key options item w) as H.
  destruct (item_outcome P S options item w) as [r w1].
  specialize (IH w1). destruct (batch_outcome P S options rest w1) as [rs w2].
  simpl in *. now rewrite H, IH.
Qed.

Lemma resolvePaths_blind (p : string) (options : ProcessOptions) :
  log_blind (OutputStrategy.resolvePaths P p options).
Proof.
  unfold OutputStrategy.resolvePaths, OutputStrategy.ensureDir.
  destruct (truthy_bool (overwriteSource options)); auto with blind.
  destruct (truthy_string (outputDir options)); auto with blind.
  apply blind_bind; auto with blind.
Qed.

Lemma processByType_blind (p outputPath : string) :
  log_blind (processByType P S p outputPath).
Proof.
  intros w1 w2 H. rewrite !processByType_run, H.
  destruct (fileTypeFromFile P p (ext_state w2)) as [[detected|e] s];
    [|cbn; auto].
  cbn zeta. destruct (route _ _);
    try (destruct (sanitizer_of S _ p outputPath s) as [[res|err] s']);
    cbn; auto.
Qed.

Lemma attempt_blind (options : ProcessOptions) (p : string) :
  log_blind (attempt P S options p).
Proof.
  unfold attempt.
  apply blind_bind; [apply resolvePaths_blind|]. intros rp.
  apply blind_bind; auto with blind. intros stat.
  apply blind_bind;
    [destruct (truthy_string (OutputStrategy.backupPath rp)); auto with blind|].
  intros _.
  apply blind_bind; [apply processByType_blind|]. intros result.
  destruct (Status_eqb (status result) success); auto with blind.
  apply blind_bind; auto with blind. intros _.
  destruct (truthy_bool (overwriteSource options)); auto with blind.
  apply blind_bind; auto with blind.
Qed.

Lemma cleanup_blind (options : ProcessOptions) (p : string) :
  log_blind (cleanup P options p).
Proof.
  unfold cleanup.
  apply blind_try_catch; auto with blind.
  apply blind_bind; [apply resolvePaths_blind|]. intros rp.
  destruct (truthy_bool (overwriteSource options)); auto with blind.
  apply blind_bind; auto with blind.
  intros [|]; auto with blind.
Qed.

Lemma item_outcome_blind (options : ProcessOptions) (item : option ProcessItem)
    (w1 w2 : World St) :
  ext_state w1 = ext_state w2 ->
  fst (item_outcome P S options item w1) = fst (item_outcome P S options item w2)
  /\ ext_state (snd (item_outcome P S options item w1))
     = ext_state (snd (item_outcome P S options item w2)).
Proof.
  intros H. unfold item_outcome.
  destruct (truthy_string (item_path item)) as [p|]; [|cbn; auto].
  destruct (attempt_blind options p w1 w2 H) as [Hr Hs].
  destruct (attempt P S options p w1) as [[r|e] w1'],
           (attempt P S options p w2) as [[r'|e'] w2'];
    cbn [fst snd] in *; try discriminate.
  - injection Hr as <-. auto.
  - injection Hr as <-. split; [reflexivity|].
    now apply cleanup_blind.
Qed.

Lemma batch_outcome_blind (options : ProcessOptions)
    (its : list (option ProcessItem)) (w1 w2 : World St) :
  ext_state w1 = ext_state w2 ->
  fst (batch_outcome P S options its w1) = fst (batch_outcome P S options its w2).
Proof.
  revert w1 w2; induction its as [|item rest IH]; intros w1 w2 H; simpl;
    [reflexivity|].
  destruct (item_outcome_blind options item w1 w2 H) as [Hr Hs].
  destruct (item_outcome P S options item w1) as [r1 w1'],
           (item_outcome P S options item w2) as [r2 w2']; cbn [fst snd] in *.
  specialize (IH w1' w2' Hs).
  destruct (batch_outcome P S options rest w1') as [rs1 w1''],
           (batch_outcome P S options rest w2') as [rs2 w2'']; cbn [fst snd] in *.
  now rewrite Hr, IH.
Qed.

Lemma batch_outcome_length (options : ProcessOptions)
    (its : list (option ProcessItem)) (w : World St) :
  length (fst (batch_outcome P S options its w)) = length its.
Proof.
  rewrite <- (length_map inputPath), batch_outcome_keys. apply length_map.
Qed.

(** C1, as amended.  The handler never throws and returns one result per item,
    in the order of the items (each result carries its item's path, the empty
    string for an item without one).  Around any item [x] of a batch: the
    results of the items before it are those of these items on their own; the
    result of [x] is the one the handler gives [x] on its own from the world
    they left; the results of the items after it are those the handler gives
    them from the world [x] left.  A failed item gets a result of status
    [error] and stops nothing: when the [try] block of [x] throws, the result
    of [x] has the status [error] and the error's message; when the
    dispatcher returns an [error] result, that is the result of [x], and
    nothing more is done for [x].  An item that leaves the outside world as it
    found it changes no other item's result by being in the batch. *)
Theorem batch_results_follow_items (options : ProcessOptions)
    (xs : list (option ProcessItem)) (x : option ProcessItem)
    (ys : list (option ProcessItem)) (w : World St) :
  exists (rs1 : list ProcessResult) (w1 : World St)
         (r : ProcessResult) (wx : World St)
         (rs2 : list ProcessResult) (w2 : World St),
    process_files P S {| items := xs; options := options |} w = (Returned rs1, w1)
    /\ process_files P S {| items := [x]; options := options |} w1
       = (Returned [r], wx)
    /\ process_files P S {| items := ys; options := options |} wx
       = (Returned rs2, w2)
    /\ process_files P S {| items := xs ++ x :: ys; options := options |} w
       = (Returned (rs1 ++ r :: rs2), w2)
    /\ length rs1 = length xs
    /\ length rs2 = length ys
    /\ map inputPath (rs1 ++ r :: rs2) = map item_key (xs ++ x :: ys)
    /\ match truthy_string (item_path x) with
       | None => r = invalid_result /\ wx = w1
       | Some p =>
           match try_block P S options p (w1, []) with
           | (Threw err, _) =>
               inputPath r = p
               /\ status r = error
               /\ message r = Some (error_message err)
           | (Returned _, (w', pushed)) => pushed = [r] /\ wx = w'
           end
       end
    /\ (forall (p : string) (rp : OutputStrategy.ResolvedPath) (w0 : World St)
               (stat : Stats) (s1 : St) (result : ProcessResult)
               (w' : World St),
          truthy_string (item_path x) = Some p ->
          OutputStrategy.resolvePaths P p options w1 = (Returned rp, w0) ->
          fs_stat P p (ext_state w0) = (Returned stat, s1) ->
          processByType P S p (OutputStrategy.outputPath rp)
            {| ext_state := s1; log := log w0 ++ [EvStat p] |}
          = (Returned result, w') ->
          status result = error ->
          r = result /\ wx = w')
    /\ (ext_state wx = ext_state w1 ->
        exists w3 : World St,
          process_files P S {| items := xs ++ ys; options := options |} w
          = (Returned (rs1 ++ rs2), w3)).
Proof.
  set (w1 := snd (batch_outcome P S options xs w)).
  exists (fst (batch_outcome P S options xs w)), w1,
    (fst (item_outcome P S options x w1)), (snd (item_outcome P S options x w1)),
    (fst (batch_outcome P S options ys (snd (item_outcome P S options x w1)))),
    (snd (batch_outcome P S options ys (snd (item_outcome P S options x w1)))).
  rewrite !process_files_outcome. cbn [items Main.options].
  rewrite batch_outcome_app. fold w1. cbn [fst snd batch_outcome].
  destruct (item_outcome P S options x w1) as [r wx] eqn:Ex. cbn [fst snd].
  split; [reflexivity|]. split; [reflexivity|]. split; [reflexivity|].
  split.
  { destruct (batch_outcome P S options ys wx) as [rs2 w2]. reflexivity. }
  split; [apply batch_outcome_length|]. split; [apply batch_outcome_length|].
  split.
  { rewrite !map_app. cbn [map]. rewrite !batch_outcome_keys.
    pose proof (item_outcome_key options x w1) as Hk. rewrite Ex in Hk.
    cbn [fst] in Hk. now rewrite Hk. }
  split.
  { unfold item_outcome in Ex.
    destruct (truthy_string (item_path x)) as [p|].
    - rewrite (try_block_attempt options p w1 []).
      destruct (attempt P S options p w1) as [[r0|err] w'].
      + injection Ex as <- <-. auto.
      + injection Ex as <- _. auto.
    - injection Ex as <- <-. auto. }
  split.
  { intros p rp w0 stat s1 result w' Hp Hrp Hstat Hrun Herr.
    unfold item_outcome in Ex. rewrite Hp in Ex.
    assert (Hb : OutputStrategy.backupPath rp = None).
    { revert Hrp.
      unfold OutputStrategy.resolvePaths, OutputStrategy.ensureDir, bind, ret.
      destruct (truthy_bool (overwriteSource options));
        [now intros [= <- _]|].
      destruct (truthy_string (outputDir options)) as [dir|]; [|discriminate].
      destruct (perform (EvMkdir dir) (fs_mkdir_recursive P dir) w1)
        as [[[]|e] w2]; [now intros [= <- _] | discriminate]. }
    unfold attempt, bind in Ex. rewrite Hrp, Hb in Ex.
    unfold perform at 1 in Ex. rewrite Hstat in Ex.
    cbn [truthy_string] in Ex. unfold ret at 1 in Ex.
    rewrite Hrun, Herr in Ex. cbn [Status_eqb] in Ex. unfold ret in Ex.
    injection Ex as <- <-. auto. }
  intros Hsame.
  rewrite batch_outcome_app. fold w1. cbn [fst snd].
  pose proof (batch_outcome_blind options ys wx w1 Hsame) as Hb.
  exists (snd (batch_outcome P S options ys w1)). now rewrite Hb.
Qed.

Lemma resolvePaths_overwrite (inputPath : string) (options : ProcessOptions)
    (w : World St) :
  truthy_bool (overwriteSource options) = true ->
  OutputStrategy.resolvePaths P inputPath options w =
  (Returned {| OutputStrategy.outputPath := temporary_sibling P inputPath options;
               OutputStrategy.backupPath := None |}, w).
Proof.
  intros H. unfold OutputStrategy.resolvePaths. now rewrite H.
Qed.



(** In overwrite mode the [catch] block looks for the temporary file and
    removes it when it is there; what [unlink] throws is ignored. *)
Lemma cleanup_overwrite (options : ProcessOptions) (p : string) (w : World St) :
  truthy_bool (overwriteSource options) = true ->
  cleanup P options p w =
  (Returned tt,
   if fs_existsSync P (temporary_sibling P p options) (ext_state w)
   then {| ext_state :=
             snd (fs_unlink P (temporary_sibling P p options) (ext_state w));
           log := (log w ++ [EvExists (temporary_sibling P p options)])
                  ++ [EvUnlink (temporary_sibling P p options)] |}
   else {| ext_state := ext_state w;
           log := log w ++ [EvExists (temporary_sibling P p options)] |}).
Proof.
  intros Hov. unfold cleanup, try_catch, bind.
  rewrite (resolvePaths_overwrite p options w Hov), Hov.
  cbn [OutputStrategy.outputPath]. unfold perform at 1. cbn [ext_state log].
  destruct (fs_existsSync P (temporary_sibling P p options) (ext_state w));
    [|reflexivity].
  unfold perform. cbn [ext_state log].
  destruct (fs_unlink P _ (ext_state w)) as [[[]|e] s]; reflexivity.
Qed.

(** In overwrite mode, an item whose sanitizer ran and succeeded: the
    temporary file gets the source's timestamps and is renamed onto the
    source, and the result names the source as its output. *)
Lemma overwrite_success (options : ProcessOptions) (p : string) (w : World St)
    (stat : Stats) (s1 : St) (result : ProcessResult) (w2 : World St)
    (s3 s4 : St) :
  truthy_string (Some p) = Some p ->
  truthy_bool (overwriteSource options) = true ->
  fs_stat P p (ext_state w) = (Returned stat, s1) ->
  processByType P S p (temporary_sibling P p options)
    {| ext_state := s1; log := log w ++ [EvStat p] |} = (Returned result, w2) ->
  status result = success ->
  fs_utimes P (temporary_sibling P p options) (atime stat) (mtime stat)
    (ext_state w2) = (Returned tt, s3) ->
  fs_rename P (temporary_sibling P p options) p s3 = (Returned tt, s4) ->
  item_outcome P S options (Some {| path := p |}) w =
  ({| inputPath := inputPath result;
      outputPath := Some p;
      status := success;
      removed := removed result;
      type := type result;
      message := message result |},
   {| ext_state := s4;
      log := (log w2
              ++ [EvUtimes (temporary_sibling P p options) (atime stat) (mtime stat)])
             ++ [EvRename (temporary_sibling P p options) p] |}).
Proof.
  intros Hp Hov Hstat Hrun Hok Hut Hrn.
  unfold item_outcome. cbn [item_path path]. rewrite Hp.
  unfold attempt, bind. rewrite (resolvePaths_overwrite p options w Hov).
  cbn [OutputStrategy.outputPath OutputStrategy.backupPath truthy_string].
  unfold perform at 1. rewrite Hstat. unfold ret at 1. rewrite Hrun, Hok.
  cbn [Status_eqb]. unfold perform at 1. rewrite Hut, Hov.
  unfold perform. cbn [ext_state log]. rewrite Hrn. reflexivity.
Qed.

(** In overwrite mode, an item whose sanitizer threw: [processByType] has
    turned the error into a result, so the handler's [catch] block does not
    run, and nothing looks for the temporary file or removes it. *)
Lemma overwrite_sanitizer_failure (options : ProcessOptions) (p : string)
    (w : World St) (stat : Stats) (s1 : St)
    (detected : option string) (s2 : St) (err : Thrown) (s3 : St) :
  let tmp := temporary_sibling P p options in
  let c := route (tested_ext P p) (tested_mime detected) in
  truthy_string (Some p) = Some p ->
  truthy_bool (overwriteSource options) = true ->
  fs_stat P p (ext_state w) = (Returned stat, s1) ->
  fileTypeFromFile P p s1 = (Returned detected, s2) ->
  c <> Category.other ->
  sanitizer_of S c p tmp s2 = (Threw err, s3) ->
  item_outcome P S options (Some {| path := p |}) w =
  (caught_result p tmp err,
   {| ext_state := s3;
      log := log w ++ [EvStat p; EvSniff p; EvSanitize c p tmp] |}).
Proof.
  intros tmp c Hp Hov Hstat Hsniff Hc Hsan.
  unfold item_outcome. cbn [item_path path]. rewrite Hp.
  unfold attempt, bind. rewrite (resolvePaths_overwrite p options w Hov).
  cbn [OutputStrategy.outputPath OutputStrategy.backupPath truthy_string].
  unfold perform at 1. rewrite Hstat. unfold ret at 1.
  rewrite processByType_run. cbn [ext_state log]. rewrite Hsniff. cbn zeta.
  fold c tmp. rewrite Hsan.
  destruct c; try (cbn; rewrite <- !app_assoc; reflexivity).
  now contradiction Hc.
Qed.

(** C9.  [resolvePaths] never returns a [backupPath], and the handler never
    calls [copyFile]: no backup is made in any mode. *)
Theorem no_backup_is_ever_made :
  (forall (inputPath : string) (options : ProcessOptions) (w : World St),
     match fst (OutputStrategy.resolvePaths P inputPath options w) with
     | Returned rp => OutputStrategy.backupPath rp = None
     | Threw _ => True
     end)
  /\ (forall (payload : Payload) (w : World St),
        exists evs : list Event,
          log (snd (process_files P S payload w)) = log w ++ evs
          /\ Forall (fun e => forall src dest, e <> EvCopyFile src dest) evs).
Proof.
  split.
  - intros inputPath options w.
    destruct (resolvePaths_yields (fun _ => True) inputPath options
                (fun _ => I) w) as (_ & _ & _ & H).
    exact H.
  - intros payload w. rewrite process_files_outcome. cbn [snd].
    apply batch_outcome_log.
    intros e He src dest ->. discriminate.
Qed.

End Handler.

(** *** The handler on the small platform *)

(** A batch of an archive, a file that does not exist, and a video whose remux
    fails.  The missing file gets an error result and stops nothing; it leaves
    the outside world as it was, and the results of the first and the last are
    those of the batch without it. *)
Lemma batch_results_follow_items_witness :
  fst (Main.process_files Mock.platform Mock.sanitizers
         {| Main.items := [item "/in/a.zip"; item "/in/missing.pdf";
                           item "/in/clip.mp4"];
            Main.options := to_directory |}
         (Mock.start sample_files))
  = Returned
      [success_result "/in/a.zip" "/out/a-clean.zip"
         {| report_removed := ["ZIP 注释/附加头"]; report_type := "zip" |};
       failed_result "/in/missing.pdf"
         (JsError "ENOENT: no such file or directory");
       caught_result "/in/clip.mp4" "/out/clip-clean.mp4"
         (JsError "ffmpeg exited with code 1")]
  /\ exists w3 : World Mock.FS,
       Main.process_files Mock.platform Mock.sanitizers
         {| Main.items := [item "/in/a.zip"] ++ [item "/in/clip.mp4"];
            Main.options := to_directory |}
         (Mock.start sample_files)
       = (Returned
            ([success_result "/in/a.zip" "/out/a-clean.zip"
                {| report_removed := ["ZIP 注释/附加头"]; report_type := "zip" |}]
             ++ [caught_result "/in/clip.mp4" "/out/clip-clean.mp4"
                   (JsError "ffmpeg exited with code 1")]),
          w3).
Proof.
  destruct (batch_results_follow_items Mock.platform Mock.sanitizers
              to_directory [item "/in/a.zip"] (item "/in/missing.pdf")
              [item "/in/clip.mp4"] (Mock.start sample_files))
    as (rs1 & w1 & r & wx & rs2 & w2 & H1 & Hx & H2 & H4 & _ & _ & _ & _ & _
        & H9).
  vm_compute in H1. injection H1 as <- <-.
  vm_compute in Hx. injection Hx as <- <-.
  vm_compute in H2. injection H2 as <- <-.
  split; [exact (f_equal fst H4) | exact (H9 eq_refl)].
Defined.

(** C1, as stated, fails: a failed item can change the result of another item
    of the batch.  The video [clip.mp4] fails in its sanitizer, which has
    created its output by then; an item that names that output, the temporary
    file in overwrite mode or the copy in [outputDir], gets another result
    than it gets in a batch without the failed item. *)
Lemma failed_item_changes_a_later_result :
  let run options its :=
    fst (Main.process_files Mock.platform Mock.sanitizers
           {| Main.items := its; Main.options := options |}
           (Mock.start sample_files)) in
  run in_place [item "/in/clip.mp4"; item "/in/.clip-clean_tmp.mp4"]
  = Returned
      [caught_result "/in/clip.mp4" "/in/.clip-clean_tmp.mp4"
         (JsError "ffmpeg exited with code 1");
       caught_result "/in/.clip-clean_tmp.mp4"
         "/in/..clip-clean_tmp-clean_tmp.mp4"
         (JsError "ffmpeg exited with code 1")]
  /\ run in_place [item "/in/.clip-clean_tmp.mp4"]
     = Returned
         [failed_result "/in/.clip-clean_tmp.mp4"
            (JsError "ENOENT: no such file or directory")]
  /\ run to_directory [item "/in/clip.mp4"; item "/out/clip-clean.mp4"]
     = Returned
         [caught_result "/in/clip.mp4" "/out/clip-clean.mp4"
            (JsError "ffmpeg exited with code 1");
          caught_result "/out/clip-clean.mp4" "/out/clip-clean-clean.mp4"
            (JsError "ffmpeg exited with code 1")]
  /\ run to_directory [item "/out/clip-clean.mp4"]
     = Returned
         [failed_result "/out/clip-clean.mp4"
            (JsError "ENOENT: no such file or directory")].
Proof. repeat split. Qed.



(** C4, where the code departs from it.  In overwrite mode a video whose remux
    fails after ffmpeg has created its output: the item's result is an error,
    the handler has called neither [existsSync] nor [unlink], and the
    temporary sibling is still there when the item is done. *)
Theorem failed_sanitizer_leaves_temporary_file :
  let run :=
    Main.process_files Mock.platform Mock.sanitizers
      {| Main.items := [item "/in/clip.mp4"]; Main.options := in_place |}
      (Mock.start sample_files) in
  fst run
  = Returned [caught_result "/in/clip.mp4" "/in/.clip-clean_tmp.mp4"
                (JsError "ffmpeg exited with code 1")]
  /\ log (snd run)
     = [EvStat "/in/clip.mp4"; EvSniff "/in/clip.mp4";
        EvSanitize Category.video "/in/clip.mp4" "/in/.clip-clean_tmp.mp4"]
  /\ fs_existsSync Mock.platform "/in/.clip-clean_tmp.mp4" (ext_state (snd run))
     = true.
Proof. vm_compute. repeat split. Qed.

(** The same mode on an archive that is rebuilt without error: the temporary
    sibling is renamed onto the source and is gone. *)
Example overwrite_success_on_archive :
  let run :=
    Main.process_files Mock.platform Mock.sanitizers
      {| Main.items := [item "/in/a.zip"]; Main.options := in_place |}
      (Mock.start sample_files) in
  fst run
  = Returned [{| inputPath := "/in/a.zip";
                 outputPath := Some "/in/a.zip";
                 status := success;
                 removed := Some ["ZIP 注释/附加头"];
                 type := Some "zip";
                 message := None |}]
  /\ log (snd run)
     = [EvStat "/in/a.zip"; EvSniff "/in/a.zip";
        EvSanitize Category.zip "/in/a.zip" "/in/.a-clean_tmp.zip";
        EvUtimes "/in/.a-clean_tmp.zip" 1000%Z 1000%Z;
        EvRename "/in/.a-clean_tmp.zip" "/in/a.zip"]
  /\ fs_existsSync Mock.platform "/in/.a-clean_tmp.zip" (ext_state (snd run))
     = false.
Proof. vm_compute. repeat split. Qed.

(** ** The office sanitizer *)

Import OfficeProcessor.

(** *** JSZip's [remove] *)

Lemma prefix_refl (s : string) : String.prefix s s = true.
Proof.
  induction s as [|c r IH]; simpl; [reflexivity|].
  destruct (ascii_dec c c) as [_|N]; [exact IH | now contradiction N].
Qed.

Lemma lookup_none_not_key (n : string) (fs : list JSZip.ZipObject) :
  JSZip.lookup n fs = None -> ~ In n (map JSZip.name fs).
Proof.
  unfold JSZip.lookup. intros H Hin.
  apply in_map_iff in Hin as (o & Ho & Hin).
  pose proof (find_none _ _ H o Hin) as Hf. cbn in Hf.
  rewrite Ho, String.eqb_refl in Hf. discriminate.
Qed.

(** [remove] only takes entries away. *)
Lemma remove_incl (f : string) (z : JSZip.t) (o : JSZip.ZipObject) :
  In o (JSZip.files (JSZip.remove f z)) -> In o (JSZip.files z).
Proof.
  unfold JSZip.remove.
  destruct (JSZip.lookup f (JSZip.files z)) as [e|];
    [|destruct (JSZip.lookup _ (JSZip.files z)) as [e|]];
    cbn [JSZip.files]; try destruct (JSZip.dir e);
    intros H; apply filter_In in H; tauto.
Qed.

(** After [remove(f)] no entry is named [f]. *)
Lemma remove_absent (f : string) (z : JSZip.t) :
  f <> "" -> ~ In f (JSZip.keys (JSZip.remove f z)).
Proof.
  intros Hf. unfold JSZip.keys.
  destruct (JSZip.lookup f (JSZip.files z)) as [e|] eqn:E.
  - unfold JSZip.remove. rewrite E. cbn [JSZip.files].
    intros Hin. apply in_map_iff in Hin as (o & Ho & Hin).
    destruct (JSZip.dir e); apply filter_In in Hin as [_ Hin]; rewrite Ho in Hin.
    + rewrite prefix_refl in Hin.
      destruct (String.eqb_spec f ""); [contradiction | discriminate].
    + rewrite String.eqb_refl in Hin. discriminate.
  - intros Hin. apply (lookup_none_not_key f _ E).
    apply in_map_iff in Hin as (o & Ho & Hin).
    apply in_map_iff. exists o. split; [exact Ho | now apply remove_incl in Hin].
Qed.

Lemma remove_file (n : string) (z : JSZip.t) (o : JSZip.ZipObject) :
  JSZip.file_get n z = Some o -> JSZip.remove n z = delete_name n z.
Proof.
  unfold JSZip.file_get, JSZip.remove, delete_name.
  destruct (JSZip.lookup n (JSZip.files z)) as [e|]; [|discriminate].
  destruct (JSZip.dir e); [discriminate | reflexivity].
Qed.

Lemma lookup_delete_other (n e : string) (z : JSZip.t) :
  n <> e ->
  JSZip.lookup e (JSZip.files (delete_name n z)) = JSZip.lookup e (JSZip.files z).
Proof.
  intros Hne. unfold JSZip.lookup, delete_name. cbn [JSZip.files].
  induction (JSZip.files z) as [|o fs IH]; simpl; [reflexivity|].
  destruct (String.eqb_spec (JSZip.name o) n) as [Hn|Hn]; simpl.
  - destruct (String.eqb_spec (JSZip.name o) e) as [He|He]; [congruence | exact IH].
  - destruct (String.eqb (JSZip.name o) e); [reflexivity | exact IH].
Qed.

Lemma prefixed_keys_delete (pre n : string) (z : JSZip.t) :
  String.prefix pre n = false ->
  filter (String.prefix pre) (JSZip.keys (delete_name n z))
  = filter (String.prefix pre) (JSZip.keys z).
Proof.
  intros Hn. unfold JSZip.keys, delete_name. cbn [JSZip.files].
  induction (JSZip.files z) as [|o fs IH]; simpl; [reflexivity|].
  destruct (String.eqb_spec (JSZip.name o) n) as [He|He]; simpl.
  - rewrite He, Hn. exact IH.
  - now rewrite IH.
Qed.

(** *** [removeCommon] *)

Lemma common_removals_step (pre : string) (names : list string) :
  NoDup names ->
  Forall (fun n => String.prefix pre n = false) names ->
  forall (z : JSZip.t) (removed : list string),
    snd (fold_left remove_if_file names (z, removed))
    = removed ++ filter (is_file z) names
    /\ filter (String.prefix pre)
         (JSZip.keys (fst (fold_left remove_if_file names (z, removed))))
       = filter (String.prefix pre) (JSZip.keys z).
Proof.
  induction names as [|n rest IH]; intros Hnd Hpre z removed; simpl.
  - now rewrite app_nil_r.
  - inversion Hnd as [|? ? Hn Hrest]; subst.
    inversion Hpre as [|? ? Hpn Hprest]; subst.
    unfold is_file at 1.
    destruct (JSZip.file_get n z) as [o|] eqn:E.
    + rewrite (remove_file n z o E).
      destruct (IH Hrest Hprest (delete_name n z) (removed ++ [n])) as [H1 H2].
      split.
      * rewrite H1, <- app_assoc. simpl. do 2 f_equal.
        apply filter_ext_in. intros e He. unfold is_file, JSZip.file_get.
        rewrite lookup_delete_other; [reflexivity|].
        intros ->. contradiction.
      * rewrite H2. now apply prefixed_keys_delete.
    + apply (IH Hrest Hprest).
Qed.

Lemma custom_removals_step (ks : list string) (z : JSZip.t)
    (removed : list string) :
  fold_left remove_custom ks (z, removed)
  = (fold_left (fun z f => JSZip.remove f z) ks z,
     removed ++ repeat CUSTOM_XML_PREFIX (length ks)).
Proof.
  revert z removed; induction ks as [|k ks IH]; intros z removed; simpl.
  - now rewrite app_nil_r.
  - rewrite IH, <- app_assoc. reflexivity.
Qed.

Lemma fold_remove_incl (ks : list string) (z : JSZip.t) (n : string) :
  In n (JSZip.keys (fold_left (fun z f => JSZip.remove f z) ks z)) ->
  In n (JSZip.keys z).
Proof.
  revert z; induction ks as [|k ks IH]; intros z; simpl; [auto|].
  intros H. apply IH in H. unfold JSZip.keys in *.
  apply in_map_iff in H as (o & Ho & Hin). apply in_map_iff.
  exists o. split; [exact Ho | now apply remove_incl in Hin].
Qed.

Lemma fold_remove_absent (ks : list string) (z : JSZip.t) (n : string) :
  In n ks -> n <> "" ->
  ~ In n (JSZip.keys (fold_left (fun z f => JSZip.remove f z) ks z)).
Proof.
  revert z; induction ks as [|k ks IH]; intros z Hin Hn; simpl; [contradiction|].
  destruct (string_dec k n) as [->|Hk].
  - intros H. apply fold_remove_incl in H. now apply (remove_absent n z).
  - destruct Hin as [->|Hin]; [contradiction | now apply IH].
Qed.

Lemma common_removals_distinct :
  NoDup COMMON_REMOVALS
  /\ Forall (fun n => String.prefix CUSTOM_XML_PREFIX n = false) COMMON_REMOVALS.
Proof.
  split.
  - unfold COMMON_REMOVALS.
    repeat (constructor; [simpl; intuition discriminate|]). constructor.
  - repeat constructor.
Qed.

(** C7, as amended.  After [removeCommon] no entry of the archive has a name
    that begins with "customXml/"; the report gains the names of the fixed
    entries that were files of the archive, in the order of the list, and
    then the marker "customXml/" once for each entry name that began with the
    prefix: as many markers as names matched, none when none did. *)
Theorem removeCommon_marks_each_custom_entry (zip : JSZip.t)
    (removed : list string) :
  (forall n : string,
     In n (JSZip.keys (fst (removeCommon (zip, removed)))) ->
     String.prefix CUSTOM_XML_PREFIX n = false)
  /\ snd (removeCommon (zip, removed))
     = removed
       ++ filter (is_file zip) COMMON_REMOVALS
       ++ repeat CUSTOM_XML_PREFIX
            (length (filter (String.prefix CUSTOM_XML_PREFIX) (JSZip.keys zip))).
Proof.
  destruct common_removals_distinct as [Hnd Hpre].
  destruct (common_removals_step CUSTOM_XML_PREFIX COMMON_REMOVALS Hnd Hpre
              zip removed) as [Hr Hk].
  unfold removeCommon.
  destruct (fold_left remove_if_file COMMON_REMOVALS (zip, removed)) as [z1 r1].
  cbn [fst snd] in *. rewrite custom_removals_step. cbn [fst snd].
  split.
  - intros n Hin.
    destruct (String.prefix CUSTOM_XML_PREFIX n) eqn:Hp; [exfalso | reflexivity].
    assert (Hn : n <> "") by (intros ->; discriminate).
    refine (fold_remove_absent _ z1 n _ Hn Hin).
    apply filter_In. split; [|exact Hp].
    now apply fold_remove_incl in Hin.
  - now rewrite Hr, Hk, <- app_assoc.
Qed.

(** C7, as stated, fails: an archive with two custom XML parts gets two
    markers, not one. *)
Lemma two_custom_entries_two_markers :
  filter (String.prefix CUSTOM_XML_PREFIX) (JSZip.keys Mock.archive)
  = ["customXml/item1.xml"; "customXml/itemProps1.xml"]
  /\ snd (removeCommon (Mock.archive, []))
     = ["docProps/core.xml"; "customXml/"; "customXml/"].
Proof. split; reflexivity. Qed.

(** *** [processOffice] and the legacy formats *)

Section Office.
Context {St : Type} (P : Platform St).

(** The text that checks: a legacy extension is rejected before anything is
    read, with a message that names the conversion. *)
Lemma processOffice_rejects_legacy (inputPath outputPath : string)
    (w : World St) :
  includes [".doc"; ".xls"; ".ppt"] (tested_ext P inputPath) = true ->
  processOffice P inputPath outputPath w
  = (Threw (JsError (legacy_message (tested_ext P inputPath))), w)
  /\ exists before after : string,
       legacy_message (tested_ext P inputPath)
       = (before ++ ".docx, .xlsx, .pptx" ++ after)%string.
Proof.
  intros H. split.
  - unfold processOffice. fold (tested_ext P inputPath). now rewrite H.
  - unfold legacy_message.
    exists ("暂不支持旧版 Office 格式 (" ++ tested_ext P inputPath
            ++ ")。请先使用 Office 或在线转换工具将其转换为新版格式 (")%string,
      ") 后再处理。".
    rewrite !string_append_assoc. reflexivity.
Qed.

(** The other text: whatever the extension, the file is read, and what was
    read is given to the parser. *)
Lemma other_processOffice_reads_and_parses (inputPath outputPath : string)
    (w : World St) :
  match fs_readFile P inputPath (ext_state w) with
  | (Threw e, s) =>
      OfficeProcessorOther.processOffice P inputPath outputPath w
      = (Threw e, {| ext_state := s; log := log w ++ [EvReadFile inputPath] |})
  | (Returned buffer, s) =>
      match JSZip_loadAsync P buffer with
      | Threw e =>
          OfficeProcessorOther.processOffice P inputPath outputPath w
          = (Threw e,
             {| ext_state := s;
                log := (log w ++ [EvReadFile inputPath]) ++ [EvLoadZip buffer] |})
      | Returned zip =>
          OfficeProcessorOther.processOffice P inputPath outputPath w
          = sanitize_and_write P (tested_ext P inputPath) outputPath zip
              {| ext_state := s;
                 log := (log w ++ [EvReadFile inputPath]) ++ [EvLoadZip buffer] |}
      end
  end.
Proof.
  unfold OfficeProcessorOther.processOffice, bind, perform.
  destruct (fs_readFile P inputPath (ext_state w)) as [[buffer|e] s];
    [|reflexivity].
  cbn [ext_state log].
  destruct (JSZip_loadAsync P buffer) as [zip|e]; reflexivity.
Qed.

End Office.

(** C6, where the code departs from it.  On [old.doc], a legacy file, the
    text of [processOffice] that has no check reads the file and hands it to
    the parser, and the error is the parser's; the text that checks rejects
    the same file unread, with the conversion message. *)
Theorem unchecked_processOffice_parses_legacy_file :
  let w := Mock.start [("/in/old.doc", [Byte.xd0; Byte.xcf])] in
  includes [".doc"; ".xls"; ".ppt"] (tested_ext Mock.platform "/in/old.doc") = true
  /\ OfficeProcessorOther.processOffice Mock.platform
       "/in/old.doc" "/out/old-clean.doc" w
     = (Threw (JsError "Can't find end of central directory : is this a zip file ?"),
        {| ext_state := [("/in/old.doc", [Byte.xd0; Byte.xcf])];
           log := [EvReadFile "/in/old.doc"; EvLoadZip [Byte.xd0; Byte.xcf]] |})
  /\ processOffice Mock.platform "/in/old.doc" "/out/old-clean.doc" w
     = (Threw (JsError (legacy_message ".doc")), w).
Proof. repeat split. Qed.

(** ** The archive sanitizer *)

(** *** JSZip's [file] and [folder] *)

Lemma lookup_name (n : string) (fs : list JSZip.ZipObject) (o : JSZip.ZipObject) :
  JSZip.lookup n fs = Some o -> JSZip.name o = n /\ In o fs.
Proof.
  unfold JSZip.lookup. intros H. apply find_some in H as [Hin Hn].
  split; [now apply String.eqb_eq | exact Hin].
Qed.

Lemma find_snoc {A : Type} (f : A -> bool) (l : list A) (x : A) :
  find f (l ++ [x])
  = match find f l with
    | Some y => Some y
    | None => if f x then Some x else None
    end.
Proof.
  induction l as [|y l IH]; simpl; [reflexivity|].
  destruct (f y); [reflexivity | exact IH].
Qed.

Lemma lookup_set_file (o : JSZip.ZipObject) (fs : list JSZip.ZipObject)
    (n : string) :
  JSZip.lookup n (JSZip.set_file o fs)
  = if String.eqb (JSZip.name o) n then Some o else JSZip.lookup n fs.
Proof.
  unfold JSZip.set_file, JSZip.lookup.
  destruct (existsb _ fs) eqn:E.
  - induction fs as [|x fs IH]; [discriminate|].
    simpl in E |- *.
    destruct (String.eqb_spec (JSZip.name x) (JSZip.name o)) as [Hx|Hx]; simpl.
    + destruct (String.eqb_spec (JSZip.name o) n) as [Hn|Hn]; [reflexivity|].
      rewrite Hx. destruct (String.eqb_spec (JSZip.name o) n); [contradiction|].
      clear IH E. induction fs as [|y fs IH]; simpl; [reflexivity|].
      destruct (String.eqb_spec (JSZip.name y) (JSZip.name o)) as [Hy|Hy]; simpl.
      * destruct (String.eqb_spec (JSZip.name o) n); [contradiction|].
        rewrite Hy. destruct (String.eqb_spec (JSZip.name o) n);
          [contradiction | exact IH].
      * destruct (String.eqb (JSZip.name y) n); [reflexivity | exact IH].
    + destruct (String.eqb_spec (JSZip.name x) n) as [Hn|Hn].
      * destruct (String.eqb_spec (JSZip.name o) n); [congruence | reflexivity].
      * now apply IH.
  - rewrite find_snoc.
    destruct (find _ fs) as [x|] eqn:F.
    + apply find_some in F as [Hin Hx]. apply String.eqb_eq in Hx.
      destruct (String.eqb_spec (JSZip.name o) n) as [Hn|Hn]; [|reflexivity].
      exfalso. apply (proj2 (not_true_iff_false _) E).
      apply existsb_exists. exists x. split; [exact Hin|].
      apply String.eqb_eq. congruence.
    + simpl. now destruct (String.eqb (JSZip.name o) n).
Qed.

Lemma in_set_file (o x : JSZip.ZipObject) (fs : list JSZip.ZipObject) :
  In x (JSZip.set_file o fs) -> x = o \/ In x fs.
Proof.
  unfold JSZip.set_file. destruct (existsb _ fs).
  - intros H. apply in_map_iff in H as (y & Hy & Hin).
    destruct (String.eqb (JSZip.name y) (JSZip.name o)); subst; auto.
  - intros H. apply in_app_or in H as [H|[H|[]]]; auto.
Qed.

(** [folderAdd] leaves the entries there are as they are, adds folders only,
    and makes sure there is an entry under the folder's name. *)
Lemma folderAdd_spec (now : Date) (nm : string) (fs : list JSZip.ZipObject) :
  (forall n o, JSZip.lookup n fs = Some o ->
               JSZip.lookup n (JSZip.folderAdd now nm fs) = Some o)
  /\ (forall x, In x (JSZip.folderAdd now nm fs) ->
                In x fs \/ JSZip.dir x = true)
  /\ (exists o, JSZip.lookup (JSZip.forceTrailingSlash nm)
                  (JSZip.folderAdd now nm fs) = Some o).
Proof.
  funelim (JSZip.folderAdd now nm fs).
  - (* an entry has the folder's name *)
    repeat split; auto. now exists z.
  - (* no parent folder *)
    clear Heqcall. repeat split.
    + intros n o Ho. rewrite lookup_set_file. cbn [JSZip.folder_object JSZip.name].
      destruct (String.eqb_spec (JSZip.forceTrailingSlash nm) n) as [<-|_];
        [congruence | exact Ho].
    + intros x Hx. apply in_set_file in Hx as [->|Hx]; auto.
    + eexists. rewrite lookup_set_file. cbn [JSZip.folder_object JSZip.name].
      now rewrite String.eqb_refl.
  - (* the parent folder first *)
    clear Heqcall. destruct H as (Hkeep & Hnew & _). repeat split.
    + intros n o Ho. rewrite lookup_set_file. cbn [JSZip.folder_object JSZip.name].
      destruct (String.eqb_spec (JSZip.forceTrailingSlash nm) n) as [<-|_];
        [congruence | now apply Hkeep].
    + intros x Hx. apply in_set_file in Hx as [->|Hx]; auto.
    + eexists. rewrite lookup_set_file. cbn [JSZip.folder_object JSZip.name].
      now rewrite String.eqb_refl.
Qed.

Lemma file_set_copy (now : Date) (e : JSZip.ZipObject) (content : Buffer)
    (z : JSZip.t) :
  let z' :=
    JSZip.file_set now (JSZip.name e) content (ZipProcessor.copy_options e) z in
  JSZip.lookup (JSZip.name e) (JSZip.files z') = Some (copy_of e content)
  /\ (forall n o, n <> JSZip.name e ->
        JSZip.lookup n (JSZip.files z) = Some o ->
        JSZip.lookup n (JSZip.files z') = Some o)
  /\ (forall x, In x (JSZip.files z') ->
        x = copy_of e content \/ In x (JSZip.files z) \/ JSZip.dir x = true)
  /\ JSZip.zip_comment z' = JSZip.zip_comment z.
Proof.
  cbn zeta. unfold JSZip.file_set, JSZip.fileAdd.
  cbn [ZipProcessor.copy_options JSZip.o_dir JSZip.o_date JSZip.o_comment
       JSZip.o_compression JSZip.o_createFolders JSZip.files JSZip.zip_comment
       orb].
  set (fs' := match JSZip.parentFolder (JSZip.name e) with
              | EmptyString => JSZip.files z
              | String _ _ =>
                  JSZip.folderAdd now (JSZip.parentFolder (JSZip.name e))
                    (JSZip.files z)
              end).
  set (obj := {| JSZip.name := JSZip.name e; JSZip.dir := false |}).
  assert (Hobj : obj = copy_of e content)
    by (unfold obj, copy_of; destruct content; reflexivity).
  assert (Hkeep : forall n o, JSZip.lookup n (JSZip.files z) = Some o ->
                              JSZip.lookup n fs' = Some o).
  { unfold fs'. destruct (JSZip.parentFolder (JSZip.name e)); [auto|].
    apply folderAdd_spec. }
  assert (Hnew : forall x, In x fs' -> In x (JSZip.files z) \/ JSZip.dir x = true).
  { unfold fs'. destruct (JSZip.parentFolder (JSZip.name e)); [auto|].
    apply folderAdd_spec. }
  rewrite Hobj in *. clear Hobj obj.
  replace (match JSZip.parentFolder (JSZip.name e) with
           | EmptyString => JSZip.files z
           | String a s =>
               JSZip.folderAdd now (String a s) (JSZip.files z)
           end) with fs'
    by (unfold fs'; now destruct (JSZip.parentFolder (JSZip.name e))).
  repeat split.
  - rewrite lookup_set_file. cbn [copy_of JSZip.name]. now rewrite String.eqb_refl.
  - intros n o Hn Ho. rewrite lookup_set_file. cbn [copy_of JSZip.name].
    destruct (String.eqb_spec (JSZip.name e) n); [congruence | now apply Hkeep].
  - intros x Hx. apply in_set_file in Hx as [->|Hx]; [auto|].
    right. now apply Hnew.
Qed.

Lemma ends_with_slash_nonempty (s : string) :
  JSZip.ends_with_slash s = true -> s <> "".
Proof. intros H ->. discriminate. Qed.

Lemma folder_spec (now : Date) (nm : string) (z : JSZip.t) :
  JSZip.ends_with_slash nm = true ->
  (forall n o, JSZip.lookup n (JSZip.files z) = Some o ->
     JSZip.lookup n (JSZip.files (JSZip.folder now nm z)) = Some o)
  /\ (forall x, In x (JSZip.files (JSZip.folder now nm z)) ->
        In x (JSZip.files z) \/ JSZip.dir x = true)
  /\ (exists o, JSZip.lookup nm (JSZip.files (JSZip.folder now nm z)) = Some o)
  /\ JSZip.zip_comment (JSZip.folder now nm z) = JSZip.zip_comment z.
Proof.
  intros Hs. unfold JSZip.folder.
  destruct (String.eqb_spec nm "") as [->|_]; [discriminate|].
  cbn [JSZip.files JSZip.zip_comment].
  destruct (folderAdd_spec now nm (JSZip.files z)) as (Hkeep & Hnew & Hthere).
  unfold JSZip.forceTrailingSlash in Hthere. rewrite Hs in Hthere.
  repeat split; auto.
Qed.

Section Zip.
Context {St : Type} (P : Platform St).

Import ZipProcessor.

(** The loop of [processZip], from any archive under construction. *)
Lemma rebuild_spec (entries : list JSZip.ZipObject) :
  NoDup (map JSZip.name entries) ->
  Forall (fun o => JSZip.dir o = true ->
                   JSZip.ends_with_slash (JSZip.name o) = true) entries ->
  forall (z : JSZip.t) (w : World St) (z' : JSZip.t) (w' : World St),
    rebuild P entries z w = (Returned z', w') ->
    (forall n o,
       JSZip.lookup n (JSZip.files z) = Some o ->
       (forall e, In e entries -> JSZip.dir e = false -> JSZip.name e <> n) ->
       JSZip.lookup n (JSZip.files z') = Some o)
    /\ (forall e, In e entries -> JSZip.dir e = false ->
          exists content,
            JSZip.async e = Returned content
            /\ JSZip.lookup (JSZip.name e) (JSZip.files z')
               = Some (copy_of e content))
    /\ (forall e, In e entries -> JSZip.dir e = true ->
          exists o, JSZip.lookup (JSZip.name e) (JSZip.files z') = Some o)
    /\ (forall x, In x (JSZip.files z') -> JSZip.dir x = false ->
          In x (JSZip.files z)
          \/ exists e, In e entries /\ JSZip.dir e = false
                       /\ JSZip.name e = JSZip.name x)
    /\ JSZip.zip_comment z' = JSZip.zip_comment z
    /\ log w' = log w.
Proof.
  induction entries as [|e rest IH]; intros Hnd Hslash z w z' w' Hrun.
  - cbn in Hrun. injection Hrun as <- <-.
    repeat split; auto; intros ? [].
  - inversion Hnd as [|? ? Hfresh Hnd']; subst.
    inversion Hslash as [|? ? Hse Hslash']; subst.
    assert (Hothers : forall e', In e' rest -> JSZip.name e' <> JSZip.name e).
    { intros e' He' Heq. apply Hfresh. rewrite <- Heq. now apply in_map. }
    cbn [rebuild] in Hrun.
    destruct (JSZip.dir e) eqn:Hdir.
    + (* a folder *)
      unfold bind, new_Date in Hrun.
      destruct (date_now P (ext_state w)) as [now s].
      set (w1 := {| ext_state := s; log := log w |}) in Hrun.
      destruct (folder_spec now (JSZip.name e) z (Hse eq_refl))
        as (Hkeep & Hnew & [o Ho] & Hcomment).
      destruct (IH Hnd' Hslash' _ w1 z' w' Hrun)
        as (IHkeep & IHfiles & IHdirs & IHnew & IHcomment & IHlog).
      repeat split.
      * intros n x Hx Hn. apply IHkeep; [now apply Hkeep|].
        intros e' He'. apply Hn. now right.
      * intros e' [<-|He'] Hd; [congruence | now apply IHfiles].
      * intros e' [<-|He'] Hd; [|now apply IHdirs].
        exists o. apply IHkeep; [exact Ho|].
        intros e' He' _. now apply Hothers.
      * intros x Hx Hd. destruct (IHnew x Hx Hd) as [Hin|(e' & He' & Hd' & Hn)].
        -- destruct (Hnew x Hin) as [Hz|Hz]; [now left | congruence].
        -- right. exists e'. repeat split; auto. now right.
      * now rewrite IHcomment.
      * exact IHlog.
    + (* a file *)
      unfold bind, settle, new_Date in Hrun.
      destruct (JSZip.async e) as [content|err] eqn:Hcontent; [|discriminate].
      destruct (date_now P (ext_state w)) as [now s].
      set (w1 := {| ext_state := s; log := log w |}) in Hrun.
      destruct (file_set_copy now e content z)
        as (Hcopy & Hkeep & Hnew & Hcomment).
      destruct (IH Hnd' Hslash' _ w1 z' w' Hrun)
        as (IHkeep & IHfiles & IHdirs & IHnew & IHcomment & IHlog).
      repeat split.
      * intros n x Hx Hn. apply IHkeep.
        -- apply Hkeep; [|exact Hx]. intros ->. apply (Hn e); auto. now left.
        -- intros e' He'. apply Hn. now right.
      * intros e' [<-|He'] Hd; [|now apply IHfiles].
        exists content. split; [exact Hcontent|].
        apply IHkeep; [exact Hcopy|].
        intros e' He' _. now apply Hothers.
      * intros e' [<-|He'] Hd; [congruence | now apply IHdirs].
      * intros x Hx Hd. destruct (IHnew x Hx Hd) as [Hin|(e' & He' & Hd' & Hn)].
        -- destruct (Hnew x Hin) as [->|[Hz|Hz]]; [|now left | congruence].
           right. exists e. repeat split; auto. now left.
        -- right. exists e'. repeat split; auto. now right.
      * now rewrite IHcomment.
      * exact IHlog.
Qed.

End Zip.

Lemma same_name_same_entry (fs : list JSZip.ZipObject) (a b : JSZip.ZipObject) :
  NoDup (map JSZip.name fs) -> In a fs -> In b fs ->
  JSZip.name a = JSZip.name b -> a = b.
Proof.
  induction fs as [|x fs IH]; intros Hnd Ha Hb Hn; [contradiction|].
  inversion Hnd as [|? ? Hfresh Hnd']; subst.
  destruct Ha as [->|Ha], Hb as [->|Hb]; auto.
  - exfalso. apply Hfresh. rewrite Hn. now apply in_map.
  - exfalso. apply Hfresh. rewrite <- Hn. now apply in_map.
Qed.

Section ZipClaims.
Context {St : Type} (P : Platform St).

Import ZipProcessor.

(** C8, as amended.  When [processZip] returns, it has read the input, parsed
    it, and written to the destination what [generateAsync] made, with
    DEFLATE, of the archive it rebuilt.  For an input parsed into a JSZip
    instance, the rebuilt archive has an entry under every name of the
    original; a folder of the original is a folder; a file of the original is
    a file with the original's content, byte for byte, and the original's
    date, without a comment, stored with DEFLATE unless it is empty (then
    STORE), whatever method the original was stored with; every file of the
    rebuilt archive is a file of the original (entries the original does not
    have are folders); the archive has no comment. *)
Theorem processZip_rebuilds_archive (inputPath outputPath : string)
    (w : World St) (report : Report) (w' : World St) :
  (forall data z, JSZip_loadAsync P data = Returned z -> well_formed z) ->
  processZip P inputPath outputPath w = (Returned report, w') ->
  exists (data : Buffer) (zip rebuilt : JSZip.t) (buffer : Buffer),
    fst (fs_readFile P inputPath (ext_state w)) = Returned data
    /\ JSZip_loadAsync P data = Returned zip
    /\ JSZip_generateAsync P rebuilt JSZip.DEFLATE = Returned buffer
    /\ log w' = log w ++ [EvReadFile inputPath; EvLoadZip data;
                          EvGenerateZip; EvWriteFile outputPath buffer]
    /\ (forall e, In e (JSZip.files zip) ->
          In (JSZip.name e) (JSZip.keys rebuilt))
    /\ (forall e, In e (JSZip.files zip) -> JSZip.dir e = true ->
          exists o, JSZip.lookup (JSZip.name e) (JSZip.files rebuilt) = Some o
                    /\ JSZip.dir o = true)
    /\ (forall e, In e (JSZip.files zip) -> JSZip.dir e = false ->
          exists content o,
            JSZip.async e = Returned content
            /\ JSZip.lookup (JSZip.name e) (JSZip.files rebuilt) = Some o
            /\ JSZip.dir o = false
            /\ JSZip.async o = Returned content
            /\ JSZip.date o = JSZip.date e
            /\ JSZip.comment o = None
            /\ JSZip.method_used JSZip.DEFLATE o
               = match content with
                 | [] => JSZip.STORE
                 | _ => JSZip.DEFLATE
                 end)
    /\ (forall x, In x (JSZip.files rebuilt) -> JSZip.dir x = false ->
          exists e, In e (JSZip.files zip) /\ JSZip.dir e = false
                    /\ JSZip.name e = JSZip.name x)
    /\ JSZip.archive_comment rebuilt = "".
Proof.
  intros Hparser Hrun.
  unfold processZip, bind in Hrun.
  unfold perform at 1 in Hrun.
  destruct (fs_readFile P inputPath (ext_state w)) as [[data|e] s1] eqn:Hread;
    [|discriminate].
  unfold perform at 1 in Hrun. cbn [ext_state log] in Hrun.
  destruct (JSZip_loadAsync P data) as [zip|e] eqn:Hload; [|discriminate].
  destruct (rebuild P (JSZip.files zip) JSZip.empty _) as [[rebuilt|e] w2]
    eqn:Hrebuild; [|discriminate].
  unfold perform at 1 in Hrun.
  destruct (JSZip_generateAsync P rebuilt JSZip.DEFLATE) as [buffer|e] eqn:Hgen;
    [|discriminate].
  unfold perform, ret in Hrun. cbn [ext_state log] in Hrun.
  destruct (fs_writeFile P outputPath buffer (ext_state w2)) as [[[]|e] s3];
    [|discriminate].
  injection Hrun as _ <-.
  destruct (Hparser data zip Hload) as [Hnd Hslash].
  destruct (rebuild_spec P (JSZip.files zip) Hnd Hslash _ _ _ _ Hrebuild)
    as (_ & Hfiles & Hdirs & Hnew & Hcomment & Hlog).
  assert (Hfolder : forall e, In e (JSZip.files zip) -> JSZip.dir e = true ->
            exists o, JSZip.lookup (JSZip.name e) (JSZip.files rebuilt) = Some o
                      /\ JSZip.dir o = true).
  { intros e He Hd. destruct (Hdirs e He Hd) as [o Ho]. exists o.
    split; [exact Ho|].
    destruct (JSZip.dir o) eqn:Hdo; [reflexivity | exfalso].
    destruct (lookup_name _ _ _ Ho) as [Hn Hin].
    destruct (Hnew o Hin Hdo) as [[]|(e' & He' & Hd' & Hn')].
    assert (e' = e)
      by (apply (same_name_same_entry (JSZip.files zip)); auto; congruence).
    congruence. }
  exists data, zip, rebuilt, buffer.
  repeat split; auto.
  - cbn [log]. rewrite Hlog. cbn [log]. now rewrite <- !app_assoc.
  - intros e He. destruct (JSZip.dir e) eqn:Hd.
    + destruct (Hfolder e He Hd) as (o & Ho & _).
      destruct (lookup_name _ _ _ Ho) as [Hn Hin].
      rewrite <- Hn. now apply in_map.
    + destruct (Hfiles e He Hd) as (content & _ & Ho).
      destruct (lookup_name _ _ _ Ho) as [Hn Hin].
      rewrite <- Hn. now apply in_map.
  - intros e He Hd. destruct (Hfiles e He Hd) as (content & Hc & Ho).
    exists content, (copy_of e content).
    repeat split; auto. now destruct content.
  - intros x Hx Hd. destruct (Hnew x Hx Hd) as [[]|H]. exact H.
  - unfold JSZip.archive_comment. now rewrite Hcomment.
Qed.

End ZipClaims.

Lemma mock_parser_well_formed (data : Buffer) (z : JSZip.t) :
  JSZip_loadAsync Mock.platform data = Returned z -> well_formed z.
Proof.
  cbn. unfold Mock.load.
  destruct data as [|[] [|[] ?]]; try discriminate.
  intros H. injection H as <-. split.
  - cbn. repeat (constructor; [simpl; intuition discriminate|]). constructor.
  - repeat constructor; discriminate.
Qed.

Lemma processZip_rebuilds_archive_witness :
  exists (data : Buffer) (zip rebuilt : JSZip.t) (buffer : Buffer),
    fst (fs_readFile Mock.platform "/in/a.zip" sample_files) = Returned data
    /\ JSZip_loadAsync Mock.platform data = Returned zip
    /\ JSZip_generateAsync Mock.platform rebuilt JSZip.DEFLATE = Returned buffer
    /\ log (snd (ZipProcessor.processZip Mock.platform "/in/a.zip"
                   "/out/a-clean.zip" (Mock.start sample_files)))
       = [EvReadFile "/in/a.zip"; EvLoadZip data; EvGenerateZip;
          EvWriteFile "/out/a-clean.zip" buffer]
    /\ (forall e, In e (JSZip.files zip) ->
          In (JSZip.name e) (JSZip.keys rebuilt)).
Proof.
  destruct (processZip_rebuilds_archive Mock.platform
              "/in/a.zip" "/out/a-clean.zip" (Mock.start sample_files)
              _ _ mock_parser_well_formed eq_refl)
    as (data & zip & rebuilt & buffer & H1 & H2 & H3 & H4 & H5 & _).
  exists data, zip, rebuilt, buffer. repeat split; assumption.
Defined.

(** C8, as stated, fails.  [readme.txt] is stored without compression in the
    original; the rebuilt archive gives it no method of its own, so it is
    written with the DEFLATE the code asks [generateAsync] for. *)
Lemma stored_entry_is_deflated :
  let original := Mock.stored_entry "readme.txt" JSZip.STORE [Byte.x68; Byte.x69] in
  original_method original = Some JSZip.STORE
  /\ exists rebuilt : JSZip.t,
       fst (ZipProcessor.rebuild Mock.platform [original] JSZip.empty
              (Mock.start []))
       = Returned rebuilt
       /\ map (fun o => (JSZip.name o, JSZip.method_used JSZip.DEFLATE o))
            (JSZip.files rebuilt)
          = [("readme.txt", JSZip.DEFLATE)].
Proof. split; [reflexivity|]. eexists. split; reflexivity. Qed.

(** The names differ as well when the original leaves a folder implicit:
    adding [docs/readme.txt] creates [docs/]. *)
Example implicit_folder_is_created :
  let original := Mock.stored_entry "docs/readme.txt" JSZip.STORE [Byte.x68] in
  exists rebuilt : JSZip.t,
    fst (ZipProcessor.rebuild Mock.platform [original] JSZip.empty (Mock.start []))
    = Returned rebuilt
    /\ JSZip.keys rebuilt = ["docs/"; "docs/readme.txt"].
Proof. eexists. split; reflexivity. Qed.

(** *** The instances the API builds are well formed *)

Lemma ends_with_slash_append (s : string) :
  JSZip.ends_with_slash (s ++ "/") = true.
Proof.
  induction s as [|c r IH]; [reflexivity|].
  simpl. destruct (r ++ "/")%string eqn:E; [destruct r; discriminate | exact IH].
Qed.

Lemma ends_with_slash_force (s : string) :
  JSZip.ends_with_slash (JSZip.forceTrailingSlash s) = true.
Proof.
  unfold JSZip.forceTrailingSlash.
  destruct (JSZip.ends_with_slash s) eqn:E; [exact E | apply ends_with_slash_append].
Qed.

Lemma set_file_well_formed (o : JSZip.ZipObject) (fs : list JSZip.ZipObject) :
  (JSZip.dir o = true -> JSZip.ends_with_slash (JSZip.name o) = true) ->
  NoDup (map JSZip.name fs) /\ folders_end_with_slash fs ->
  NoDup (map JSZip.name (JSZip.set_file o fs))
  /\ folders_end_with_slash (JSZip.set_file o fs).
Proof.
  intros Ho [Hnd Hs]. unfold JSZip.set_file, folders_end_with_slash in *.
  destruct (existsb _ fs) eqn:E.
  - split.
    + replace (map JSZip.name (map _ fs)) with (map JSZip.name fs); [exact Hnd|].
      rewrite map_map. apply map_ext. intros x.
      destruct (String.eqb_spec (JSZip.name x) (JSZip.name o)); congruence.
    + apply Forall_map. eapply Forall_impl; [|exact Hs].
      intros x Hx. cbn beta.
      destruct (String.eqb (JSZip.name x) (JSZip.name o)); auto.
  - split.
    + rewrite map_app. cbn [map].
      apply NoDup_app; [exact Hnd | constructor; [intros [] | constructor] |].
      intros n Hn [<-|[]].
      apply in_map_iff in Hn as (x & Hx & Hin).
      apply (proj2 (not_true_iff_false _) E).
      apply existsb_exists. exists x. split; [exact Hin | now apply String.eqb_eq].
    + apply Forall_app. split; [exact Hs | now constructor].
Qed.

Lemma folderAdd_well_formed (now : Date) (nm : string)
    (fs : list JSZip.ZipObject) :
  NoDup (map JSZip.name fs) /\ folders_end_with_slash fs ->
  NoDup (map JSZip.name (JSZip.folderAdd now nm fs))
  /\ folders_end_with_slash (JSZip.folderAdd now nm fs).
Proof.
  funelim (JSZip.folderAdd now nm fs); intros Hwf.
  - exact Hwf.
  - apply set_file_well_formed; [|exact Hwf].
    intros _. apply ends_with_slash_force.
  - apply set_file_well_formed; [|now apply H].
    intros _. apply ends_with_slash_force.
Qed.

Section ZipInvariant.
Context {St : Type} (P : Platform St).

(** What [processZip] rebuilds is a well-formed instance again. *)
Lemma rebuild_well_formed (entries : list JSZip.ZipObject) (z : JSZip.t)
    (w : World St) (z' : JSZip.t) (w' : World St) :
  well_formed z ->
  ZipProcessor.rebuild P entries z w = (Returned z', w') ->
  well_formed z'.
Proof.
  revert z w; induction entries as [|e rest IH]; intros z w Hwf Hrun.
  - cbn in Hrun. now injection Hrun as <- _.
  - cbn [ZipProcessor.rebuild] in Hrun. unfold bind, settle, new_Date in Hrun.
    destruct (JSZip.dir e).
    + destruct (date_now P (ext_state w)) as [now s].
      apply IH in Hrun; [exact Hrun|].
      unfold JSZip.folder. destruct (String.eqb (JSZip.name e) ""); [exact Hwf|].
      now apply folderAdd_well_formed.
    + destruct (JSZip.async e) as [content|err]; [|discriminate].
      destruct (date_now P (ext_state w)) as [now s].
      apply IH in Hrun; [exact Hrun|].
      unfold well_formed, JSZip.keys, JSZip.file_set, JSZip.fileAdd.
      cbn [JSZip.files ZipProcessor.copy_options JSZip.o_dir
           JSZip.o_createFolders].
      apply set_file_well_formed; [discriminate|].
      destruct (JSZip.parentFolder (JSZip.name e));
        [exact Hwf | now apply folderAdd_well_formed].
Qed.

End ZipInvariant.

(** * Further properties of the code *)

(** ** The batch handler: results and calls *)

Section HandlerResults.
Context {St : Type} (P : Platform St) (S : Sanitizers St).

Import Main.

Lemma processByType_shape (Q : Event -> Prop) (p outputPath : string) :
  Q (EvSniff p) ->
  (forall c, Q (EvSanitize c p outputPath)) ->
  yields Q well_shaped (processByType P S p outputPath).
Proof.
  intros Hsniff Hsan w. rewrite processByType_run.
  destruct (fileTypeFromFile P p (ext_state w)) as [[detected|e] s].
  - cbn zeta. destruct (route _ _) eqn:R;
      try (destruct (sanitizer_of S _ p outputPath s) as [[res|err] s'];
           exists [EvSniff p;
                   EvSanitize (route (tested_ext P p) (tested_mime detected))
                     p outputPath];
           rewrite R; cbn [fst snd log]; rewrite <- app_assoc;
           repeat split; auto; discriminate).
    exists [EvSniff p]. cbn. repeat split; auto. discriminate.
  - exists [EvSniff p]. cbn. auto.
Qed.

Lemma resolvePaths_mode (p : string) (options : ProcessOptions) :
  yields (fun e => mode_call options e = true)
    (fun rp => OutputStrategy.backupPath rp = None)
    (OutputStrategy.resolvePaths P p options).
Proof.
  unfold OutputStrategy.resolvePaths, OutputStrategy.ensureDir.
  destruct (truthy_bool (overwriteSource options)) eqn:Hov.
  - now apply yields_ret.
  - destruct (truthy_string (outputDir options)) as [d|].
    + apply yields_bind with (R := fun _ => True).
      * apply yields_perform;
          [cbn; now rewrite Hov | intros s; now destruct (fst _)].
      * intros _ _. now apply yields_ret.
    + apply yields_throw.
Qed.

(** The [try] block in each mode: its calls, and the shape of its result. *)
Lemma attempt_mode (options : ProcessOptions) (p : string) :
  yields (fun e => mode_call options e = true) well_shaped
    (attempt P S options p).
Proof.
  unfold attempt.
  eapply yields_bind; [apply resolvePaths_mode|].
  intros rp Hrp. rewrite Hrp. cbn [truthy_string].
  apply yields_bind with (R := fun _ => True).
  { apply yields_perform; [reflexivity | intros s; now destruct (fst _)]. }
  intros stat _.
  apply yields_bind with (R := fun _ => True); [now apply yields_ret|].
  intros _ _.
  eapply yields_bind; [apply processByType_shape; reflexivity|].
  intros result Hresult.
  destruct (Status_eqb (status result) success) eqn:Hs;
    [|now apply yields_ret].
  apply yields_bind with (R := fun _ => True).
  { apply yields_perform; [reflexivity | intros s; now destruct (fst _)]. }
  intros _ _.
  destruct (truthy_bool (overwriteSource options)) eqn:Hov;
    [|now apply yields_ret].
  apply yields_bind with (R := fun _ => True).
  { apply yields_perform;
      [cbn; now rewrite Hov | intros s; now destruct (fst _)]. }
  intros _ _. apply yields_ret.
  unfold well_shaped in *. cbn [status outputPath removed type message].
  destruct (status result); try discriminate.
  destruct Hresult as (_ & H). split; [discriminate | exact H].
Qed.

Lemma cleanup_mode (options : ProcessOptions) (p : string) :
  yields (fun e => mode_call options e = true) (fun _ => True)
    (cleanup P options p).
Proof.
  unfold cleanup.
  apply yields_try_catch; [|intros; now apply yields_ret].
  eapply yields_bind; [apply resolvePaths_mode|].
  intros rp _.
  destruct (truthy_bool (overwriteSource options)) eqn:Hov;
    [|now apply yields_ret].
  apply yields_bind with (R := fun _ => True).
  { apply yields_perform; [cbn; now rewrite Hov | intros s; exact I]. }
  intros [|] _; [|now apply yields_ret].
  apply yields_perform; [cbn; now rewrite Hov | intros s; now destruct (fst _)].
Qed.

Lemma batch_outcome_mode (options : ProcessOptions)
    (its : list (option ProcessItem)) (w : World St) :
  exists evs,
    log (snd (batch_outcome P S options its w)) = log w ++ evs
    /\ Forall (fun e => mode_call options e = true) evs
    /\ Forall well_shaped (fst (batch_outcome P S options its w)).
Proof.
  revert w; induction its as [|it rest IH]; intros w; simpl.
  - exists []. rewrite app_nil_r. auto.
  - assert (Hitem : exists evs,
      log (snd (item_outcome P S options it w)) = log w ++ evs
      /\ Forall (fun e => mode_call options e = true) evs
      /\ well_shaped (fst (item_outcome P S options it w))).
    { unfold item_outcome.
      destruct (truthy_string (item_path it)) as [p|].
      - destruct (attempt_mode options p w) as (evs & Hlog & Hevs & Hr).
        destruct (attempt P S options p w) as [[r|err] w']; cbn [fst snd] in *.
        + exists evs. auto.
        + destruct (cleanup_mode options p w') as (evs' & Hlog' & Hevs' & _).
          exists (evs ++ evs'). rewrite Hlog', Hlog, app_assoc.
          repeat split; [apply Forall_app; auto | discriminate].
      - exists []. cbn. rewrite app_nil_r. repeat split; auto. discriminate. }
    destruct Hitem as (evs & Hlog & Hevs & Hr).
    destruct (item_outcome P S options it w) as [r w1]. cbn [fst snd] in *.
    destruct (IH w1) as (evs' & Hlog' & Hevs' & Hrs).
    destruct (batch_outcome P S options rest w1) as [rs w2]. cbn [fst snd] in *.
    exists (evs ++ evs'). rewrite Hlog', Hlog, app_assoc.
    repeat split; [apply Forall_app; auto | now constructor].
Qed.

(** X1.  Every result the handler returns is a success or an error, never
    [skipped]; a success names its output path, what was removed and the type,
    and has no message; an error has a message and neither [removed] nor
    [type]. *)
Theorem results_are_well_shaped (payload : Payload) (w : World St) :
  exists rs : list ProcessResult,
    fst (process_files P S payload w) = Returned rs /\ Forall well_shaped rs.
Proof.
  rewrite process_files_outcome. eexists. split; [reflexivity|].
  now destruct (batch_outcome_mode (options payload) (items payload) w)
    as (_ & _ & _ & H).
Qed.

(** X2.  Without [overwriteSource] the handler calls only mkdir, stat, the
    sniffer, a sanitizer and utimes: it never renames, looks for or unlinks a
    file.  With [overwriteSource] it never calls mkdir, so [outputDir] is not
    created even when one is given.  In no mode does it read, write or copy a
    file itself. *)
Theorem calls_of_each_mode (payload : Payload) (w : World St) :
  exists evs : list Event,
    log (snd (process_files P S payload w)) = log w ++ evs
    /\ forallb (mode_call (options payload)) evs = true.
Proof.
  rewrite process_files_outcome. cbn [snd].
  destruct (batch_outcome_mode (options payload) (items payload) w)
    as (evs & Hlog & Hevs & _).
  exists evs. split; [exact Hlog|].
  apply forallb_forall. intros e He.
  now apply (proj1 (Forall_forall _ _) Hevs).
Qed.

(** X3.  What a success result stands for.  When the handler's result for an
    item is a success then, from the state the item started in (in copy mode:
    from the state the recursive mkdir of [outputDir] returned in), stat of
    the source returned; the sniff returned; the category routed to from the
    extension and the sniffed type is not [other], and its sanitizer, called
    on the source and the destination, returned the report the result
    carries; utimes put the times stat had read on the destination; and, in
    overwrite mode, the destination was renamed onto the source, each call
    from the state the one before left.  Those are all the calls made for the
    item.  The result's [outputPath] is the source path in overwrite mode and
    [outputDir/name{suffix}{ext}] otherwise. *)
Theorem success_means_finished (options : ProcessOptions) (p : string)
    (w : World St) (r : ProcessResult) (w' : World St) :
  truthy_string (Some p) = Some p ->
  process_files P S
    {| items := [Some {| path := p |}]; options := options |} w
  = (Returned [r], w') ->
  status r = success ->
  exists (prefix : list Event) (out : string) (s0 : St)
         (stat : Stats) (s1 : St) (detected : option string) (s2 : St)
         (res : Report) (s3 s4 : St),
    let c := route (tested_ext P p) (tested_mime detected) in
    (if truthy_bool (overwriteSource options)
     then prefix = [] /\ out = temporary_sibling P p options
          /\ s0 = ext_state w
          /\ outputPath r = Some p
          /\ fs_rename P out p s4 = (Returned tt, ext_state w')
     else exists dir,
            truthy_string (outputDir options) = Some dir
            /\ prefix = [EvMkdir dir]
            /\ out = path_join P dir
                       (Path.name (path_parse P p) ++ suffix_of options
                        ++ Path.ext (path_parse P p))
            /\ fs_mkdir_recursive P dir (ext_state w) = (Returned tt, s0)
            /\ outputPath r = Some out
            /\ ext_state w' = s4)
    /\ fs_stat P p s0 = (Returned stat, s1)
    /\ fileTypeFromFile P p s1 = (Returned detected, s2)
    /\ c <> Category.other
    /\ sanitizer_of S c p out s2 = (Returned res, s3)
    /\ fs_utimes P out (atime stat) (mtime stat) s3 = (Returned tt, s4)
    /\ inputPath r = p
    /\ removed r = Some (report_removed res)
    /\ type r = Some (report_type res)
    /\ message r = None
    /\ log w' = log w ++ prefix
                ++ [EvStat p; EvSniff p; EvSanitize c p out;
                    EvUtimes out (atime stat) (mtime stat)]
                ++ (if truthy_bool (overwriteSource options)
                    then [EvRename out p] else []).
Proof.
  intros Hp Hrun Hok.
  rewrite process_files_outcome in Hrun. cbn [items Main.options] in Hrun.
  cbn [batch_outcome] in Hrun.
  destruct (item_outcome P S options (Some {| path := p |}) w) as [r0 w0] eqn:Hitem.
  cbn [fst snd] in Hrun. injection Hrun as -> ->.
  unfold item_outcome in Hitem. cbn [item_path path] in Hitem.
  rewrite Hp in Hitem.
  destruct (attempt P S options p w) as [[r0|err] w0] eqn:Hat;
    [|injection Hitem as <- _; discriminate].
  injection Hitem as -> ->.
  unfold attempt, bind in Hat.
  assert (Hcore : forall (out : string) (w1 : World St),
    (match perform (EvStat p) (fs_stat P p) w1 with
     | (Returned stat, s') =>
         match ret tt s' with
         | (Returned _, s'0) =>
             match processByType P S p out s'0 with
             | (Returned result, s'1) =>
                 (if Status_eqb (status result) success
                  then
                   fun s =>
                   match perform (EvUtimes out (atime stat) (mtime stat))
                           (fs_utimes P out (atime stat) (mtime stat)) s with
                   | (Returned _, s'2) =>
                       (if truthy_bool (overwriteSource options)
                        then
                         fun s0 =>
                         match perform (EvRename out p) (fs_rename P out p) s0 with
                         | (Returned _, s'3) =>
                             ret {| inputPath := inputPath result;
                                    outputPath := Some p;
                                    status := status result;
                                    removed := removed result;
                                    type := type result;
                                    message := message result |} s'3
                         | (Threw e, s'3) => (Threw e, s'3)
                         end
                        else ret result) s'2
                   | (Threw e, s'2) => (Threw e, s'2)
                   end
                  else ret result) s'1
             | (Threw e, s'1) => (Threw e, s'1)
             end
         | (Threw e, s'0) => (Threw e, s'0)
         end
     | (Threw e, s') => (Threw e, s')
     end) = (Returned r, w') ->
    exists (stat : Stats) (s1 : St) (detected : option string) (s2 : St)
           (res : Report) (s3 s4 : St),
      let c := route (tested_ext P p) (tested_mime detected) in
      fs_stat P p (ext_state w1) = (Returned stat, s1)
      /\ fileTypeFromFile P p s1 = (Returned detected, s2)
      /\ c <> Category.other
      /\ sanitizer_of S c p out s2 = (Returned res, s3)
      /\ fs_utimes P out (atime stat) (mtime stat) s3 = (Returned tt, s4)
      /\ (if truthy_bool (overwriteSource options)
          then fs_rename P out p s4 = (Returned tt, ext_state w')
          else ext_state w' = s4)
      /\ outputPath r
         = Some (if truthy_bool (overwriteSource options) then p else out)
      /\ inputPath r = p
      /\ removed r = Some (report_removed res)
      /\ type r = Some (report_type res)
      /\ message r = None
      /\ log w' = log w1
                  ++ [EvStat p; EvSniff p; EvSanitize c p out;
                      EvUtimes out (atime stat) (mtime stat)]
                  ++ (if truthy_bool (overwriteSource options)
                      then [EvRename out p] else [])).
  { intros out w1 H.
    unfold perform at 1 in H.
    destruct (fs_stat P p (ext_state w1)) as [[stat|e] s1] eqn:Hstat;
      [|discriminate].
    unfold ret at 1 in H. rewrite processByType_run in H. cbn [ext_state log] in H.
    destruct (fileTypeFromFile P p s1) as [[detected|e] s2] eqn:Hsniff;
      [|discriminate].
    cbn zeta in H.
    set (c := route (tested_ext P p) (tested_mime detected)) in *.
    assert (Hother : c = Category.other -> False).
    { intros Hc. rewrite Hc in H. cbn in H. injection H as <- _.
      discriminate. }
    assert (Hsan : exists res s3,
              sanitizer_of S c p out s2 = (Returned res, s3)
              /\ (if Status_eqb (status (success_result p out res)) success
                  then
                   fun s =>
                   match perform (EvUtimes out (atime stat) (mtime stat))
                           (fs_utimes P out (atime stat) (mtime stat)) s with
                   | (Returned _, s'2) =>
                       (if truthy_bool (overwriteSource options)
                        then
                         fun s0 =>
                         match perform (EvRename out p) (fs_rename P out p) s0
                         with
                         | (Returned _, s'3) =>
                             ret {| inputPath :=
                                      inputPath (success_result p out res);
                                    outputPath := Some p;
                                    status := status (success_result p out res);
                                    removed :=
                                      removed (success_result p out res);
                                    type := type (success_result p out res);
                                    message :=
                                      message (success_result p out res) |} s'3
                         | (Threw e, s'3) => (Threw e, s'3)
                         end
                        else ret (success_result p out res)) s'2
                   | (Threw e, s'2) => (Threw e, s'2)
                   end
                  else ret (success_result p out res))
                   {| ext_state := s3;
                      log := ((log w1 ++ [EvStat p]) ++ [EvSniff p])
                             ++ [EvSanitize c p out] |} = (Returned r, w')).
    { destruct c eqn:Hc; try (exfalso; now apply Hother);
        (destruct (sanitizer_of S _ p out s2) as [[res|err] s3];
         [exists res, s3; split; [reflexivity | exact H]
         | cbn in H; injection H as <- _; discriminate]). }
    destruct Hsan as (res & s3 & Hres & H').
    cbn [success_result status Status_eqb] in H'.
    unfold perform at 1 in H'. cbn [ext_state log] in H'.
    destruct (fs_utimes P out (atime stat) (mtime stat) s3) as [[[]|e] s4]
      eqn:Hut; [|discriminate].
    exists stat, s1, detected, s2, res, s3, s4. cbn zeta. fold c.
    destruct (truthy_bool (overwriteSource options)).
    - unfold perform, ret in H'. cbn [ext_state log] in H'.
      destruct (fs_rename P out p s4) as [[[]|e] s5] eqn:Hren; [|discriminate].
      injection H' as <- <-. cbn. repeat split; auto.
      now rewrite <- !app_assoc.
    - unfold ret in H'. injection H' as <- <-. cbn. repeat split; auto.
      now rewrite <- !app_assoc. }
  unfold OutputStrategy.resolvePaths, OutputStrategy.ensureDir, bind in Hat.
  destruct (truthy_bool (overwriteSource options)) eqn:Hov.
  - unfold ret at 1 in Hat.
    cbn [OutputStrategy.outputPath OutputStrategy.backupPath truthy_string] in Hat.
    destruct (Hcore _ _ Hat)
      as (stat & s1 & detected & s2 & res & s3 & s4 & H1 & H2 & H3 & H4 & H5
          & H6 & H7 & H8 & H9 & H10 & H11 & H12).
    exists [], (temporary_sibling P p options), (ext_state w), stat, s1,
      detected, s2, res, s3, s4.
    cbn zeta. repeat split; auto.
  - destruct (truthy_string (outputDir options)) as [dir|] eqn:Hdir;
      [|discriminate].
    unfold perform at 1 in Hat.
    destruct (fs_mkdir_recursive P dir (ext_state w)) as [[[]|e] s0] eqn:Hmk;
      [|discriminate].
    unfold ret at 1 in Hat.
    cbn [OutputStrategy.outputPath OutputStrategy.backupPath truthy_string] in Hat.
    destruct (Hcore _ _ Hat)
      as (stat & s1 & detected & s2 & res & s3 & s4 & H1 & H2 & H3 & H4 & H5
          & H6 & H7 & H8 & H9 & H10 & H11 & H12).
    cbn [ext_state log] in H1, H12.
    eexists [EvMkdir dir], _, s0, stat, s1, detected, s2, res, s3, s4.
    cbn zeta. repeat split; auto.
    + exists dir. repeat split; auto.
    + exact H4.
    + exact H5.
    + rewrite H12. now rewrite <- !app_assoc.
Qed.

End HandlerResults.

Lemma success_means_finished_witness :
  exists (res : Report) (s3 : Mock.FS),
    sanitizer_of Mock.sanitizers Category.zip "/in/a.zip" "/out/a-clean.zip"
      sample_files = (Returned res, s3)
    /\ fs_utimes Mock.platform "/out/a-clean.zip" 1000%Z 1000%Z s3
       = (Returned tt, s3)
    /\ removed (success_result "/in/a.zip" "/out/a-clean.zip"
                  {| report_removed := ["ZIP 注释/附加头"];
                     report_type := "zip" |})
       = Some (report_removed res).
Proof.
  destruct (success_means_finished Mock.platform Mock.sanitizers to_directory
              "/in/a.zip" (Mock.start sample_files) _ _ eq_refl eq_refl eq_refl)
    as (prefix & out & s0 & stat & s1 & detected & s2 & res & s3 & s4 & Hmode
        & Hstat & Hsniff & _ & Hsan & Hut & _ & Hrem & _).
  cbn in Hmode. destruct Hmode as (dir & Hdir & -> & -> & Hmk & _ & _).
  injection Hdir as <-. injection Hmk as <-.
  vm_compute in Hstat. injection Hstat as <- <-.
  vm_compute in Hsniff. injection Hsniff as <- <-.
  exists res, s3. split; [exact Hsan|]. split; [|exact Hrem].
  pose proof Hut as Hut'. vm_compute in Hsan. injection Hsan as <- <-.
  vm_compute in Hut'. injection Hut' as <-. exact Hut.
Defined.

(** ** The office sanitizer: what is kept and what is replaced *)

(** *** More on JSZip's table *)

Lemma in_keys_lookup (n : string) (fs : list JSZip.ZipObject) :
  In n (map JSZip.name fs) <-> exists o, JSZip.lookup n fs = Some o.
Proof.
  split.
  - intros H. destruct (JSZip.lookup n fs) as [o|] eqn:E; [now exists o|].
    now apply lookup_none_not_key in E.
  - intros [o Ho]. destruct (lookup_name _ _ _ Ho) as [<- Hin]. now apply in_map.
Qed.

(** Filtering on the name either keeps all the entries of a name or none. *)
Lemma lookup_filter_by_name (q : string -> bool) (n : string)
    (fs : list JSZip.ZipObject) :
  JSZip.lookup n (filter (fun o => q (JSZip.name o)) fs)
  = if q n then JSZip.lookup n fs else None.
Proof.
  unfold JSZip.lookup. induction fs as [|x fs IH]; simpl.
  - now destruct (q n).
  - destruct (q (JSZip.name x)) eqn:Hq; simpl.
    + destruct (String.eqb_spec (JSZip.name x) n) as [<-|Hn].
      * now rewrite Hq.
      * exact IH.
    + destruct (String.eqb_spec (JSZip.name x) n) as [<-|Hn].
      * rewrite Hq in IH |- *. exact IH.
      * exact IH.
Qed.

(** The entries [folderAdd] adds are folders with a name that ends with a
    slash. *)
Lemma folderAdd_new (now : Date) (nm : string) (fs : list JSZip.ZipObject)
    (x : JSZip.ZipObject) :
  In x (JSZip.folderAdd now nm fs) ->
  In x fs \/ JSZip.ends_with_slash (JSZip.name x) = true.
Proof.
  funelim (JSZip.folderAdd now nm fs); intros Hx.
  - now left.
  - apply in_set_file in Hx as [->|Hx]; [right | now left].
    apply ends_with_slash_force.
  - apply in_set_file in Hx as [->|Hx]; [right | now apply H].
    apply ends_with_slash_force.
Qed.

(** [file(name, data, options)] for a file: the name holds the data; the
    entries under other names stay; a name that does not end with a slash
    holds what it held; the archive comment stays. *)
Lemma file_set_spec (now : Date) (nm : string) (content : Buffer)
    (o : JSZip.FileOptions) (z : JSZip.t) :
  JSZip.o_dir o = false ->
  let z' := JSZip.file_set now nm content o z in
  (exists x, JSZip.lookup nm (JSZip.files z') = Some x
             /\ JSZip.dir x = false
             /\ JSZip.async x = Returned content
             /\ JSZip.comment x = JSZip.o_comment o)
  /\ (forall n x, n <> nm ->
        JSZip.lookup n (JSZip.files z) = Some x ->
        JSZip.lookup n (JSZip.files z') = Some x)
  /\ (forall n, n <> nm -> JSZip.ends_with_slash n = false ->
        JSZip.lookup n (JSZip.files z') = JSZip.lookup n (JSZip.files z))
  /\ (forall n, In n (JSZip.keys z) -> In n (JSZip.keys z'))
  /\ JSZip.zip_comment z' = JSZip.zip_comment z.
Proof.
  intros Hdir. cbn zeta. unfold JSZip.file_set, JSZip.fileAdd.
  rewrite Hdir. cbn [JSZip.files JSZip.zip_comment orb].
  set (fs' := if JSZip.o_createFolders o then _ else JSZip.files z).
  assert (Hkeep : forall n x, JSZip.lookup n (JSZip.files z) = Some x ->
                              JSZip.lookup n fs' = Some x).
  { unfold fs'. destruct (JSZip.o_createFolders o); [|auto].
    destruct (JSZip.parentFolder nm); [auto|]. apply folderAdd_spec. }
  assert (Hnew : forall x, In x fs' ->
            In x (JSZip.files z) \/ JSZip.ends_with_slash (JSZip.name x) = true).
  { unfold fs'. destruct (JSZip.o_createFolders o); [|auto].
    destruct (JSZip.parentFolder nm); [auto|]. apply folderAdd_new. }
  set (obj := {| JSZip.name := nm; JSZip.dir := false |}).
  assert (Hobj : JSZip.lookup nm (JSZip.set_file obj fs') = Some obj).
  { rewrite lookup_set_file. unfold obj at 1. cbn [JSZip.name].
    now rewrite String.eqb_refl. }
  assert (Hother : forall n x, n <> nm ->
            JSZip.lookup n (JSZip.files z) = Some x ->
            JSZip.lookup n (JSZip.set_file obj fs') = Some x).
  { intros n x Hn Hx. rewrite lookup_set_file. unfold obj at 1. cbn [JSZip.name].
    destruct (String.eqb_spec nm n); [congruence | now apply Hkeep]. }
  repeat split.
  - exists obj. repeat split; auto.
    unfold obj, JSZip.async. cbn [JSZip.data]. now destruct content.
  - exact Hother.
  - intros n Hn Hslash.
    destruct (JSZip.lookup n (JSZip.files z)) as [x|] eqn:E; [now apply Hother|].
    rewrite lookup_set_file. unfold obj at 1. cbn [JSZip.name].
    destruct (String.eqb_spec nm n); [congruence|].
    destruct (JSZip.lookup n fs') as [x|] eqn:E'; [exfalso | reflexivity].
    destruct (lookup_name _ _ _ E') as [Hname Hin].
    destruct (Hnew x Hin) as [Hold|Hs]; [|congruence].
    apply (lookup_none_not_key n _ E). rewrite <- Hname. now apply in_map.
  - unfold JSZip.keys. cbn [JSZip.files]. intros n Hn.
    apply in_keys_lookup. apply in_keys_lookup in Hn as [x Hx].
    destruct (string_dec n nm) as [->|Hne]; [now exists obj|].
    exists x. now apply Hother.
Qed.

(** *** [removeCommon]: the rest of the archive *)

Lemma filter_filter {A : Type} (p q : A -> bool) (l : list A) :
  filter q (filter p l) = filter (fun x => p x && q x) l.
Proof.
  induction l as [|x l IH]; simpl; [reflexivity|].
  destruct (p x); simpl; [destruct (q x)|]; now rewrite IH.
Qed.

Lemma prefix_trans (a b c : string) :
  String.prefix a b = true -> String.prefix b c = true ->
  String.prefix a c = true.
Proof.
  revert b c; induction a as [|x a IH]; intros b c Hab Hbc;
    [now destruct c|].
  destruct b as [|y b]; [discriminate|]. destruct c as [|z c]; [discriminate|].
  simpl in *.
  destruct (ascii_dec x y) as [->|]; [|discriminate].
  destruct (ascii_dec y z) as [->|]; [|discriminate].
  now apply (IH b c).
Qed.

Lemma prefix_append (a b : string) : String.prefix a (a ++ b) = true.
Proof.
  induction a as [|x a IH]; simpl; [now destruct b|].
  destruct (ascii_dec x x) as [_|N]; [exact IH | now contradiction N].
Qed.

(** [remove(f)] takes away only entries named [f] or under [f], so only
    entries under any prefix of [f]. *)
Lemma remove_as_filter (pre f : string) (z : JSZip.t) :
  String.prefix pre f = true ->
  exists keep : JSZip.ZipObject -> bool,
    JSZip.files (JSZip.remove f z) = filter keep (JSZip.files z)
    /\ (forall o, keep o = false -> String.prefix pre (JSZip.name o) = true)
    /\ JSZip.zip_comment (JSZip.remove f z) = JSZip.zip_comment z.
Proof.
  intros Hpre. unfold JSZip.remove.
  assert (Hslash : String.prefix pre
            (if JSZip.ends_with_slash f then f else (f ++ "/")%string) = true).
  { destruct (JSZip.ends_with_slash f); [exact Hpre|].
    apply (prefix_trans pre f); [exact Hpre | apply prefix_append]. }
  assert (Hone : forall nm o, String.prefix pre nm = true ->
            negb (String.eqb (JSZip.name o) nm) = false ->
            String.prefix pre (JSZip.name o) = true).
  { intros nm o Hnm Ho. apply negb_false_iff, String.eqb_eq in Ho. now rewrite Ho. }
  assert (Hkids : forall nm o, String.prefix pre nm = true ->
            negb (negb (String.eqb (JSZip.name o) "")
                  && String.prefix nm (JSZip.name o)) = false ->
            String.prefix pre (JSZip.name o) = true).
  { intros nm o Hnm Ho. apply negb_false_iff, andb_true_iff in Ho as [_ Ho].
    now apply (prefix_trans pre nm). }
  destruct (JSZip.lookup f (JSZip.files z)) as [e|].
  - destruct (JSZip.dir e); eexists; cbn [JSZip.files JSZip.zip_comment];
      (split; [reflexivity | split; [|reflexivity]]); intros o Ho;
      [now apply (Hkids f) | now apply (Hone f)].
  - destruct (JSZip.lookup _ (JSZip.files z)) as [e|];
      [destruct (JSZip.dir e)|]; eexists;
      cbn [JSZip.files JSZip.zip_comment];
      (split; [reflexivity | split; [|reflexivity]]); intros o Ho;
      solve [ eapply Hkids; [exact Hslash | exact Ho]
            | eapply Hone; [exact Hslash | exact Ho] ].
Qed.

Lemma fold_remove_as_filter (pre : string) (ks : list string) (z : JSZip.t) :
  Forall (fun f => String.prefix pre f = true) ks ->
  exists keep : JSZip.ZipObject -> bool,
    JSZip.files (fold_left (fun z f => JSZip.remove f z) ks z)
    = filter keep (JSZip.files z)
    /\ (forall o, keep o = false -> String.prefix pre (JSZip.name o) = true)
    /\ JSZip.zip_comment (fold_left (fun z f => JSZip.remove f z) ks z)
       = JSZip.zip_comment z.
Proof.
  revert z; induction ks as [|k ks IH]; intros z Hks; simpl.
  - exists (fun _ => true). repeat split; [|discriminate].
    induction (JSZip.files z) as [|x l IHl]; simpl; congruence.
  - inversion Hks as [|? ? Hk Hks']; subst.
    destruct (remove_as_filter pre k z Hk) as (k1 & H1 & K1 & C1).
    destruct (IH (JSZip.remove k z) Hks') as (k2 & H2 & K2 & C2).
    exists (fun o => k1 o && k2 o). repeat split.
    + now rewrite H2, H1, filter_filter.
    + intros o Ho. apply andb_false_iff in Ho as [Ho|Ho]; auto.
    + now rewrite C2, C1.
Qed.

(** A filter that drops only entries with [q], and leaves none with [q], is
    the filter on [q]. *)
Lemma filter_determined {A : Type} (keep q : A -> bool) (l : list A) :
  (forall x, keep x = false -> q x = true) ->
  (forall x, In x (filter keep l) -> q x = false) ->
  filter keep l = filter (fun x => negb (q x)) l.
Proof.
  intros Hdrop Hleft. induction l as [|x l IH]; simpl; [reflexivity|].
  simpl in Hleft. destruct (keep x) eqn:Hk.
  - rewrite (Hleft x (or_introl eq_refl)). simpl. f_equal.
    apply IH. intros y Hy. apply Hleft. now right.
  - rewrite (Hdrop x Hk). simpl. now apply IH.
Qed.

Lemma common_removals_files (names : list string) :
  NoDup names ->
  forall (z : JSZip.t) (removed : list string),
    JSZip.files (fst (fold_left remove_if_file names (z, removed)))
    = filter (fun o => negb (includes (filter (is_file z) names) (JSZip.name o)))
        (JSZip.files z)
    /\ JSZip.zip_comment (fst (fold_left remove_if_file names (z, removed)))
       = JSZip.zip_comment z.
Proof.
  induction names as [|n rest IH]; intros Hnd z removed; simpl.
  - split; [|reflexivity].
    induction (JSZip.files z) as [|x l IHl]; simpl; congruence.
  - inversion Hnd as [|? ? Hn Hrest]; subst.
    unfold is_file at 1.
    destruct (JSZip.file_get n z) as [o|] eqn:E.
    + rewrite (remove_file n z o E).
      destruct (IH Hrest (delete_name n z) (removed ++ [n])) as [H1 H2].
      rewrite H1, H2. split; [|reflexivity].
      unfold delete_name at 2. cbn [JSZip.files]. rewrite filter_filter.
      apply filter_ext. intros x.
      replace (filter (is_file (delete_name n z)) rest)
        with (filter (is_file z) rest).
      * unfold includes. cbn [existsb]. rewrite negb_orb.
        rewrite (String.eqb_sym (JSZip.name x) n). reflexivity.
      * apply filter_ext_in. intros e He. unfold is_file, JSZip.file_get.
        rewrite lookup_delete_other; [reflexivity|].
        intros ->. contradiction.
    + apply (IH Hrest).
Qed.

Lemma removeCommon_files (zip : JSZip.t) (removed : list string) :
  JSZip.files (fst (removeCommon (zip, removed)))
  = filter (fun o => negb (removed_by_removeCommon zip o)) (JSZip.files zip)
  /\ JSZip.zip_comment (fst (removeCommon (zip, removed)))
     = JSZip.zip_comment zip.
Proof.
  destruct common_removals_distinct as [Hnd Hpre].
  destruct (common_removals_files COMMON_REMOVALS Hnd zip removed) as [Hf Hc].
  unfold removeCommon.
  destruct (fold_left remove_if_file COMMON_REMOVALS (zip, removed)) as [z1 r1].
  cbn [fst snd] in *. rewrite custom_removals_step. cbn [fst snd].
  set (ks := filter (String.prefix CUSTOM_XML_PREFIX) (JSZip.keys z1)).
  assert (Hks : Forall (fun f => String.prefix CUSTOM_XML_PREFIX f = true) ks).
  { apply Forall_forall. intros f Hfin. now apply filter_In in Hfin. }
  destruct (fold_remove_as_filter CUSTOM_XML_PREFIX ks z1 Hks)
    as (keep & Hkeep & Hdrop & Hcomment).
  split; [|now rewrite Hcomment].
  rewrite Hkeep.
  rewrite (filter_determined keep
             (fun o => String.prefix CUSTOM_XML_PREFIX (JSZip.name o))).
  - rewrite Hf, filter_filter. apply filter_ext. intros o.
    unfold removed_by_removeCommon. now rewrite negb_orb.
  - exact Hdrop.
  - intros x Hx. rewrite <- Hkeep in Hx.
    destruct (String.prefix CUSTOM_XML_PREFIX (JSZip.name x)) eqn:Hp;
      [exfalso | reflexivity].
    assert (Hin : In (JSZip.name x)
                    (JSZip.keys (fold_left (fun z f => JSZip.remove f z) ks z1)))
      by (unfold JSZip.keys; now apply in_map).
    assert (Hn : JSZip.name x <> "") by (intros E; rewrite E in Hp; discriminate).
    refine (fold_remove_absent ks z1 _ _ Hn Hin).
    apply filter_In. split; [|exact Hp].
    now apply fold_remove_incl in Hin.
Qed.

(** X4.  What [removeCommon] leaves: exactly the entries of the archive that
    are neither under "customXml/" nor one of the fixed names that
    [file(name)] found, in their order and unchanged, so that a name that is
    not removed holds what it held; the archive comment is not touched. *)
Theorem removeCommon_keeps_the_rest (zip : JSZip.t) (removed : list string) :
  let zip' := fst (removeCommon (zip, removed)) in
  JSZip.files zip'
  = filter (fun o => negb (removed_by_removeCommon zip o)) (JSZip.files zip)
  /\ (forall n o,
        JSZip.lookup n (JSZip.files zip') = Some o <->
        JSZip.lookup n (JSZip.files zip) = Some o
        /\ removed_by_removeCommon zip o = false)
  /\ JSZip.zip_comment zip' = JSZip.zip_comment zip.
Proof.
  cbn zeta. destruct (removeCommon_files zip removed) as [Hf Hc].
  repeat split; auto.
  - rewrite Hf in H.
    unfold removed_by_removeCommon in H.
    rewrite (lookup_filter_by_name
               (fun n => negb (includes (filter (is_file zip) COMMON_REMOVALS) n
                               || String.prefix CUSTOM_XML_PREFIX n))) in H.
    now destruct (negb _).
  - rewrite Hf in H. apply lookup_name in H as [_ H].
    apply filter_In in H as [_ H]. now apply negb_true_iff.
  - intros [Ho Hr]. rewrite Hf.
    unfold removed_by_removeCommon in *.
    rewrite (lookup_filter_by_name
               (fun n => negb (includes (filter (is_file zip) COMMON_REMOVALS) n
                               || String.prefix CUSTOM_XML_PREFIX n))).
    destruct (lookup_name _ _ _ Ho) as [<- _]. now rewrite Hr.
Qed.

Lemma includes_In (l : list string) (x : string) :
  includes l x = true <-> In x l.
Proof.
  unfold includes. rewrite existsb_exists. split.
  - intros (y & Hy & E). apply String.eqb_eq in E. now subst.
  - intros H. exists x. split; [exact H | apply String.eqb_refl].
Qed.

Lemma remove_if_file_none (names : list string) (zr : Edit) :
  (forall n, In n names -> JSZip.file_get n (fst zr) = None) ->
  fold_left remove_if_file names zr = zr.
Proof.
  induction names as [|n rest IH]; intros H; simpl; [reflexivity|].
  destruct zr as [z r]. unfold remove_if_file at 2.
  pose proof (H n (or_introl eq_refl)) as Hn. cbn [fst] in Hn. rewrite Hn.
  apply IH. intros m Hm. apply H. now right.
Qed.

Lemma filter_none {A : Type} (q : A -> bool) (l : list A) :
  (forall x, In x l -> q x = false) -> filter q l = [].
Proof.
  induction l as [|x l IH]; intros H; simpl; [reflexivity|].
  rewrite (H x (or_introl eq_refl)). apply IH. intros y Hy. apply H. now right.
Qed.

(** X5.  [removeCommon] is idempotent: on an archive it has been through it
    removes nothing and reports nothing. *)
Theorem removeCommon_twice (zip : JSZip.t) (removed again : list string) :
  removeCommon (fst (removeCommon (zip, removed)), again)
  = (fst (removeCommon (zip, removed)), again).
Proof.
  destruct common_removals_distinct as [_ Hpre].
  destruct (removeCommon_files zip removed) as [Hf _].
  set (z' := fst (removeCommon (zip, removed))) in *.
  assert (Hlook : forall n,
            JSZip.lookup n (JSZip.files z')
            = if negb (includes (filter (is_file zip) COMMON_REMOVALS) n
                       || String.prefix CUSTOM_XML_PREFIX n)
              then JSZip.lookup n (JSZip.files zip) else None).
  { intros n. rewrite Hf. unfold removed_by_removeCommon.
    apply (lookup_filter_by_name
             (fun n => negb (includes (filter (is_file zip) COMMON_REMOVALS) n
                             || String.prefix CUSTOM_XML_PREFIX n))). }
  unfold removeCommon at 1.
  rewrite remove_if_file_none.
  - cbn [fst]. rewrite filter_none; [reflexivity|].
    intros n Hn. apply in_keys_lookup in Hn as [o Ho].
    rewrite Hlook in Ho.
    destruct (String.prefix CUSTOM_XML_PREFIX n); [|reflexivity].
    rewrite orb_true_r in Ho. discriminate.
  - cbn [fst]. intros n Hn. unfold JSZip.file_get. rewrite Hlook.
    destruct (is_file zip n) eqn:Hfile.
    + assert (Hi : includes (filter (is_file zip) COMMON_REMOVALS) n = true).
      { apply includes_In, filter_In. now split. }
      now rewrite Hi.
    + destruct (negb _); [|reflexivity].
      unfold is_file, JSZip.file_get in Hfile.
      destruct (JSZip.lookup n (JSZip.files zip)) as [o|]; [|reflexivity].
      destruct (JSZip.dir o); [reflexivity | discriminate].
Qed.

(** *** The steps for the three formats *)

Section OfficeSteps.
Context {St : Type} (P : Platform St).

Lemma write_text_run (fileName content : string) (zip : JSZip.t)
    (w : World St) :
  write_text P fileName content zip w
  = (Returned (JSZip.file_set (fst (date_now P (ext_state w))) fileName
                 (list_byte_of_string content) JSZip.defaults zip),
     {| ext_state := snd (date_now P (ext_state w)); log := log w |}).
Proof.
  unfold write_text, bind, new_Date, ret.
  now destruct (date_now P (ext_state w)).
Qed.

Lemma write_text_holds (now : Date) (f content : string) (z : JSZip.t) :
  holds_text
    (JSZip.file_set now f (list_byte_of_string content) JSZip.defaults z)
    f content.
Proof.
  destruct (file_set_spec now f (list_byte_of_string content) JSZip.defaults z
              eq_refl) as ((x & Hx & Hd & Ha & _) & _).
  now exists x.
Qed.

Lemma clear_each_run (content : string) (names : list string) :
  forall (zr : Edit) (w : World St),
  exists (zr' : Edit) (w' : World St),
    clear_each P content names zr w = (Returned zr', w')
    /\ log w' = log w
    /\ snd zr' = snd zr ++ map (fun f => (f ++ " cleared")%string) names
    /\ (forall f, In f names -> holds_text (fst zr') f content)
    /\ (forall n o, ~ In n names ->
          JSZip.lookup n (JSZip.files (fst zr)) = Some o ->
          JSZip.lookup n (JSZip.files (fst zr')) = Some o)
    /\ (forall n, In n (JSZip.keys (fst zr)) -> In n (JSZip.keys (fst zr')))
    /\ JSZip.zip_comment (fst zr') = JSZip.zip_comment (fst zr).
Proof.
  induction names as [|f rest IH]; intros zr w.
  - exists zr, w. cbn. rewrite app_nil_r. repeat split; auto. contradiction.
  - cbn [clear_each]. unfold bind. rewrite write_text_run.
    set (now := fst (date_now P (ext_state w))).
    set (z1 := JSZip.file_set now f (list_byte_of_string content)
                 JSZip.defaults (fst zr)).
    destruct (file_set_spec now f (list_byte_of_string content) JSZip.defaults
                (fst zr) eq_refl) as (_ & Hkeep & _ & Hkeys & Hcomment).
    fold z1 in Hkeep, Hkeys, Hcomment.
    pose proof (write_text_holds now f content (fst zr)) as Hf. fold z1 in Hf.
    destruct (IH (z1, snd zr ++ [(f ++ " cleared")%string])
                {| ext_state := snd (date_now P (ext_state w)); log := log w |})
      as (zr' & w' & Hrun & Hlog & Hrep & Hall & Hrest & Hk & Hc).
    cbn [fst snd log] in *.
    exists zr', w'. rewrite Hrun. repeat split; auto.
    + rewrite Hrep, <- app_assoc. reflexivity.
    + intros g [<-|Hg]; [|now apply Hall].
      destruct (in_dec string_dec f rest) as [Hin|Hout]; [now apply Hall|].
      destruct Hf as (x & Hx & Hd & Ha). exists x. auto.
    + intros n o Hn Ho. apply Hrest; [intros Hr; apply Hn; now right|]. apply Hkeep; [|exact Ho].
      intros ->. apply Hn. now left.
Qed.

(** X6.  [processXlsx] and [processPptx] always return, call nothing outside,
    and empty the comment parts: for every entry name under "xl/comments"
    (under "ppt/comments") the report gains "name cleared", in key order, the
    name is afterwards a file that holds the empty comment list, and
    everything else of the archive is kept. *)
Theorem comment_parts_are_emptied (zr : Edit) (w : World St) :
  (exists (zr' : Edit) (w' : World St),
     processXlsx P zr w = (Returned zr', w')
     /\ log w' = log w
     /\ comments_cleared "xl/comments" EMPTY_XLSX_COMMENTS zr zr')
  /\ (exists (zr' : Edit) (w' : World St),
        processPptx P zr w = (Returned zr', w')
        /\ log w' = log w
        /\ comments_cleared "ppt/comments" EMPTY_PPT_COMMENTS zr zr').
Proof.
  split.
  - destruct (clear_each_run EMPTY_XLSX_COMMENTS
                (filter (String.prefix "xl/comments") (JSZip.keys (fst zr))) zr w)
      as (zr' & w' & Hrun & Hlog & H).
    exists zr', w'. split; [exact Hrun|]. split; [exact Hlog | exact H].
  - destruct (clear_each_run EMPTY_PPT_COMMENTS
                (filter (String.prefix "ppt/comments") (JSZip.keys (fst zr))) zr w)
      as (zr' & w' & Hrun & Hlog & H).
    exists zr', w'. split; [exact Hrun|]. split; [exact Hlog | exact H].
Qed.

Lemma clearIfExists_run (f content : string) (zr : Edit) (w : World St) :
  exists (zr' : Edit) (w' : World St),
    clearIfExists P f content zr w = (Returned zr', w')
    /\ log w' = log w
    /\ snd zr' = snd zr
                 ++ map (fun f => (f ++ " cleared")%string)
                      (filter (is_file (fst zr)) [f])
    /\ (is_file (fst zr) f = true -> holds_text (fst zr') f content)
    /\ (forall n o, n <> f ->
          JSZip.lookup n (JSZip.files (fst zr)) = Some o ->
          JSZip.lookup n (JSZip.files (fst zr')) = Some o)
    /\ (forall n, n <> f -> JSZip.ends_with_slash n = false ->
          JSZip.lookup n (JSZip.files (fst zr'))
          = JSZip.lookup n (JSZip.files (fst zr)))
    /\ (forall n, In n (JSZip.keys (fst zr)) -> In n (JSZip.keys (fst zr')))
    /\ JSZip.zip_comment (fst zr') = JSZip.zip_comment (fst zr).
Proof.
  destruct zr as [z r]. unfold clearIfExists. cbn [filter fst snd]. unfold is_file.
  destruct (JSZip.file_get f z) as [o|].
  - unfold bind. rewrite write_text_run. unfold ret.
    set (now := fst (date_now P (ext_state w))).
    destruct (file_set_spec now f (list_byte_of_string content) JSZip.defaults
                z eq_refl) as (_ & Hkeep & Hsame & Hkeys & Hcomment).
    pose proof (write_text_holds now f content z) as Hf.
    eexists; eexists. split; [reflexivity|]. cbn [fst snd log map].
    repeat split; auto.
  - exists (z, r), w. cbn. rewrite app_nil_r. repeat split; auto. discriminate.
Qed.

(** X7.  [processDocx].  The two comment parts, where they are files, are
    given the empty comment list as content and reported as cleared, in that
    order.  Then the settings, where they are a file, are read: when they
    cannot be, the step fails with that error; when the two replacements
    change them, they are written back changed and the marker is reported
    last; when they do not, the settings entry is the one it was and nothing
    is reported for it.  Nothing else of the archive changes, and nothing
    outside is called. *)
Theorem processDocx_clears_and_strips (zr : Edit) (w : World St) :
  let cleared :=
    map (fun f => (f ++ " cleared")%string)
      (filter (is_file (fst zr))
         ["word/comments.xml"; "word/commentsExtended.xml"]) in
  log (snd (processDocx P zr w)) = log w
  /\ match JSZip.file_get "word/settings.xml" (fst zr) with
     | None =>
         exists zr' : Edit,
           fst (processDocx P zr w) = Returned zr'
           /\ docx_cleared (fst zr) (fst zr')
           /\ snd zr' = snd zr ++ cleared
     | Some settings =>
         match JSZip.async settings with
         | Threw e => fst (processDocx P zr w) = Threw e
         | Returned bytes =>
             let xml := string_of_list_byte bytes in
             exists zr' : Edit,
               fst (processDocx P zr w) = Returned zr'
               /\ docx_cleared (fst zr) (fst zr')
               /\ if String.eqb (cleaned_settings P xml) xml
                  then snd zr' = snd zr ++ cleared
                       /\ JSZip.lookup "word/settings.xml" (JSZip.files (fst zr'))
                          = Some settings
                  else snd zr'
                       = snd zr ++ cleared ++ ["word/settings.xml trackRevisions"]
                       /\ holds_text (fst zr') "word/settings.xml"
                            (cleaned_settings P xml)
         end
     end.
Proof.
  cbn zeta. unfold processDocx, bind.
  destruct (clearIfExists_run "word/comments.xml" EMPTY_WORD_COMMENTS zr w)
    as (zr1 & w1 & Hrun1 & Hlog1 & Hrep1 & Hf1 & Hkeep1 & Hsame1 & Hkeys1 & Hc1).
  rewrite Hrun1.
  destruct (clearIfExists_run "word/commentsExtended.xml" EMPTY_WORD_COMMENTS
              zr1 w1)
    as (zr2 & w2 & Hrun2 & Hlog2 & Hrep2 & Hf2 & Hkeep2 & Hsame2 & Hkeys2 & Hc2).
  rewrite Hrun2.
  assert (Hfile2 : is_file (fst zr1) "word/commentsExtended.xml"
                   = is_file (fst zr) "word/commentsExtended.xml").
  { unfold is_file, JSZip.file_get. rewrite Hsame1; [reflexivity | discriminate
                                                     | reflexivity]. }
  cbn [filter] in Hrep1, Hrep2. rewrite Hfile2 in Hrep2, Hf2.
  assert (Hreport : snd zr2
                    = snd zr
                      ++ map (fun f => (f ++ " cleared")%string)
                           (filter (is_file (fst zr))
                              ["word/comments.xml"; "word/commentsExtended.xml"])).
  { rewrite Hrep2, Hrep1, <- app_assoc. f_equal. cbn [filter].
    destruct (is_file (fst zr) "word/comments.xml"),
             (is_file (fst zr) "word/commentsExtended.xml"); reflexivity. }
  assert (Hsettings : JSZip.lookup "word/settings.xml" (JSZip.files (fst zr2))
                      = JSZip.lookup "word/settings.xml" (JSZip.files (fst zr))).
  { rewrite Hsame2, Hsame1; (reflexivity || discriminate). }
  assert (Hcleared : docx_cleared (fst zr) (fst zr2)).
  { repeat split.
    - intros f [<-|[<-|[]]] Hfile.
      + destruct (Hf1 Hfile) as (x & Hx & Hd & Ha).
        exists x. repeat split; auto. apply Hkeep2; [discriminate | exact Hx].
      + now apply Hf2.
    - intros n o Hn Ho. apply Hkeep2; [intros ->; apply Hn; simpl; tauto|].
      apply Hkeep1; [intros ->; apply Hn; simpl; tauto | exact Ho].
    - auto.
    - congruence. }
  assert (Hget : JSZip.file_get "word/settings.xml" (fst zr2)
                 = JSZip.file_get "word/settings.xml" (fst zr)).
  { unfold JSZip.file_get. now rewrite Hsettings. }
  destruct zr2 as [z2 r2]. cbn [fst snd] in *.
  unfold stripTrackRevisions. rewrite Hget.
  destruct (JSZip.file_get "word/settings.xml" (fst zr)) as [settings|] eqn:Hs.
  - unfold bind, settle.
    destruct (JSZip.async settings) as [bytes|e];
      [|cbn [fst snd]; split; [now rewrite Hlog2 | reflexivity]].
    fold (cleaned_settings P (string_of_list_byte bytes)).
    destruct (String.eqb (cleaned_settings P (string_of_list_byte bytes))
                (string_of_list_byte bytes)).
    + cbn [negb]. unfold ret. cbn [fst snd]. split; [now rewrite Hlog2|].
      exists (z2, r2). split; [reflexivity|]. split; [exact Hcleared|].
      split; [exact Hreport|]. cbn [fst]. rewrite Hsettings.
      unfold JSZip.file_get in Hs.
      destruct (JSZip.lookup "word/settings.xml" (JSZip.files (fst zr)))
        as [o|]; [|discriminate].
      destruct (JSZip.dir o); [discriminate | exact Hs].
    + cbn [negb]. rewrite write_text_run. unfold ret. cbn [fst snd log].
      split; [now rewrite Hlog2|].
      set (now := fst (date_now P (ext_state w2))).
      set (cleaned := cleaned_settings P (string_of_list_byte bytes)).
      destruct (file_set_spec now "word/settings.xml"
                  (list_byte_of_string cleaned) JSZip.defaults z2 eq_refl)
        as (_ & Hkeep3 & _ & Hkeys3 & Hc3).
      destruct Hcleared as (Hcl & Hrest & Hkeys & Hcomment).
      eexists. split; [reflexivity|]. cbn [fst snd].
      split; [|split; [now rewrite Hreport, <- app_assoc
                      | apply write_text_holds]].
      repeat split.
      * intros f Hin Hfile.
        destruct (Hcl f Hin Hfile) as (x & Hx & Hd & Ha).
        exists x. repeat split; auto. apply Hkeep3; [|exact Hx].
        destruct Hin as [<-|[<-|[]]]; discriminate.
      * intros n o Hn Ho. apply Hkeep3; [intros ->; apply Hn; simpl; tauto|].
        now apply Hrest.
      * intros n Hn. apply Hkeys3. now apply Hkeys.
      * now rewrite Hc3.
  - unfold ret. cbn [fst snd]. split; [now rewrite Hlog2|]. exists (z2, r2). auto.
Qed.

End OfficeSteps.

(** *** The calls of [processOffice] and of [processZip] *)

Section ArchiveCalls.
Context {St : Type} (P : Platform St).

Lemma clearIfExists_silent (f content : string) (zr : Edit) (w : World St) :
  log (snd (clearIfExists P f content zr w)) = log w.
Proof.
  destruct (clearIfExists_run P f content zr w) as (zr' & w' & -> & Hlog & _).
  exact Hlog.
Qed.

Lemma format_step_silent (ext : string) (zr : Edit) (w : World St) :
  log (snd ((if String.eqb ext ".docx" then processDocx P zr
             else if String.eqb ext ".xlsx" then processXlsx P zr
             else if String.eqb ext ".pptx" then processPptx P zr
             else ret zr) w)) = log w.
Proof.
  destruct (String.eqb ext ".docx").
  - unfold processDocx, bind.
    pose proof (clearIfExists_silent "word/comments.xml" EMPTY_WORD_COMMENTS zr w)
      as H1.
    destruct (clearIfExists P "word/comments.xml" EMPTY_WORD_COMMENTS zr w)
      as [[zr1|e] w1]; [|exact H1].
    pose proof (clearIfExists_silent "word/commentsExtended.xml"
                  EMPTY_WORD_COMMENTS zr1 w1) as H2.
    destruct (clearIfExists P "word/commentsExtended.xml" EMPTY_WORD_COMMENTS
                zr1 w1) as [[[z2 r2]|e] w2]; cbn [fst snd] in *; [|congruence].
    unfold stripTrackRevisions.
    destruct (JSZip.file_get "word/settings.xml" z2) as [settings|];
      [|cbn; congruence].
    unfold bind, settle.
    destruct (JSZip.async settings) as [bytes|e]; [|cbn; congruence].
    destruct (negb _); [|cbn; congruence].
    rewrite write_text_run. cbn. congruence.
  - destruct (String.eqb ext ".xlsx"); [|destruct (String.eqb ext ".pptx")].
    + unfold processXlsx.
      now destruct (clear_each_run P EMPTY_XLSX_COMMENTS
                      (filter (String.prefix "xl/comments") (JSZip.keys (fst zr)))
                      zr w) as (zr' & w' & -> & Hlog & _).
    + unfold processPptx.
      now destruct (clear_each_run P EMPTY_PPT_COMMENTS
                      (filter (String.prefix "ppt/comments") (JSZip.keys (fst zr)))
                      zr w) as (zr' & w' & -> & Hlog & _).
    + reflexivity.
Qed.

Lemma sanitize_and_write_calls (ext outputPath : string) (zip : JSZip.t)
    (w : World St) :
  exists (result : Buffer) (n : nat),
    log (snd (sanitize_and_write P ext outputPath zip w))
    = log w ++ firstn n [EvGenerateZip; EvWriteFile outputPath result]
    /\ match fst (sanitize_and_write P ext outputPath zip w) with
       | Returned report => n = 2 /\ report_type report = "office"
       | Threw _ => True
       end.
Proof.
  unfold sanitize_and_write, bind, perform.
  pose proof (format_step_silent ext (removeCommon (zip, [])) w) as Hstep.
  match type of Hstep with
  | log (snd (?step w)) = _ => destruct (step w) as [[zr|e] w1]
  end; cbn [fst snd] in Hstep.
  - rewrite <- Hstep. unfold ret.
    destruct (JSZip_generateAsync P (fst zr) JSZip.DEFLATE) as [result|e];
      cbn [fst snd log ext_state].
    + exists result.
      destruct (fs_writeFile P outputPath result (ext_state w1)) as [[[]|e] s];
        cbn [fst snd log]; exists 2; rewrite <- ?app_assoc; auto.
    + exists [], 1. auto.
  - exists [], 0. cbn. now rewrite app_nil_r.
Qed.

(** X8.  The calls [processOffice] makes are an initial part of: read the
    input, parse what was read, serialise, write the result to the
    destination.  It makes all four when it returns, and what it returns has
    the type "office".  So the destination is written at most once, as the
    last thing done, and the input is only read.  When the parser rejects
    what was read, the error is the fixed message about a damaged or legacy
    file, whatever the parser's own error was, and nothing is written. *)
Theorem processOffice_calls (inputPath outputPath : string) (w : World St) :
  (exists (buffer result : Buffer) (n : nat),
     log (snd (processOffice P inputPath outputPath w))
     = log w ++ firstn n (archive_calls inputPath outputPath buffer result)
     /\ match fst (processOffice P inputPath outputPath w) with
        | Returned report => n = 4 /\ report_type report = "office"
        | Threw _ => True
        end)
  /\ (forall (buffer : Buffer) (s : St) (e : Thrown),
        includes [".doc"; ".xls"; ".ppt"] (tested_ext P inputPath) = false ->
        fs_readFile P inputPath (ext_state w) = (Returned buffer, s) ->
        JSZip_loadAsync P buffer = Threw e ->
        processOffice P inputPath outputPath w
        = (Threw (JsError
             "无法解析该 Office 文件，可能文件已损坏或为不支持的旧版二进制格式。"),
           {| ext_state := s;
              log := log w ++ [EvReadFile inputPath; EvLoadZip buffer] |})).
Proof.
  split.
  - destruct (processOffice P inputPath outputPath w) as [r w'] eqn:Hrun.
    cbn [fst snd]. unfold processOffice in Hrun.
    fold (tested_ext P inputPath) in Hrun.
    destruct (includes _ (tested_ext P inputPath)).
    + injection Hrun as <- <-. exists [], [], 0. cbn. now rewrite app_nil_r.
    + unfold bind, try_catch, perform, throw in Hrun.
      destruct (fs_readFile P inputPath (ext_state w)) as [[buffer|e] s].
      * cbn [ext_state log] in Hrun.
        destruct (JSZip_loadAsync P buffer) as [zip|e].
        -- destruct (sanitize_and_write_calls (tested_ext P inputPath)
                       outputPath zip
                       {| ext_state := s;
                          log := (log w ++ [EvReadFile inputPath])
                                 ++ [EvLoadZip buffer] |})
             as (result & n & Hlog & Hret).
           rewrite Hrun in Hlog, Hret. cbn [fst snd log] in Hlog, Hret.
           exists buffer, result, (2 + n). rewrite Hlog.
           split; [now rewrite <- !app_assoc|].
           destruct r; [|exact I]. destruct Hret as [-> Ht]. auto.
        -- injection Hrun as <- <-. exists buffer, [], 2. cbn.
           now rewrite <- app_assoc.
      * injection Hrun as <- <-. exists [], [], 1. cbn. auto.
  - intros buffer s e Hext Hread Hload. unfold processOffice.
    fold (tested_ext P inputPath). rewrite Hext.
    unfold bind, try_catch, perform, throw. rewrite Hread. cbn [ext_state log].
    rewrite Hload. now rewrite <- app_assoc.
Qed.

Import ZipProcessor.

Lemma rebuild_silent (entries : list JSZip.ZipObject) :
  forall (z : JSZip.t) (w : World St),
    log (snd (rebuild P entries z w)) = log w.
Proof.
  induction entries as [|e rest IH]; intros z w; [reflexivity|].
  cbn [rebuild]. unfold bind, settle, new_Date.
  destruct (JSZip.dir e).
  - destruct (date_now P (ext_state w)) as [now s]. now rewrite IH.
  - destruct (JSZip.async e) as [content|err]; [|reflexivity].
    destruct (date_now P (ext_state w)) as [now s]. now rewrite IH.
Qed.

Lemma rebuild_reads_all (entries : list JSZip.ZipObject) :
  forall (z : JSZip.t) (w : World St) (z' : JSZip.t) (w' : World St),
    rebuild P entries z w = (Returned z', w') ->
    forall e, In e entries -> JSZip.dir e = false ->
              exists content, JSZip.async e = Returned content.
Proof.
  induction entries as [|x rest IH]; intros z w z' w' Hrun e Hin Hdir;
    [contradiction|].
  cbn [rebuild] in Hrun. unfold bind, settle, new_Date in Hrun.
  destruct (JSZip.dir x) eqn:Hx.
  - destruct (date_now P (ext_state w)) as [now s].
    destruct Hin as [->|Hin]; [congruence | eapply IH; eauto].
  - destruct (JSZip.async x) as [content|err] eqn:Hc; [|discriminate].
    destruct (date_now P (ext_state w)) as [now s].
    destruct Hin as [<-|Hin]; [now exists content | eapply IH; eauto].
Qed.

(** X9.  The calls [processZip] makes are an initial part of: read the
    input, parse what was read, serialise, write the result to the
    destination; all four when it returns, and it then reports the fixed
    removal under the type "zip".  When the content of some file entry of the
    parsed archive cannot be read, [processZip] fails after the parse:
    nothing is serialised and nothing is written. *)
Theorem processZip_calls (inputPath outputPath : string) (w : World St) :
  (exists (buffer result : Buffer) (n : nat),
     log (snd (processZip P inputPath outputPath w))
     = log w ++ firstn n (archive_calls inputPath outputPath buffer result)
     /\ match fst (processZip P inputPath outputPath w) with
        | Returned report =>
            n = 4
            /\ report = {| report_removed := ["ZIP 注释/附加头"];
                           report_type := "zip" |}
        | Threw _ => True
        end)
  /\ (forall (buffer : Buffer) (s : St) (zip : JSZip.t)
             (entry : JSZip.ZipObject) (e : Thrown),
        fs_readFile P inputPath (ext_state w) = (Returned buffer, s) ->
        JSZip_loadAsync P buffer = Returned zip ->
        In entry (JSZip.files zip) ->
        JSZip.dir entry = false ->
        JSZip.async entry = Threw e ->
        (exists e', fst (processZip P inputPath outputPath w) = Threw e')
        /\ log (snd (processZip P inputPath outputPath w))
           = log w ++ [EvReadFile inputPath; EvLoadZip buffer]).
Proof.
  split.
  - destruct (processZip P inputPath outputPath w) as [r w'] eqn:Hrun.
    cbn [fst snd]. unfold processZip in Hrun.
    unfold bind at 1 in Hrun. unfold perform at 1 in Hrun.
    destruct (fs_readFile P inputPath (ext_state w)) as [[buffer|e] s].
    + unfold bind at 1 in Hrun. unfold perform at 1 in Hrun.
      cbn [ext_state log] in Hrun.
      destruct (JSZip_loadAsync P buffer) as [zip|e].
      * unfold bind at 1 in Hrun.
        pose proof (rebuild_silent (JSZip.files zip) JSZip.empty
                      {| ext_state := s;
                         log := (log w ++ [EvReadFile inputPath])
                                ++ [EvLoadZip buffer] |}) as Hlog.
        destruct (rebuild P (JSZip.files zip) JSZip.empty _) as [[rebuilt|e] w1];
          cbn [fst snd log] in Hlog.
        -- unfold bind, perform, ret in Hrun.
           destruct (JSZip_generateAsync P rebuilt JSZip.DEFLATE) as [result|e];
             cbn [ext_state log] in Hrun.
           ++ exists buffer, result.
              destruct (fs_writeFile P outputPath result (ext_state w1))
                as [[[]|e] s1]; injection Hrun as <- <-; cbn [log]; exists 4;
                rewrite Hlog, <- !app_assoc; auto.
           ++ injection Hrun as <- <-. exists buffer, [], 3. cbn [log].
              now rewrite Hlog, <- !app_assoc.
        -- injection Hrun as <- <-. exists buffer, [], 2. rewrite Hlog.
           now rewrite <- app_assoc.
      * injection Hrun as <- <-. exists buffer, [], 2. cbn.
        now rewrite <- app_assoc.
    + injection Hrun as <- <-. exists [], [], 1. cbn. auto.
  - intros buffer s zip entry e Hread Hload Hin Hdir Hasync.
    destruct (processZip P inputPath outputPath w) as [r w'] eqn:Hrun.
    cbn [fst snd]. revert Hrun. unfold processZip.
    unfold bind at 1. unfold perform at 1. rewrite Hread.
    unfold bind at 1. unfold perform at 1. cbn [ext_state log]. rewrite Hload.
    unfold bind at 1.
    pose proof (rebuild_silent (JSZip.files zip) JSZip.empty
                  {| ext_state := s;
                     log := (log w ++ [EvReadFile inputPath])
                            ++ [EvLoadZip buffer] |}) as Hlog.
    pose proof (rebuild_reads_all (JSZip.files zip) JSZip.empty
                  {| ext_state := s;
                     log := (log w ++ [EvReadFile inputPath])
                            ++ [EvLoadZip buffer] |}) as Hall.
    destruct (rebuild P (JSZip.files zip) JSZip.empty _) as [[rebuilt|e'] w1];
      cbn [fst snd log] in Hlog.
    + destruct (Hall rebuilt w1 eq_refl entry Hin Hdir) as [content Hc].
      congruence.
    + intros Hrun. injection Hrun as <- <-. split; [now exists e'|].
      rewrite Hlog. now rewrite <- app_assoc.
Qed.

End ArchiveCalls.

Lemma processOffice_calls_witness :
  processOffice Mock.platform "/in/bad.docx" "/out/bad.docx"
    (Mock.start [("/in/bad.docx", [Byte.x00])])
  = (Threw (JsError
       "无法解析该 Office 文件，可能文件已损坏或为不支持的旧版二进制格式。"),
     {| ext_state := [("/in/bad.docx", [Byte.x00])];
        log := [] ++ [EvReadFile "/in/bad.docx"; EvLoadZip [Byte.x00]] |}).
Proof.
  apply (proj2 (processOffice_calls Mock.platform "/in/bad.docx"
                  "/out/bad.docx" (Mock.start [("/in/bad.docx", [Byte.x00])]))
           [Byte.x00] [("/in/bad.docx", [Byte.x00])]
           (JsError "Can't find end of central directory : is this a zip file ?"));
    reflexivity.
Defined.

Lemma processZip_calls_witness :
  (exists e',
     fst (ZipProcessor.processZip damaged_platform "/in/a.zip" "/out/a.zip"
            (Mock.start sample_files)) = Threw e')
  /\ log (snd (ZipProcessor.processZip damaged_platform "/in/a.zip"
                 "/out/a.zip" (Mock.start sample_files)))
     = [] ++ [EvReadFile "/in/a.zip"; EvLoadZip [Byte.x50; Byte.x4b]].
Proof.
  apply (proj2 (processZip_calls damaged_platform "/in/a.zip" "/out/a.zip"
                  (Mock.start sample_files))
           [Byte.x50; Byte.x4b] sample_files
           {| JSZip.files := [Mock.folder_entry "docs/"; damaged_entry];
              JSZip.zip_comment := None |}
           damaged_entry (JsError "invalid stored block lengths"));
    try reflexivity.
  simpl. tauto.
Defined.

(** ** The archive [processZip] serialises *)

Section RebuiltArchive.
Context {St : Type} (P : Platform St).

(** X10.  The archive [processZip] rebuilds and serialises is well formed,
    one entry per name and a slash at the end of every folder name, also when
    the entries it was rebuilt from are not; and rebuilding calls nothing
    outside. *)
Theorem rebuilt_archive_is_well_formed (entries : list JSZip.ZipObject)
    (w : World St) (rebuilt : JSZip.t) (w' : World St) :
  ZipProcessor.rebuild P entries JSZip.empty w = (Returned rebuilt, w') ->
  well_formed rebuilt /\ log w' = log w.
Proof.
  intros Hrun. split.
  - apply (rebuild_well_formed P entries JSZip.empty w rebuilt w'); [|exact Hrun].
    split; [constructor | constructor].
  - pose proof (rebuild_silent P entries JSZip.empty w) as H.
    now rewrite Hrun in H.
Qed.

End RebuiltArchive.

Lemma rebuilt_archive_is_well_formed_witness :
  exists rebuilt : JSZip.t,
    well_formed rebuilt /\ JSZip.keys rebuilt = ["a.txt"; "docs/"].
Proof.
  eexists. split.
  - refine (proj1 (rebuilt_archive_is_well_formed Mock.platform
                     [Mock.stored_entry "a.txt" JSZip.STORE [Byte.x31];
                      Mock.folder_entry "docs";
                      Mock.stored_entry "a.txt" JSZip.DEFLATE [Byte.x32]]
                     (Mock.start []) _ _ _)).
    vm_compute. reflexivity.
  - reflexivity.
Defined.

(** ** The scanner *)

(** *** Sets of strings *)

Section StringSets.
Import StringSet.

Lemma in_add (x y : string) (acc : list string) :
  In y (add x acc) <-> y = x \/ In y acc.
Proof.
  unfold add. destruct (includes acc x) eqn:E.
  - apply includes_In in E. split; [auto | intros [->|H]; auto].
  - rewrite in_app_iff. simpl. intuition.
Qed.

Lemma NoDup_add (x : string) (acc : list string) :
  NoDup acc -> NoDup (add x acc).
Proof.
  intros H. unfold add. destruct (includes acc x) eqn:E; [exact H|].
  apply NoDup_app; [exact H | constructor; [intros [] | constructor] |].
  intros y Hy [<-|[]]. apply includes_In in Hy. congruence.
Qed.

End StringSets.

Section Scanner.
Import StringSet FileScanner.
Context (T : Tree).

Lemma found_under_entries (dir f : string) :
  found_under T dir f
  <-> exists entries, readdir T dir = Returned entries /\ found_in T dir entries f.
Proof.
  split.
  - intros H. destruct H as [dir entries entry st Hr Hin Hs Hd Hf
                            | dir entries entry st f Hr Hin Hs Hd Hf].
    + exists entries. split; [exact Hr|]. exists entry, st. tauto.
    + exists entries. split; [exact Hr|]. exists entry, st. tauto.
  - intros (entries & Hr & entry & st & Hin & Hs & [(Hd & Hf & ->)|(Hd & Hf)]).
    + now apply (found_here T dir entries entry st).
    + now apply (found_below T dir entries entry st).
Qed.

Lemma walk_entries_collects
    (descend : string -> list string -> option (Outcome (list string)))
    (dir : string) :
  (forall d acc acc', descend d acc = Some (Returned acc') ->
                      collects (found_under T d) acc acc') ->
  forall entries acc acc',
    walk_entries T descend dir entries acc = Some (Returned acc') ->
    collects (found_in T dir entries) acc acc'.
Proof.
  intros Hdescend. induction entries as [|entry rest IH]; intros acc acc' Hrun.
  - cbn in Hrun. injection Hrun as <-.
    split; [auto|]. split; [|exists []; now rewrite app_nil_r].
    intros f. split; [auto|]. intros [H|(entry & st & [] & _)]. exact H.
  - cbn [walk_entries] in Hrun.
    destruct (stat T (join T dir entry)) as [st|e] eqn:Hs; [|discriminate].
    assert (Hsplit : forall f,
              found_in T dir (entry :: rest) f
              <-> (is_directory st = false /\ is_file st = true
                   /\ f = join T dir entry
                   \/ is_directory st = true
                      /\ found_under T (join T dir entry) f)
                  \/ found_in T dir rest f).
    { intros f. split.
      - intros (x & sx & [<-|Hin] & Hx & Hcase).
        + left. rewrite Hs in Hx. injection Hx as <-. exact Hcase.
        + right. now exists x, sx.
      - intros [Hcase|(x & sx & Hin & Hx & Hcase)].
        + exists entry, st. simpl. auto.
        + exists x, sx. simpl. auto. }
    destruct (is_directory st) eqn:Hd.
    + destruct (descend (join T dir entry) acc) as [[acc1|e]|] eqn:Hsub;
        try discriminate.
      destruct (Hdescend _ _ _ Hsub) as (Hnd1 & Hin1 & more1 & Hmore1).
      destruct (IH _ _ Hrun) as (Hnd2 & Hin2 & more2 & Hmore2).
      repeat split.
      * auto.
      * intros H. apply Hin2 in H as [H|H].
        -- apply Hin1 in H as [H|H]; [now left|].
           right. apply Hsplit. left. right. auto.
        -- right. apply Hsplit. now right.
      * intros [H|H].
        -- apply Hin2. left. apply Hin1. now left.
        -- apply Hsplit in H as [[(Hc & _)|(_ & H)]|H]; [discriminate | |].
           ++ apply Hin2. left. apply Hin1. now right.
           ++ apply Hin2. now right.
      * exists (more1 ++ more2). now rewrite Hmore2, Hmore1, app_assoc.
    + destruct (is_file st) eqn:Hf.
      * destruct (IH _ _ Hrun) as (Hnd2 & Hin2 & more2 & Hmore2).
        repeat split.
        -- intros H. now apply Hnd2, NoDup_add.
        -- intros H. apply Hin2 in H as [H|H].
           ++ apply in_add in H as [->|H]; [|now left].
              right. apply Hsplit. left. left. auto.
           ++ right. apply Hsplit. now right.
        -- intros [H|H].
           ++ apply Hin2. left. apply in_add. now right.
           ++ apply Hsplit in H as [[(_ & _ & ->)|(Hc & _)]|H];
                [| discriminate |].
              ** apply Hin2. left. apply in_add. now left.
              ** apply Hin2. now right.
        -- unfold add in Hmore2.
           destruct (includes acc (join T dir entry));
             [now exists more2|].
           exists ([join T dir entry] ++ more2).
           now rewrite Hmore2, app_assoc.
      * destruct (IH _ _ Hrun) as (Hnd2 & Hin2 & more2 & Hmore2).
        split; [exact Hnd2|]. split; [|now exists more2].
        intros f. split.
        -- intros H. apply Hin2 in H as [H|H]; [now left|].
           right. apply Hsplit. now right.
        -- intros [H|H]; [apply Hin2; now left|].
           apply Hsplit in H as [[(_ & Hc & _)|(Hc & _)]|H]; try discriminate.
           apply Hin2. now right.
Qed.

Lemma walk_collects (fuel : nat) :
  forall dir acc acc',
    walk T fuel dir acc = Some (Returned acc') ->
    collects (found_under T dir) acc acc'.
Proof.
  induction fuel as [|fuel IH]; intros dir acc acc' Hrun; [discriminate|].
  cbn [walk] in Hrun.
  destruct (readdir T dir) as [entries|e] eqn:Hr; [|discriminate].
  destruct (walk_entries_collects (walk T fuel) dir IH _ _ _ Hrun)
    as (Hnd & Hin & Hmore).
  repeat split; auto.
  - intros H. apply Hin in H as [H|H]; [now left|].
    right. apply found_under_entries. now exists entries.
  - intros [H|H]; apply Hin; [now left|].
    right. apply found_under_entries in H as (es & Hes & H).
    rewrite Hr in Hes. now injection Hes as <-.
Qed.

Lemma scan_each_collects (fuel : nat) (paths : list string) :
  forall files files',
    scan_each T fuel paths files = Some (Returned files') ->
    collects (wanted T paths) files files'.
Proof.
  induction paths as [|p rest IH]; intros files files' Hrun.
  - cbn in Hrun. injection Hrun as <-.
    split; [auto|]. split; [|exists []; now rewrite app_nil_r].
    intros f. split; [auto|]. intros [H|(p & [] & _)]. exact H.
  - cbn [scan_each] in Hrun.
    assert (Hsplit : forall f,
              wanted T (p :: rest) f
              <-> (isDirectory T p = false /\ f = p
                   \/ isDirectory T p = true /\ found_under T p f)
                  \/ wanted T rest f).
    { intros f. split.
      - intros (x & [<-|Hin] & Hcase); [now left|]. right. now exists x.
      - intros [Hcase|(x & Hin & Hcase)].
        + exists p. simpl. auto.
        + exists x. simpl. auto. }
    destruct (isDirectory T p) eqn:Hd.
    + destruct (walk T fuel p files) as [[files1|e]|] eqn:Hw; try discriminate.
      destruct (walk_collects _ _ _ _ Hw) as (Hnd1 & Hin1 & more1 & Hmore1).
      destruct (IH _ _ Hrun) as (Hnd2 & Hin2 & more2 & Hmore2).
      repeat split.
      * auto.
      * intros H. apply Hin2 in H as [H|H].
        -- apply Hin1 in H as [H|H]; [now left|].
           right. apply Hsplit. left. right. auto.
        -- right. apply Hsplit. now right.
      * intros [H|H].
        -- apply Hin2. left. apply Hin1. now left.
        -- apply Hsplit in H as [[(Hc & _)|(_ & H)]|H]; [discriminate | |].
           ++ apply Hin2. left. apply Hin1. now right.
           ++ apply Hin2. now right.
      * exists (more1 ++ more2). now rewrite Hmore2, Hmore1, app_assoc.
    + destruct (IH _ _ Hrun) as (Hnd2 & Hin2 & more2 & Hmore2).
      repeat split.
      * intros H. now apply Hnd2, NoDup_add.
      * intros H. apply Hin2 in H as [H|H].
        -- apply in_add in H as [->|H]; [|now left].
           right. apply Hsplit. left. left. auto.
        -- right. apply Hsplit. now right.
      * intros [H|H].
        -- apply Hin2. left. apply in_add. now right.
        -- apply Hsplit in H as [[(_ & ->)|(Hc & _)]|H]; [| discriminate |].
           ++ apply Hin2. left. apply in_add. now left.
           ++ apply Hin2. now right.
      * unfold add in Hmore2.
        destruct (includes files p); [now exists more2|].
        exists ([p] ++ more2). now rewrite Hmore2, app_assoc.
Qed.

(** X11.  What [scanPaths] returns, when it returns: each path once, and
    exactly the arguments that are not directories (those that do not exist
    among them) and the regular files in or below the arguments that are
    directories. *)
Theorem scanPaths_lists_the_files (fuel : nat) (paths files : list string) :
  scanPaths T fuel paths = Some (Returned files) ->
  NoDup files
  /\ forall f,
       In f files
       <-> exists p, In p paths
                     /\ (isDirectory T p = false /\ f = p
                         \/ isDirectory T p = true /\ found_under T p f).
Proof.
  intros Hrun. unfold scanPaths in Hrun.
  destruct (scan_each_collects fuel paths [] files Hrun) as (Hnd & Hin & _).
  split; [apply Hnd; constructor|].
  intros f. rewrite Hin. unfold wanted. simpl. tauto.
Qed.

(** *** The depth of the recursion *)

Lemma walk_entries_more
    (descend descend' : string -> list string -> option (Outcome (list string)))
    (dir : string) :
  (forall d acc r, descend d acc = Some r -> descend' d acc = Some r) ->
  forall entries acc r,
    walk_entries T descend dir entries acc = Some r ->
    walk_entries T descend' dir entries acc = Some r.
Proof.
  intros Hd. induction entries as [|entry rest IH]; intros acc r Hrun;
    [exact Hrun|].
  cbn [walk_entries] in *.
  destruct (stat T (join T dir entry)) as [st|e]; [|exact Hrun].
  destruct (is_directory st); [|destruct (is_file st); now apply IH].
  destruct (descend (join T dir entry) acc) as [[acc1|e]|] eqn:Hsub;
    [| |discriminate]; rewrite (Hd _ _ _ Hsub); [now apply IH | exact Hrun].
Qed.

Lemma walk_more (fuel : nat) :
  forall dir acc r,
    walk T fuel dir acc = Some r -> walk T (S fuel) dir acc = Some r.
Proof.
  induction fuel as [|fuel IH]; intros dir acc r Hrun; [discriminate|].
  cbn [walk] in Hrun |- *.
  destruct (readdir T dir) as [entries|e]; [|exact Hrun].
  now apply (walk_entries_more (walk T fuel)).
Qed.

Lemma walk_fuel (fuel fuel' : nat) (dir : string) (acc : list string)
    (r : Outcome (list string)) :
  fuel <= fuel' ->
  walk T fuel dir acc = Some r -> walk T fuel' dir acc = Some r.
Proof.
  induction 1 as [|m Hle IH]; [auto|]. intros H. now apply walk_more, IH.
Qed.

Lemma scan_each_fuel (fuel fuel' : nat) (paths : list string) :
  fuel <= fuel' ->
  forall files r,
    scan_each T fuel paths files = Some r ->
    scan_each T fuel' paths files = Some r.
Proof.
  intros Hle. induction paths as [|p rest IH]; intros files r Hrun;
    [exact Hrun|].
  cbn [scan_each] in *.
  destruct (isDirectory T p); [|now apply IH].
  destruct (walk T fuel p files) as [[files1|e]|] eqn:Hw; [| |discriminate];
    rewrite (walk_fuel fuel fuel' _ _ _ Hle Hw); [now apply IH | exact Hrun].
Qed.

Section Depth.
Context (rank : string -> nat) (Hrank : bounds_depth T rank).

Lemma walk_entries_ends
    (descend : string -> list string -> option (Outcome (list string)))
    (dir : string) (all : list string) :
  readdir T dir = Returned all ->
  (forall d acc, rank d < rank dir -> exists r, descend d acc = Some r) ->
  forall entries acc,
    incl entries all ->
    exists r, walk_entries T descend dir entries acc = Some r.
Proof.
  intros Hr Hd. induction entries as [|entry rest IH]; intros acc Hincl.
  - now exists (Returned acc).
  - cbn [walk_entries].
    assert (Hrest : incl rest all) by (intros x Hx; apply Hincl; now right).
    destruct (stat T (join T dir entry)) as [st|e] eqn:Hs;
      [|now exists (Threw e)].
    destruct (is_directory st) eqn:Hdir; [|destruct (is_file st); now apply IH].
    destruct (Hd (join T dir entry) acc) as [[acc1|e] Hsub].
    + apply (Hrank dir all entry st); auto. apply Hincl. now left.
    + rewrite Hsub. now apply IH.
    + rewrite Hsub. now exists (Threw e).
Qed.

Lemma walk_ends (fuel : nat) :
  forall dir acc, rank dir < fuel -> exists r, walk T fuel dir acc = Some r.
Proof.
  induction fuel as [|fuel IH]; intros dir acc Hlt; [lia|].
  cbn [walk]. destruct (readdir T dir) as [entries|e] eqn:Hr;
    [|now exists (Threw e)].
  apply (walk_entries_ends (walk T fuel) dir entries Hr).
  - intros d a Hd. apply IH. lia.
  - apply incl_refl.
Qed.

(** X12.  [scanPaths] ends on a tree of bounded depth: when no chain of
    nested directories is longer than a rank allows, a recursion depth above
    the rank of the arguments is enough for [scanPaths] to end, with a list or
    an error, and a greater depth gives the same. *)
Theorem scanPaths_ends (fuel : nat) (paths : list string) :
  (forall p, In p paths -> rank p < fuel) ->
  exists r,
    scanPaths T fuel paths = Some r
    /\ forall fuel', fuel <= fuel' -> scanPaths T fuel' paths = Some r.
Proof.
  intros Hfuel. unfold scanPaths.
  assert (Hends : forall files, exists r, scan_each T fuel paths files = Some r).
  { induction paths as [|p rest IH]; intros files.
    - now exists (Returned files).
    - cbn [scan_each].
      assert (Hrest : forall q, In q rest -> rank q < fuel)
        by (intros q Hq; apply Hfuel; now right).
      destruct (isDirectory T p); [|now apply IH].
      destruct (walk_ends fuel p files) as [[files1|e] Hw].
      + apply Hfuel. now left.
      + rewrite Hw. now apply IH.
      + rewrite Hw. now exists (Threw e). }
  destruct (Hends []) as [r Hr]. exists r. split; [exact Hr|].
  intros fuel' Hle. now apply (scan_each_fuel fuel fuel').
Qed.

End Depth.

(** *** Errors *)

Lemma walk_entries_visits
    (descend : string -> list string -> option (Outcome (list string)))
    (dir : string) (good : string -> Prop) :
  (forall d acc acc', descend d acc = Some (Returned acc') -> good d) ->
  forall entries acc acc',
    walk_entries T descend dir entries acc = Some (Returned acc') ->
    forall entry, In entry entries ->
      exists st, stat T (join T dir entry) = Returned st
                 /\ (is_directory st = true -> good (join T dir entry)).
Proof.
  intros Hd. induction entries as [|x rest IH]; intros acc acc' Hrun entry Hin;
    [contradiction|].
  cbn [walk_entries] in Hrun.
  destruct (stat T (join T dir x)) as [st|e] eqn:Hs; [|discriminate].
  destruct (is_directory st) eqn:Hdir.
  - destruct (descend (join T dir x) acc) as [[acc1|e]|] eqn:Hsub;
      try discriminate.
    destruct Hin as [<-|Hin]; [|now apply (IH _ _ Hrun)].
    exists st. split; [exact Hs|]. intros _. now apply (Hd _ _ _ Hsub).
  - assert (Hnext : exists a, walk_entries T descend dir rest a
                              = Some (Returned acc'))
      by (destruct (is_file st); eauto).
    destruct Hnext as [a Ha].
    destruct Hin as [<-|Hin]; [|now apply (IH _ _ Ha)].
    exists st. split; [exact Hs | congruence].
Qed.

Lemma walk_readable (fuel : nat) :
  forall top acc acc',
    walk T fuel top acc = Some (Returned acc') -> readable_below T top.
Proof.
  induction fuel as [|fuel IH]; intros top acc acc' Hrun; [discriminate|].
  cbn [walk] in Hrun.
  destruct (readdir T top) as [entries|e] eqn:Hr; [|discriminate].
  pose proof (walk_entries_visits (walk T fuel) top (readable_below T) IH
                _ _ _ Hrun) as Hentries.
  assert (Hgen : forall dir, visited T top dir ->
            dir = top \/ exists entry st,
              In entry entries
              /\ stat T (join T top entry) = Returned st
              /\ is_directory st = true
              /\ visited T (join T top entry) dir).
  { intros dir Hv. induction Hv as [|dir es entry st Hv IHv Hes Hin Hs Hd].
    - now left.
    - right. destruct IHv as [->|(e0 & s0 & Hin0 & Hs0 & Hd0 & Hv0)].
      + rewrite Hr in Hes. injection Hes as <-.
        exists entry, st. repeat split; auto. constructor.
      + exists e0, s0. repeat split; auto.
        now apply (visited_entry T _ dir es entry st). }
  intros dir Hv. destruct (Hgen dir Hv) as [->|(entry & st & Hin & Hs & Hd & Hsub)].
  - exists entries. split; [exact Hr|]. intros entry Hin.
    destruct (Hentries entry Hin) as (st & Hs & _). now exists st.
  - destruct (Hentries entry Hin) as (st' & Hs' & Hgood).
    rewrite Hs in Hs'. injection Hs' as <-. now apply (Hgood Hd).
Qed.

(** X13.  [scanPaths] gives all or nothing: when it returns a list, every
    directory in or below an argument that is a directory could be listed and
    every entry of it examined; one that could not makes the whole scan fail.
    (An argument that cannot be examined itself does not: it counts as a
    file.) *)
Theorem scanPaths_all_or_nothing (fuel : nat) (paths files : list string) :
  scanPaths T fuel paths = Some (Returned files) ->
  forall p dir,
    In p paths -> isDirectory T p = true -> visited T p dir ->
    exists entries,
      readdir T dir = Returned entries
      /\ forall entry, In entry entries ->
           exists st, stat T (join T dir entry) = Returned st.
Proof.
  unfold scanPaths. generalize (@nil string) as acc.
  induction paths as [|q rest IH]; intros acc Hrun p dir Hin Hd Hv;
    [contradiction|].
  cbn [scan_each] in Hrun.
  destruct (isDirectory T q) eqn:Hq.
  - destruct (walk T fuel q acc) as [[acc1|e]|] eqn:Hw; try discriminate.
    destruct Hin as [<-|Hin]; [|now apply (IH _ Hrun p dir)].
    now apply (walk_readable fuel q acc acc1 Hw).
  - destruct Hin as [<-|Hin]; [congruence | now apply (IH _ Hrun p dir)].
Qed.

End Scanner.

Lemma sample_tree_depth : bounds_depth sample_tree sample_rank.
Proof.
  intros dir entries entry st Hr Hin Hs Hd. cbn in Hr.
  destruct (String.eqb_spec dir "/in") as [->|_].
  - injection Hr as <-.
    destruct Hin as [<-|[<-|[<-|[]]]]; vm_compute in Hs; injection Hs as <-;
      try discriminate Hd.
    vm_compute. lia.
  - destruct (String.eqb_spec dir "/in/sub") as [->|_].
    + injection Hr as <-.
      destruct Hin as [<-|[]]. vm_compute in Hs. injection Hs as <-.
      discriminate Hd.
    + destruct (String.eqb dir "/locked"); discriminate.
Qed.

Lemma scanPaths_lists_the_files_witness :
  FileScanner.scanPaths sample_tree 3 ["/in"; "/gone.txt"; "/in/sub"]
  = Some (Returned ["/in/a.png"; "/in/sub/b.pdf"; "/gone.txt"])
  /\ NoDup ["/in/a.png"; "/in/sub/b.pdf"; "/gone.txt"]
  /\ forall f,
       In f ["/in/a.png"; "/in/sub/b.pdf"; "/gone.txt"]
       <-> exists p, In p ["/in"; "/gone.txt"; "/in/sub"]
                     /\ (FileScanner.isDirectory sample_tree p = false /\ f = p
                         \/ FileScanner.isDirectory sample_tree p = true
                            /\ found_under sample_tree p f).
Proof.
  split; [reflexivity|].
  apply (scanPaths_lists_the_files sample_tree 3
           ["/in"; "/gone.txt"; "/in/sub"]).
  reflexivity.
Defined.

Lemma scanPaths_ends_witness :
  exists r,
    FileScanner.scanPaths sample_tree 3 ["/in"; "/locked"] = Some r
    /\ forall fuel', 3 <= fuel' ->
         FileScanner.scanPaths sample_tree fuel' ["/in"; "/locked"] = Some r.
Proof.
  apply (scanPaths_ends sample_tree sample_rank sample_tree_depth 3
           ["/in"; "/locked"]).
  intros p [<-|[<-|[]]]; vm_compute; lia.
Defined.

Lemma scanPaths_all_or_nothing_witness :
  exists entries,
    FileScanner.readdir sample_tree "/in/sub" = Returned entries
    /\ forall entry, In entry entries ->
         exists st,
           FileScanner.stat sample_tree
             (FileScanner.join sample_tree "/in/sub" entry) = Returned st.
Proof.
  refine (scanPaths_all_or_nothing sample_tree 3 ["/in"]
            ["/in/a.png"; "/in/sub/b.pdf"] eq_refl "/in" "/in/sub"
            (or_introl eq_refl) eq_refl _).
  exact (visited_entry sample_tree "/in" "/in" ["a.png"; "sub"; "sock"] "sub"
           {| FileScanner.is_directory := true; FileScanner.is_file := false |}
           (visited_top sample_tree "/in") eq_refl
           (or_intror (or_introl eq_refl)) eq_refl eq_refl).
Defined.

(** The scan of a folder that cannot be listed fails as a whole, also for
    what was found before it. *)
Example scan_of_locked_folder_fails :
  FileScanner.scanPaths sample_tree 3 ["/in"; "/locked"]
  = Some (Threw (JsError "EACCES: permission denied")).
Proof. reflexivity. Qed.

(** ** The handler "clear-directory" *)

Section ClearDirectory.
Import MainInfo.
Context {St : Type} (P : Platform St) (R : Removal St).

(** The loop stops at the first removal that fails: the entries before it
    were removed, those after it are not asked for. *)
Lemma rm_each_run (d : string) (files : list string) :
  forall (s : St) (l : list Call),
  exists (k : nat) (r : Outcome unit) (s' : St),
    rm_each P R d files (s, l) = (r, (s', l ++ removals P d files k))
    /\ k <= length files
    /\ match r with
       | Returned _ => k = length files /\ removes P R d files s s'
       | Threw e =>
           exists (before : list string) (file : string) (s1 : St),
             firstn k files = before ++ [file]
             /\ removes P R d before s s1
             /\ fs_rm R (path_join P d file) s1 = (Threw e, s')
       end.
Proof.
  induction files as [|file rest IH]; intros s l.
  - exists 0, (Returned tt), s. cbn. rewrite app_nil_r.
    repeat split; auto. constructor.
  - cbn [rm_each]. unfold bind, invoke. cbn [fst snd].
    destruct (fs_rm R (path_join P d file) s) as [[[]|e] s1] eqn:Hrm.
    + destruct (IH s1 (l ++ [CallRm (path_join P d file)]))
        as (k & r & s' & Hrun & Hk & Hr).
      exists (S k), r, s'. rewrite Hrun. unfold removals. cbn [firstn map length].
      rewrite <- app_assoc. split; [reflexivity|]. split; [lia|].
      destruct r as [[]|e].
      * destruct Hr as [-> Hr]. split; [reflexivity|].
        now apply (removes_next P R d file rest s s1 s').
      * destruct Hr as (before & f & s2 & Hk' & Hb & Hf).
        exists (file :: before), f, s2. rewrite Hk'. split; [reflexivity|].
        split; [|exact Hf].
        now apply (removes_next P R d file before s s1 s2).
    + exists 1, (Threw e), s1. unfold removals. cbn [firstn map length].
      split; [reflexivity|]. split; [lia|].
      exists [], file, s. repeat split; auto. constructor.
Qed.

(** X14.  The handler of "clear-directory" never rejects: it answers [true]
    or [false].  With no path, or one that does not exist, it answers [false]
    and touches nothing.  Otherwise it lists the directory and removes its
    entries one by one, in the order listed, each under the directory's
    path.  It answers [true] exactly when every removal succeeded: all the
    entries were then asked to be removed, each from the state the removal
    before it left.  It answers [false], after a [console.error], when the
    listing threw, or at the first removal that throws: the entries before
    that one were removed, the state left is the one the failed removal left,
    and no removal is asked for the entries after it. *)
Theorem clear_directory_removes_entries (dirPath : option string) (s : St)
    (l : list Call) :
  exists b : bool,
    fst (clear_directory P R dirPath (s, l)) = Returned b
    /\ let left := fst (snd (clear_directory P R dirPath (s, l))) in
       let calls := snd (snd (clear_directory P R dirPath (s, l))) in
       match truthy_string dirPath with
       | None => b = false /\ calls = l /\ left = s
       | Some d =>
           if fs_existsSync P d s then
             match fs_readdir R d s with
             | (Threw _, s1) =>
                 b = false
                 /\ calls = l ++ [CallExistsSync d; CallReaddir d; CallConsoleError]
                 /\ left = s1
             | (Returned files, s1) =>
                 exists k : nat,
                   k <= length files
                   /\ calls = l ++ [CallExistsSync d; CallReaddir d]
                              ++ removals P d files k
                              ++ (if b then [] else [CallConsoleError])
                   /\ (if b
                       then k = length files /\ removes P R d files s1 left
                       else exists (before : list string) (file : string)
                                   (e : Thrown) (s2 : St),
                              firstn k files = before ++ [file]
                              /\ removes P R d before s1 s2
                              /\ fs_rm R (path_join P d file) s2
                                 = (Threw e, left))
             end
           else b = false /\ calls = l ++ [CallExistsSync d] /\ left = s
       end.
Proof.
  destruct (clear_directory P R dirPath (s, l)) as [r sl] eqn:Hrun.
  cbn [fst snd]. cbn zeta. unfold clear_directory, try_catch in Hrun.
  destruct (truthy_string dirPath) as [d|].
  - unfold bind at 1 in Hrun. unfold invoke at 1 in Hrun. cbn [fst snd] in Hrun.
    destruct (fs_existsSync P d s); cbn [negb] in Hrun.
    + unfold bind at 1 in Hrun. unfold invoke at 1 in Hrun.
      cbn [fst snd] in Hrun.
      destruct (fs_readdir R d s) as [[files|e] s1].
      * unfold bind at 1 in Hrun.
        destruct (rm_each_run d files s1 ((l ++ [CallExistsSync d])
                                             ++ [CallReaddir d]))
          as (k & r1 & s2 & Hrm & Hk & Hr).
        rewrite Hrm in Hrun. destruct r1 as [[]|e].
        -- unfold ret in Hrun. injection Hrun as <- <-. exists true.
           split; [reflexivity|]. exists k. cbn [fst snd].
           rewrite app_nil_r, <- !app_assoc. auto.
        -- unfold bind, invoke, ret in Hrun. cbn [fst snd] in Hrun.
           injection Hrun as <- <-. exists false.
           split; [reflexivity|]. exists k. cbn [fst snd].
           rewrite <- !app_assoc. split; [exact Hk|]. split; [reflexivity|].
           destruct Hr as (before & file & s3 & H1 & H2 & H3).
           now exists before, file, e, s3.
      * unfold bind, invoke, ret in Hrun. cbn [fst snd] in Hrun.
        injection Hrun as <- <-. exists false. cbn [fst snd].
        rewrite <- !app_assoc. auto.
    + unfold ret in Hrun. injection Hrun as <- <-. exists false. auto.
  - unfold ret in Hrun. injection Hrun as <- <-. exists false. auto.
Qed.

End ClearDirectory.

(** ** The list of files of the window *)

Section UniqueMerge.
Import StringSet App.

Lemma fold_add (l : list string) :
  forall s : list string,
    (NoDup s -> NoDup (fold_left (fun set f => add f set) l s))
    /\ (forall f, In f (fold_left (fun set f => add f set) l s)
                  <-> In f s \/ In f l)
    /\ (exists more, fold_left (fun set f => add f set) l s = s ++ more).
Proof.
  induction l as [|x l IH]; intros s; cbn [fold_left].
  - split; [auto|]. split; [intros f; simpl; tauto|].
    exists []. now rewrite app_nil_r.
  - destruct (IH (add x s)) as (Hnd & Hin & more & Hmore).
    split; [intros H; now apply Hnd, NoDup_add|].
    split.
    + intros f. rewrite Hin, in_add. simpl. intuition.
    + rewrite Hmore. unfold add. destruct (includes s x); [now exists more|].
      exists ([x] ++ more). now rewrite app_assoc.
Qed.

Lemma fold_add_known (l s : list string) :
  (forall f, In f l -> In f s) ->
  fold_left (fun set f => add f set) l s = s.
Proof.
  induction l as [|x l IH]; intros H; cbn [fold_left]; [reflexivity|].
  assert (Hx : add x s = s).
  { unfold add. replace (includes s x) with true; [reflexivity|].
    symmetry. apply includes_In, H. now left. }
  rewrite Hx. apply IH. intros f Hf. apply H. now right.
Qed.

Lemma fold_add_fresh (l : list string) :
  forall s : list string,
    NoDup (s ++ l) -> fold_left (fun set f => add f set) l s = s ++ l.
Proof.
  induction l as [|x l IH]; intros s H; cbn [fold_left];
    [now rewrite app_nil_r|].
  assert (Hx : add x s = s ++ [x]).
  { unfold add. destruct (includes s x) eqn:E; [|reflexivity].
    apply includes_In in E. apply NoDup_remove_2 in H.
    exfalso. apply H, in_or_app. now left. }
  rewrite Hx, IH; rewrite <- app_assoc; [reflexivity | exact H].
Qed.

Lemma of_array_NoDup (l : list string) : NoDup l -> of_array l = l.
Proof. intros H. now apply (fold_add_fresh l []). Qed.

Lemma uniqueMerge_parts (current incoming : list string) :
  NoDup (uniqueMerge current incoming)
  /\ (forall f, In f (uniqueMerge current incoming)
                <-> In f current \/ In f incoming)
  /\ (NoDup current ->
      exists more, uniqueMerge current incoming = current ++ more).
Proof.
  unfold uniqueMerge.
  destruct (fold_add current []) as (Hnd0 & Hin0 & _).
  fold (of_array current) in Hnd0, Hin0.
  destruct (fold_add incoming (of_array current)) as (Hnd & Hin & Hmore).
  split; [apply Hnd, Hnd0; constructor|]. split.
  - intros f. rewrite Hin, Hin0. simpl. tauto.
  - intros H. destruct Hmore as [more Hm]. exists more. rewrite Hm.
    now rewrite (of_array_NoDup current H).
Qed.

(** X15.  [uniqueMerge] gives each path once; the paths are those of the two
    lists; a list without duplicates is kept as it is, in its order, and the
    new paths come after it; and merging the same paths in again changes
    nothing. *)
Theorem uniqueMerge_keeps_and_appends (current incoming : list string) :
  NoDup (uniqueMerge current incoming)
  /\ (forall f, In f (uniqueMerge current incoming)
                <-> In f current \/ In f incoming)
  /\ (NoDup current ->
      exists more, uniqueMerge current incoming = current ++ more)
  /\ uniqueMerge (uniqueMerge current incoming) incoming
     = uniqueMerge current incoming.
Proof.
  destruct (uniqueMerge_parts current incoming) as (Hnd & Hin & Hmore).
  repeat split; try apply Hin; auto.
  unfold uniqueMerge at 1. rewrite (of_array_NoDup _ Hnd).
  apply fold_add_known. intros f Hf. apply Hin. now right.
Qed.

End UniqueMerge.

(** ** What enters the list of files *)

Section NoDirectory.
Import StringSet FileScanner.
Context (T : Tree).

Lemma found_under_not_directory (dir f : string) :
  found_under T dir f -> isDirectory T f = false.
Proof.
  induction 1 as [dir entries entry st Hr Hin Hs Hd Hf|]; [|assumption].
  unfold isDirectory. now rewrite Hs.
Qed.

(** X16.  [scanPaths] never returns a directory: a path it returns is a
    path that [isDirectory] answers [false] for. *)
Theorem scanPaths_returns_no_directory (fuel : nat)
    (paths files : list string) (f : string) :
  scanPaths T fuel paths = Some (Returned files) ->
  In f files -> isDirectory T f = false.
Proof.
  intros Hrun Hin. unfold scanPaths in Hrun.
  destruct (scan_each_collects T fuel paths [] files Hrun) as (_ & Hfiles & _).
  apply Hfiles in Hin as [[]|(p & _ & [(Hp & ->)|(_ & Hp)])].
  - exact Hp.
  - now apply (found_under_not_directory p).
Qed.

Import App.

Lemma in_filter_Boolean (l : list string) (f : string) :
  In f (filter_Boolean l) <-> In f l /\ f <> "".
Proof.
  unfold filter_Boolean. rewrite filter_In, negb_true_iff.
  split; intros [H E]; (split; [exact H|]); now apply String.eqb_neq.
Qed.

(** X17.  [addPaths] keeps the list of files in order: the files there were
    stay where they are, the new ones come after them, none is listed twice,
    and a path that enters the list is not empty and not a directory. *)
Theorem addPaths_extends_the_list (fuel : nat) (paths prev files : list string) :
  NoDup prev ->
  addPaths T fuel paths prev = Some (Returned files) ->
  NoDup files
  /\ (exists more, files = prev ++ more)
  /\ (forall f, In f files ->
                In f prev \/ f <> "" /\ isDirectory T f = false).
Proof.
  intros Hprev Hrun. unfold addPaths in Hrun.
  destruct (scanPaths T fuel (filter_Boolean paths)) as [[scanned|e]|] eqn:Hscan;
    try discriminate.
  injection Hrun as <-.
  destruct (0 <? length (filter_Boolean scanned))%nat.
  - destruct (uniqueMerge_parts prev (filter_Boolean scanned))
      as (Hnd & Hin & Hmore).
    split; [exact Hnd|]. split; [now apply Hmore|].
    intros f Hf. apply Hin in Hf as [Hf|Hf]; [now left|].
    right. apply in_filter_Boolean in Hf as [Hf Hne]. split; [exact Hne|].
    unfold scanPaths in Hscan.
    destruct (scan_each_collects T fuel (filter_Boolean paths) [] scanned Hscan)
      as (_ & Hfiles & _).
    apply Hfiles in Hf as [[]|(p & _ & [(Hp & ->)|(_ & Hp)])];
      [exact Hp | now apply (found_under_not_directory p)].
  - split; [exact Hprev|]. split; [exists []; now rewrite app_nil_r | auto].
Qed.

End NoDirectory.

Lemma scanPaths_returns_no_directory_witness :
  FileScanner.isDirectory sample_tree "/in/sub/b.pdf" = false.
Proof.
  apply (scanPaths_returns_no_directory sample_tree 3 ["/in"; "/in/sub"]
           ["/in/a.png"; "/in/sub/b.pdf"] "/in/sub/b.pdf" eq_refl).
  simpl. tauto.
Defined.

Lemma addPaths_extends_the_list_witness :
  NoDup ["/in/a.png"; "/in/sub/b.pdf"; "/new.txt"]
  /\ (exists more,
        ["/in/a.png"; "/in/sub/b.pdf"; "/new.txt"] = ["/in/a.png"] ++ more)
  /\ (forall f, In f ["/in/a.png"; "/in/sub/b.pdf"; "/new.txt"] ->
                In f ["/in/a.png"]
                \/ f <> "" /\ FileScanner.isDirectory sample_tree f = false).
Proof.
  apply (addPaths_extends_the_list sample_tree 3 [""; "/in"; "/new.txt"]
           ["/in/a.png"]).
  - repeat constructor. simpl. tauto.
  - reflexivity.
Defined.

(** ** The image sanitizer *)

Section Image.
Import ImageProcessor.
Context {St : Type} (P : Platform St) (Sh : Sharp St).

Lemma supported_is_truthy (f : string) :
  includes supportedFormats f = true -> truthy_string (Some f) = Some f.
Proof.
  intros Hf. apply includes_In in Hf. cbn [truthy_string].
  destruct (String.eqb_spec f "") as [->|_]; [|reflexivity].
  cbn in Hf. intuition discriminate.
Qed.

(** The chain of [||] without the truthiness tests. *)
Lemma targetFormat_cases (meta : Metadata) (ext : string) :
  targetFormat meta ext
  = match format meta with
    | Some f =>
        if includes supportedFormats f then f
        else if includes supportedFormats ext then ext else "png"
    | None => if includes supportedFormats ext then ext else "png"
    end.
Proof.
  unfold targetFormat.
  assert (Hext : match truthy_string
                         (if includes supportedFormats ext then Some ext else None)
                 with
                 | Some f => f
                 | None => "png"
                 end
                 = if includes supportedFormats ext then ext else "png").
  { destruct (includes supportedFormats ext) eqn:He; [|reflexivity].
    now rewrite (supported_is_truthy ext He). }
  destruct (format meta) as [f|]; cbn [truthy_string]; [|exact Hext].
  destruct (String.eqb_spec f "") as [->|_]; [exact Hext|].
  destruct (includes supportedFormats f) eqn:Hf; [|exact Hext].
  now rewrite (supported_is_truthy f Hf).
Qed.

Lemma targetFormat_in (meta : Metadata) (ext : string) :
  In (targetFormat meta ext) supportedFormats.
Proof.
  rewrite targetFormat_cases.
  assert (Hext : In (if includes supportedFormats ext then ext else "png")
                   supportedFormats).
  { destruct (includes supportedFormats ext) eqn:He; [|cbn; tauto].
    now apply includes_In. }
  destruct (format meta) as [f|]; [|exact Hext].
  destruct (includes supportedFormats f) eqn:Hf; [|exact Hext].
  now apply includes_In.
Qed.


(** X19.  The calls [processImage] makes are an initial part of: read the
    metadata, render to a buffer, write the buffer to the destination.  The
    rendering is asked for in a supported format, and with a colour profile
    only when the metadata gave one as a string that is not empty: a profile
    given as a Buffer is not carried over.  When [processImage] returns it
    made the three calls, what it wrote is what the rendering gave, and it
    reports the type "image". *)
Theorem processImage_calls (inputPath outputPath : string) (s : St)
    (l : list Call) :
  exists (profile : option string) (target : string) (buffer : Buffer)
         (n : nat),
    snd (snd (processImage P Sh inputPath outputPath (s, l)))
    = l ++ firstn n (image_calls inputPath outputPath profile target buffer)
    /\ In target supportedFormats
    /\ (forall icc, profile = Some icc ->
          icc <> ""
          /\ exists meta s1,
               sharp_metadata Sh inputPath s = (Returned meta, s1)
               /\ ImageProcessor.icc meta = icc_string icc)
    /\ match fst (processImage P Sh inputPath outputPath (s, l)) with
       | Returned report =>
           n = 3
           /\ report_type report = "image"
           /\ exists meta s1 s2,
                sharp_metadata Sh inputPath s = (Returned meta, s1)
                /\ sharp_toBuffer Sh inputPath profile target s1
                   = (Returned buffer, s2)
       | Threw _ => True
       end.
Proof.
  destruct (processImage P Sh inputPath outputPath (s, l)) as [r sl] eqn:Hrun.
  cbn [fst snd]. unfold processImage, bind, invoke, ret in Hrun.
  cbn [fst snd] in Hrun.
  destruct (sharp_metadata Sh inputPath s) as [[meta|e] s1] eqn:Hmeta;
    cbn [fst snd] in Hrun.
  - set (target := targetFormat meta _) in Hrun.
    set (profile := truthy_string (iccProfile meta)) in Hrun.
    assert (Hprofile : forall icc, profile = Some icc ->
              icc <> ""
              /\ exists meta' s1',
                   (Returned meta, s1) = (Returned meta', s1')
                   /\ ImageProcessor.icc meta' = icc_string icc).
    { intros icc Hicc. unfold profile, iccProfile, truthy_string in Hicc.
      destruct (ImageProcessor.icc meta) as [| |str] eqn:Hi; try discriminate.
      destruct (String.eqb_spec str "") as [|Hne]; [discriminate|].
      injection Hicc as <-. split; [exact Hne|]. now exists meta, s1. }
    assert (Htarget : In target supportedFormats)
      by apply targetFormat_in.
    destruct (sharp_toBuffer Sh inputPath profile target s1)
      as [[buffer|e] s2] eqn:Hbuf; rewrite ?Hbuf in Hrun;
      cbn [fst snd] in Hrun.
    + exists profile, target, buffer, 3.
      destruct (fs_writeFile P outputPath buffer s2) as [[[]|e] s3] eqn:Hw;
        rewrite ?Hw in Hrun; cbn [fst snd] in Hrun; injection Hrun as <- <-;
        cbn [snd firstn image_calls]; rewrite <- !app_assoc;
        (split; [reflexivity|]); (split; [exact Htarget|]);
        (split; [exact Hprofile|]); [|exact I].
      split; [reflexivity|]. split; [reflexivity|]. now exists meta, s1, s2.
    + injection Hrun as <- <-. exists profile, target, [], 2.
      cbn [snd firstn image_calls]. rewrite <- !app_assoc.
      split; [reflexivity|]. split; [exact Htarget|].
      split; [exact Hprofile | exact I].
  - injection Hrun as <- <-. exists None, "png", [], 1.
    cbn [snd firstn image_calls].
    split; [reflexivity|]. split; [cbn; tauto|].
    split; [discriminate | exact I].
Qed.

End Image.



(** ** The category shown and the category dispatched on *)

Section Categories.
Import MainInfo.

Lemma fold_ascii_dot (c : ascii) :
  Ascii.eqb (fold_ascii c) "." = Ascii.eqb c ".".
Proof.
  destruct c as [b0 b1 b2 b3 b4 b5 b6 b7].
  destruct b0, b1, b2, b3, b4, b5, b6, b7; reflexivity.
Qed.

Lemma has_dot_fold_case (s : string) : has_dot (fold_case s) = has_dot s.
Proof.
  induction s as [|c r IH]; simpl; [reflexivity|].
  now rewrite fold_ascii_dot, IH.
Qed.

Lemma ends_with_dot (a s : string) :
  has_dot s = false -> ends_with (String "." a) s = false.
Proof.
  induction s as [|c r IH]; intros H; [reflexivity|].
  cbn [has_dot] in H. apply orb_false_iff in H as [Hc Hr].
  cbn [ends_with]. rewrite (IH Hr), orb_false_r.
  destruct (String.eqb_spec (String "." a) (String c r)) as [E|_];
    [|reflexivity].
  injection E as <- _. discriminate.
Qed.

(** On what [path.extname] gives, the regular expressions of [getCategory]
    test for membership. *)
Lemma matches_extension_plain (alternatives : list string) (ext : string) :
  plain_extension ext = true ->
  matches_extension alternatives ext
  = includes (map (String ".") alternatives) (fold_case ext).
Proof.
  intros Hplain. unfold matches_extension, includes.
  induction alternatives as [|a rest IH]; cbn [existsb map]; [reflexivity|].
  rewrite IH. f_equal. cbn [append].
  destruct ext as [|c r]; cbn [fold_case ends_with].
  - now rewrite orb_false_r, String.eqb_sym.
  - cbn [plain_extension] in Hplain. apply andb_true_iff in Hplain as [_ Hr].
    apply negb_true_iff in Hr.
    rewrite ends_with_dot, orb_false_r; [apply String.eqb_sym|].
    now rewrite has_dot_fold_case.
Qed.

Context {St : Type} (P : Platform St).

(** X20.  The category [getCategory] shows for an extension and the category
    [processByType] dispatches on when the content is not recognised.  For an
    extension as [path.extname] gives it, whose lower case is the one of its
    ASCII letters, the two are the same but for two extensions: ".heic" is
    shown as "other" and dispatched to the image sanitizer, and ".heif" is
    shown as an image and not dispatched at all. *)
Theorem getCategory_and_dispatch (ext : string) :
  plain_extension ext = true ->
  toLowerCase P ext = fold_case ext ->
  (~ In (fold_case ext) [".heic"; ".heif"] ->
   getCategory P ext = route (toLowerCase P ext) "")
  /\ (fold_case ext = ".heic" ->
      getCategory P ext = Category.other
      /\ route (toLowerCase P ext) "" = Category.image)
  /\ (fold_case ext = ".heif" ->
      getCategory P ext = Category.image
      /\ route (toLowerCase P ext) "" = Category.other).
Proof.
  intros Hplain Hlower. unfold getCategory.
  rewrite !(matches_extension_plain _ ext Hplain), Hlower.
  remember (fold_case ext) as x eqn:Hx. clear Hx Hlower Hplain.
  split; [|split].
  - intros Hno.
    unfold route, evaluation_order, matches, has, includes, find.
    cbn [ext_set mime_test imageExts pdfExts officeExts zipExts videoExts
         existsb map String.prefix orb].
    repeat match goal with
           | |- context [String.eqb x ?s] =>
               destruct (String.eqb_spec x s) as [->|?];
                 [first [reflexivity | exfalso; apply Hno; simpl; tauto]|]
           end.
    reflexivity.
  - intros ->. split; reflexivity.
  - intros ->. split; reflexivity.
Qed.

End Categories.

Lemma getCategory_and_dispatch_witness :
  (~ In (MainInfo.fold_case ".PNG") [".heic"; ".heif"] ->
   MainInfo.getCategory Mock.platform ".PNG"
   = route (toLowerCase Mock.platform ".PNG") "")
  /\ (MainInfo.fold_case ".PNG" = ".heic" ->
      MainInfo.getCategory Mock.platform ".PNG" = Category.other
      /\ route (toLowerCase Mock.platform ".PNG") "" = Category.image)
  /\ (MainInfo.fold_case ".PNG" = ".heif" ->
      MainInfo.getCategory Mock.platform ".PNG" = Category.image
      /\ route (toLowerCase Mock.platform ".PNG") "" = Category.other).
Proof.
  apply (getCategory_and_dispatch Mock.platform ".PNG"); reflexivity.
Defined.

(** ** The results the window keeps *)

Section WindowResults.
Import App.

Lemma get_put (key k : string) (r : ProcessResult) (m : Results) :
  get k (put key r m) = if String.eqb key k then Some r else get k m.
Proof.
  unfold get, put.
  destruct (existsb _ m) eqn:E.
  - induction m as [|[k0 r0] m IH]; [discriminate|].
    cbn [existsb map find fst snd] in E |- *.
    destruct (String.eqb_spec k0 key) as [->|Hk0]; cbn [fst snd].
    + destruct (String.eqb_spec key k) as [_|Hk]; [reflexivity|].
      clear IH E. induction m as [|[k1 r1] m IH]; [reflexivity|].
      cbn [map find fst snd].
      destruct (String.eqb_spec k1 key) as [->|Hk1]; cbn [fst snd].
      * destruct (String.eqb_spec key k); [contradiction | exact IH].
      * destruct (String.eqb k1 k); [reflexivity | exact IH].
    + destruct (String.eqb_spec k0 k) as [->|_].
      * destruct (String.eqb_spec key k); [congruence | reflexivity].
      * now apply IH.
  - rewrite find_snoc. cbn [fst snd].
    destruct (find (fun kv => String.eqb (fst kv) k) m) as [kv|] eqn:F.
    + destruct (String.eqb_spec key k) as [->|_]; [|reflexivity].
      exfalso. apply find_some in F as [Hin Hk].
      apply (proj2 (not_true_iff_false _) E).
      apply existsb_exists. now exists kv.
    + now destruct (String.eqb key k).
Qed.

Lemma in_put (key : string) (r : ProcessResult) (m : Results)
    (kv : string * ProcessResult) :
  In kv (put key r m) -> kv = (key, r) \/ In kv m.
Proof.
  unfold put. destruct (existsb _ m).
  - intros H. apply in_map_iff in H as (x & Hx & Hin).
    destruct (String.eqb (fst x) key); subst; auto.
  - intros H. apply in_app_or in H as [H|[H|[]]]; auto.
Qed.

Lemma get_in (k : string) (m : Results) (r : ProcessResult) :
  get k m = Some r -> In (k, r) m.
Proof.
  unfold get. destruct (find _ m) as [[k0 r0]|] eqn:F; [|discriminate].
  intros H. injection H as <-. apply find_some in F as [Hin Hk].
  apply String.eqb_eq in Hk. cbn in Hk. now subst.
Qed.

(** What [forEach] gathers: a result under the key of each result but those
    with the key [__proto__]; and only results, each under its own key. *)
Lemma gathered (rs : list ProcessResult) (f : string) :
  f <> "__proto__" ->
  forall m : Results,
    (forall k r, In (k, r) (fold_left assign rs m) ->
                 In (k, r) m \/ In r rs /\ inputPath r = k)
    /\ ((exists r, In r rs /\ inputPath r = f) ->
        exists r, get f (fold_left assign rs m) = Some r)
    /\ (forall r, get f m = Some r ->
                  exists r', get f (fold_left assign rs m) = Some r').
Proof.
  intros Hf. induction rs as [|r0 rs IH]; intros m; cbn [fold_left].
  - split; [auto|]. split; [intros (r & [] & _) | eauto].
  - destruct (IH (assign m r0)) as (Hin & Hkey & Hkeep).
    assert (Hput : forall r, get f m = Some r ->
                             exists r', get f (assign m r0) = Some r').
    { intros r Hr. unfold assign.
      destruct (String.eqb (inputPath r0) "__proto__"); [eauto|].
      rewrite get_put. destruct (String.eqb (inputPath r0) f); eauto. }
    split; [|split].
    + intros k r H. apply Hin in H as [H|[H <-]]; [|right; simpl; auto].
      unfold assign in H.
      destruct (String.eqb (inputPath r0) "__proto__"); [now left|].
      apply in_put in H as [H|H]; [|now left].
      injection H as -> ->. right. simpl. auto.
    + intros (r & [<-|Hr] & Hk).
      * apply (Hkeep r0). unfold assign.
        destruct (String.eqb_spec (inputPath r0) "__proto__"); [congruence|].
        rewrite get_put, Hk. now rewrite String.eqb_refl.
      * apply Hkey. now exists r.
    + intros r Hr. destruct (Hput r Hr) as [r' Hr']. now apply (Hkeep r').
Qed.

(** What the spread leaves under a key of the update is from the update. *)
Lemma spread_update (f : string) (update : Results) :
  forall prev : Results,
    (forall r0, get f prev = Some r0 ->
       get f (spread prev update) = Some r0
       \/ exists r, get f (spread prev update) = Some r /\ In (f, r) update)
    /\ ((exists r, In (f, r) update) ->
        exists r, get f (spread prev update) = Some r /\ In (f, r) update).
Proof.
  unfold spread. induction update as [|[k v] update IH]; intros prev;
    cbn [fold_left fst snd].
  - split; [auto | intros (r & [])].
  - destruct (IH (put k v prev)) as (Hkeep & Hnew).
    assert (Hk : String.eqb k f = true ->
                 exists r, get f (fold_left
                                    (fun m kv => put (fst kv) (snd kv) m)
                                    update (put k v prev)) = Some r
                           /\ In (f, r) ((k, v) :: update)).
    { intros E. apply String.eqb_eq in E. subst k.
      destruct (Hkeep v) as [H|(r & H & Hin)].
      - rewrite get_put. now rewrite String.eqb_refl.
      - exists v. split; [exact H | now left].
      - exists r. split; [exact H | now right]. }
    split.
    + intros r0 Hr0. destruct (String.eqb k f) eqn:E; [right; now apply Hk|].
      destruct (Hkeep r0) as [H|(r & H & Hin)].
      * rewrite get_put, E. exact Hr0.
      * now left.
      * right. exists r. split; [exact H | now right].
    + intros (r & [Hr|Hr]).
      * injection Hr as -> ->. apply Hk, String.eqb_refl.
      * destruct (Hnew (ex_intro _ r Hr)) as (r' & H & Hin).
        exists r'. split; [exact H | now right].
Qed.

Context {St : Type} (P : Platform St) (S : Sanitizers St).

(** X21.  After [handleProcess] every file of the list has a result of its
    own: when the list is sent for processing (a destination is configured),
    [handleProcess] does not fail, and for each listed file the results it
    leaves hold, under the file's path, a result the handler returned for
    that path, a success or an error, so that no row is left waiting.  (The
    path [__proto__] is the exception: assigning under it makes no
    property.) *)
Theorem every_listed_file_gets_a_result (files : list string)
    (config : AppConfig) (prev : Results) (w : World St) (f : string) :
  In f files ->
  f <> "__proto__" ->
  overwriteSource config = true \/ outputDir config <> "" ->
  exists (results : Results) (r : ProcessResult),
    fst (handleProcess P S files config prev w) = Returned results
    /\ get f results = Some r
    /\ inputPath r = f
    /\ status r <> skipped
    /\ mark results f <> shows_waiting.
Proof.
  intros Hin Hf Hconfig. unfold handleProcess.
  assert (Hgo : (length files =? 0)%nat
                || (negb (overwriteSource config)
                    && String.eqb (outputDir config) "") = false).
  { apply orb_false_iff. split.
    - destruct files; [contradiction | reflexivity].
    - destruct Hconfig as [->|Hne]; [reflexivity|].
      apply andb_false_iff. right. now apply String.eqb_neq. }
  rewrite Hgo. unfold try_catch, bind. rewrite process_files_outcome.
  cbn [Main.items Main.options fst snd]. unfold ret. cbn [fst].
  set (options := {| Types.outputDir := Some (outputDir config) |}).
  set (its := map (fun path => Some {| path := path |}) files).
  destruct (batch_outcome_mode P S options its w) as (_ & _ & _ & Hshape).
  pose proof (batch_outcome_keys P S options its w) as Hkeys.
  set (rs := fst (batch_outcome P S options its w)) in *.
  assert (Hthere : exists r, In r rs /\ inputPath r = f).
  { assert (Hk : In f (map inputPath rs)).
    { rewrite Hkeys. unfold its. rewrite map_map.
      apply in_map_iff. exists f. split; [|exact Hin].
      unfold item_key. cbn [Main.item_path path truthy_string].
      now destruct (String.eqb_spec f "") as [->|_]. }
    apply in_map_iff in Hk as (r & Hr & Hinr). now exists r. }
  destruct (gathered rs f Hf []) as (Hown & Hkey & _).
  destruct (Hkey Hthere) as [r0 Hr0].
  destruct (spread_update f (fold_left assign rs []) prev) as (_ & Hnew).
  destruct (Hnew (ex_intro _ r0 (get_in _ _ _ Hr0))) as (r & Hr & Hfrom).
  apply Hown in Hfrom as [[]|[Hrs Hpath]].
  assert (Hstatus : status r <> skipped).
  { pose proof (proj1 (Forall_forall _ _) Hshape r Hrs) as Hw.
    unfold well_shaped in Hw. intros E. now rewrite E in Hw. }
  eexists; exists r. split; [reflexivity|].
  repeat split; auto.
  unfold mark. rewrite Hr. destruct (status r); congruence.
Qed.

End WindowResults.

Lemma every_listed_file_gets_a_result_witness :
  exists (results : App.Results) (r : ProcessResult),
    fst (App.handleProcess Mock.platform Mock.sanitizers
           ["/in/a.zip"; "/in/clip.mp4"] sample_config []
           (Mock.start sample_files)) = Returned results
    /\ App.get "/in/clip.mp4" results = Some r
    /\ inputPath r = "/in/clip.mp4"
    /\ status r <> skipped
    /\ App.mark results "/in/clip.mp4" <> App.shows_waiting.
Proof.
  apply (every_listed_file_gets_a_result Mock.platform Mock.sanitizers
           ["/in/a.zip"; "/in/clip.mp4"] sample_config []
           (Mock.start sample_files) "/in/clip.mp4").
  - simpl. tauto.
  - discriminate.
  - right. discriminate.
Defined.
